(** * nsls2api: the PASS synchronisation engine

    A shallow embedding of [nsls2api/services/pass_service.py] and
    [nsls2api/services/sync_service.py], and the properties of the
    reconciliation engine proved over it.

    The coroutines of the source are run sequentially by their worker, so an
    [await] is an ordinary call here.  A coroutine becomes a computation in
    the monad [M]: it reads and writes the document store, the logger and
    the clock, and either returns a value or raises a Python exception.

    The collaborators whose sources are not part of these files
    (the web-service helper, the beamline, facility, proposal and BNL-people
    services, the pydantic and beanie models) are fields of the environment
    [Env]; their result types follow the call sites.

    Conventions of the model:
    - a collection is the list of its documents, a document's position
      being its [_id]; the engine never deletes a document;
    - within one run a collaborator answers the same question the same
      way; between runs the environment may change;
    - a log record keeps its level and its text; a duration or a response
      object inside the text is not formatted as Python would, and the
      [print(url)] of [pass_service] is left out;
    - a response of PASS is JSON null, a non-empty JSON object or an array
      of such objects, and an object is taken by the pydantic model it
      was written for and by no other;
    - strings are ASCII: [str.casefold] and [int()] are modelled on ASCII
      text only, integers stay below the digit limit that CPython puts on
      [str()] and [int()], and the exceptions are those deriving from
      [Exception] (a cancellation of the task is not modelled);
    - [worker_update_proposal_to_cycle_mapping], which hands [Cycle]
      documents to the linker where cycle names are expected, is outside
      this development. *)

From stdpp Require Import base decidable option list strings pretty.
From Stdlib Require Import Ascii ZArith Lia.

Open Scope Z_scope.
Open Scope string_scope.
Open Scope list_scope.

(** ** Python values, exceptions and results *)

(** The exception classes the engine raises, catches or lets through. *)
Inductive exn_class :=
| ExceptionC | TypeErrorC | AttributeErrorC | LookupErrorC | ValueErrorC
| ValidationErrorC | HTTPStatusErrorC | PassExceptionC.

Global Instance exn_class_eq_dec : EqDecision exn_class.
Proof. solve_decision. Defined.

Record exn := Raise { exn_cls : exn_class; exn_msg : string }.

Global Instance exn_eq_dec : EqDecision exn.
Proof. solve_decision. Defined.

(** [issubclass c d]: every class here derives from [Exception]
    (subclasses of [BaseException] only, such as [asyncio.CancelledError],
    are not among the modelled classes); pydantic's [ValidationError]
    derives from [ValueError]. *)
Definition issubclass (c d : exn_class) : bool :=
  match d with
  | ExceptionC => true
  | ValueErrorC => bool_decide (c = ValueErrorC) || bool_decide (c = ValidationErrorC)
  | _ => bool_decide (c = d)
  end.

Inductive result (A : Type) :=
| Ok (a : A)
| Err (e : exn).
Arguments Ok {A} a.
Arguments Err {A} e.

(** A proposal id reaches the engine as an [int] (the job parameters) or as
    a [str] (an entry of [Cycle.proposals]); the code only formats it with
    [str()] or converts it with [int()].  Integers are taken below the
    limit of 4300 digits beyond which CPython refuses both conversions. *)
Inductive pyval :=
| PInt (z : Z)
| PStr (s : string).

Definition py_str (v : pyval) : string :=
  match v with
  | PInt z => pretty z
  | PStr s => s
  end.

Module PyInt.
(** [int(s)] on the ASCII part of Python's grammar: surrounding white
    space, an optional sign, decimal digits, single underscores between
    digits.  Unicode digits and Unicode white space, which Python accepts
    too, are outside this model. *)
Definition is_space (a : ascii) : bool :=
  let n := nat_of_ascii a in
  bool_decide (n = 32 ∨ (9 ≤ n ∧ n ≤ 13))%nat.

Definition digit (a : ascii) : option Z :=
  let n := nat_of_ascii a in
  if bool_decide (48 ≤ n ∧ n ≤ 57)%nat then Some (Z.of_nat (n - 48)) else None.

Fixpoint lstrip (s : string) : string :=
  match s with
  | String a s' => if is_space a then lstrip s' else s
  | EmptyString => EmptyString
  end.

(** [digits acc seen s]: [seen] tells whether the previous character was a
    digit (an underscore is only legal after one and before another). *)
Fixpoint digits (acc : Z) (seen : bool) (s : string) : option Z :=
  match s with
  | EmptyString => if seen then Some acc else None
  | String a s' =>
      match digit a with
      | Some d => digits (10 * acc + d) true s'
      | None =>
          if bool_decide (a = "_"%char) && seen then
            match s' with
            | String b _ => if digit b is Some _ then digits acc false s' else None
            | EmptyString => None
            end
          else if is_space a && seen then
            if bool_decide (lstrip s' = EmptyString) then Some acc else None
          else None
      end
  end.

Definition parse (s : string) : option Z :=
  match lstrip s with
  | String "-" s' => Z.opp <$> digits 0 false s'
  | String "+" s' => digits 0 false s'
  | s' => digits 0 false s'
  end.
End PyInt.

Definition py_int (v : pyval) : result Z :=
  match v with
  | PInt z => Ok z
  | PStr s =>
      match PyInt.parse s with
      | Some z => Ok z
      | None =>
          Err (Raise ValueErrorC ("invalid literal for int() with base 10: '" +:+ s +:+ "'"))
      end
  end.

(** [str.casefold] on ASCII text: upper-case letters are lowered.  The
    full Unicode case folding of Python is outside this model; the engine
    only compares two folded ids for equality. *)
Definition casefold_ascii (a : ascii) : ascii :=
  let n := nat_of_ascii a in
  if bool_decide (65 ≤ n ∧ n ≤ 90)%nat then ascii_of_nat (n + 32) else a.

Fixpoint casefold (s : string) : string :=
  match s with
  | EmptyString => EmptyString
  | String a s' => String (casefold_ascii a) (casefold s')
  end.

(** ** The PASS records ([nsls2api.models.pass_models]) *)

Record PassResource := { ID : Z }.

Record PassPerson := {
  First_Name : string;
  Last_Name : string;
  Email : string;
  BNL_ID : string;
}.

Record PassSaf := {
  SAF_ID : Z;
  Status : string;
  saf_Resources : list PassResource;
}.

Record PassProposal := {
  Proposal_ID : Z;
  Title : string;
  Proposal_Type_ID : Z;
  Proposal_Type_Description : string;
  Resources : list PassResource;
  Experimenters : list PassPerson;
  PI : option PassPerson;
}.

Record PassCycle := {
  cyc_ID : Z;
  cyc_Name : string;
  cyc_Active : bool;
  cyc_User_Facility_ID : Z;
  cyc_Year : Z;
  cyc_Start_Date : Z;
  cyc_End_Date : Z;
  cyc_Description : string;
}.

Record PassProposalType := {
  pt_ID : Z;
  pt_Code : string;
  pt_Description : string;
  pt_User_Facility_ID : Z;
}.

(** An entry of the allocation list of a cycle; only its proposal id is
    read. *)
Record PassAllocation := { alloc_Proposal_ID : Z }.

(** A JSON object of PASS, decoded: a non-empty [dict].  It is tagged with the
    pydantic model that accepts it and the record that the validation would
    build from it; [ObjInvalid] is an object that no model accepts, with the
    text of the validation error.  A safety form is described by a [PassSaf]
    although the engine never validates one. *)
Inductive json_object :=
| ObjProposal (p : PassProposal)
| ObjProposalType (t : PassProposalType)
| ObjCycle (c : PassCycle)
| ObjSaf (saf : PassSaf)
| ObjInvalid (detail : string).

(** What the web-service helper hands back: the decoded JSON, which is
    [None], a [dict] or a [list] of [dict]. *)
Inductive raw :=
| RawNull
| RawObject (o : json_object)
| RawArray (l : list json_object).

(** The responses by what they hold.  The empty array is the same value
    whatever it was meant to list. *)
Definition RawProposal (p : PassProposal) : raw := RawObject (ObjProposal p).
Definition RawInvalid (detail : string) : raw := RawObject (ObjInvalid detail).
Definition RawSafs (l : list PassSaf) : raw := RawArray (ObjSaf <$> l).
Definition RawProposals (l : list PassProposal) : raw := RawArray (ObjProposal <$> l).
Definition RawProposalTypes (l : list PassProposalType) : raw :=
  RawArray (ObjProposalType <$> l).

(** What a [for] loop over a response yields: the elements of an array,
    each a [dict], or the keys of an object, each a [str]. *)
Inductive element :=
| Dict (o : json_object)
| Key.

Definition type_name (x : element) : string :=
  match x with
  | Dict _ => "dict"
  | Key => "str"
  end.

(** ** The local documents ([nsls2api.models]) *)

Module Facility.
Record t := mk { name : string; facility_id : string }.
End Facility.

Module Beamline.
Record t := mk { name : string }.
End Beamline.

Module SafetyForm.
Record t := mk { saf_id : string; status : string; instruments : list string }.
End SafetyForm.

Module User.
Record t := mk {
  first_name : string;
  last_name : string;
  email : string;
  bnl_id : string;
  username : option string;
  is_pi : bool;
}.
End User.

Module Proposal.
Record t := mk {
  proposal_id : string;
  title : string;
  data_session : string;
  pass_type_id : string;
  type : string;
  instruments : list string;
  safs : list SafetyForm.t;
  users : list User.t;
  cycles : list string;
  last_updated : option Z;
}.
End Proposal.

Module Cycle.
Record t := mk {
  name : string;
  accepting_proposals : bool;
  facility : string;
  year : string;
  start_date : Z;
  end_date : Z;
  pass_description : string;
  pass_id : string;
  proposals : list string;
  last_updated : option Z;
}.
End Cycle.

Module ProposalType.
Record t := mk {
  code : string;
  facility_id : string;
  pass_id : string;
  description : string;
  pass_description : string;
  last_updated : option Z;
}.
End ProposalType.

(** ** State: the three collections, the clock and the log *)

Inductive log_level := DEBUG | INFO | WARNING | ERROR.

Global Instance log_level_eq_dec : EqDecision log_level.
Proof. solve_decision. Defined.

(** A collection is the list of its documents in insertion order; the
    position of a document is its [_id]. *)
Record State := {
  db_cycles : list Cycle.t;
  db_proposals : list Proposal.t;
  db_proposal_types : list ProposalType.t;
  clock : Z;
  logs : list (log_level * string);
}.

Definition M (A : Type) : Type := State → result A * State.

Definition ret {A} (a : A) : M A := λ s, (Ok a, s).
Definition raise {A} (e : exn) : M A := λ s, (Err e, s).
Definition bind {A B} (m : M A) (k : A → M B) : M B :=
  λ s, match m s with
       | (Ok a, s') => k a s'
       | (Err e, s') => (Err e, s')
       end.
Definition lift {A} (r : result A) : M A := λ s, (r, s).

Global Instance M_ret : MRet M := @ret.
Global Instance M_bind : MBind M := λ A B k m, bind m k.

(** [for x in l: body x] *)
Fixpoint for_each {A} (l : list A) (body : A → M unit) : M unit :=
  match l with
  | [] => ret tt
  | x :: l' => body x ;; for_each l' body
  end.

(** [try: body  except C1: h1  except C2: h2 ...].  When [body] raises, the
    clauses are tried in order; the expression naming the class of a clause
    is evaluated at that moment, and an exception raised by that evaluation
    replaces the one in flight. *)
Fixpoint except_clauses {A} (e : exn) (cl : list (result exn_class * (exn → M A))) : M A :=
  match cl with
  | [] => raise e
  | (Err e', _) :: _ => raise e'
  | (Ok c, h) :: cl' => if issubclass (exn_cls e) c then h e else except_clauses e cl'
  end.

Definition try_except {A} (body : M A) (cl : list (result exn_class * (exn → M A))) : M A :=
  λ s, match body s with
       | (Ok a, s') => (Ok a, s')
       | (Err e, s') => except_clauses e cl s'
       end.

(** [datetime.datetime.now()]: a logical clock, read and advanced. *)
Definition now : M Z :=
  λ s, (Ok (clock s),
        {| db_cycles := db_cycles s; db_proposals := db_proposals s;
           db_proposal_types := db_proposal_types s;
           clock := clock s + 1; logs := logs s |}).

Definition logger (lvl : log_level) (msg : string) : M unit :=
  λ s, (Ok tt,
        {| db_cycles := db_cycles s; db_proposals := db_proposals s;
           db_proposal_types := db_proposal_types s;
           clock := clock s; logs := logs s ++ [(lvl, msg)] |}).

(** Attribute access on [None]. *)
Definition none_has_no_attribute (attr : string) : exn :=
  Raise AttributeErrorC ("'NoneType' object has no attribute '" +:+ attr +:+ "'").

(** Iterating over [None]. *)
Definition none_not_iterable : exn :=
  Raise TypeErrorC "'NoneType' object is not iterable".

(** [for x in response].  An object has at least one key, and every loop
    of the engine over a response stops at its first element when that is a
    key: one key stands for all of them. *)
Definition iterate (r : raw) : result (list element) :=
  match r with
  | RawNull => Err none_not_iterable
  | RawArray l => Ok (Dict <$> l)
  | RawObject _ => Ok [Key]
  end.

(** [x.name] on an element of a response: neither a [dict] nor a [str] has
    the attributes of a pydantic model. *)
Definition attribute {A} (x : element) (name : string) : result A :=
  Err (Raise AttributeErrorC
         ("'" +:+ type_name x +:+ "' object has no attribute '" +:+ name +:+ "'")).

(** An unbound local variable read after a loop that never ran. *)
Definition unbound_local (var : string) : exn :=
  Raise ExceptionC
    ("UnboundLocalError: cannot access local variable '" +:+ var +:+
     "' where it is not associated with a value").

(** ** The environment of the engine *)

Record Env := {
  (** [config.get_settings()]: [pass_api_url] and [pass_api_key]. *)
  base_url : string;
  api_key : string;
  (** [helpers._call_async_webservice(url)]: the decoded response, or the
      exception of the transport. *)
  _call_async_webservice : string → result raw;
  (** [beamline_service.beamline_by_pass_id]: the call sites test the
      result for [None]. *)
  beamline_by_pass_id : Z → result (option Beamline.t);
  (** [facility_service.facility_by_pass_id] and [facility_service.cycle_year]. *)
  facility_by_pass_id : Z → result (option Facility.t);
  cycle_year : string → result Z;
  (** [bnlpeople_service.get_username_by_id]. *)
  get_username_by_id : string → result (option string);
  (** [proposal_service.generate_data_session_for_proposal]: a pure
      function of the proposal id. *)
  generate_data_session_for_proposal : pyval → string;
  (** [proposal_service.fetch_proposals_for_cycle]: the proposal ids
      associated with a cycle, from the store or from the remote system. *)
  fetch_proposals_for_cycle : State → string → result (list pyval);
  (** Modelled from the spec: the list of proposals currently allocated to
      a cycle in the remote system.  [sync_service] asks [pass_service] for
      [get_proposals_allocated_by_cycle], which [pass_service] does not
      define; this field is the value such a function would return. *)
  get_proposals_allocated_by_cycle : string → result (list PassAllocation);
}.

(** ** beanie: queries and updates on a collection *)

Module Beanie.
Section Collection.
Context {D : Type}.

(** [$addToSet]: the value is appended unless the array has it. *)
Definition AddToSet `{EqDecision V} (v : V) (l : list V) : list V :=
  if bool_decide (v ∈ l) then l else l ++ [v].

(** [find_one(P)]: the first matching document and its position. *)
Definition find_one (P : D → Prop) `{∀ d, Decision (P d)} (coll : list D)
  : option (nat * D) :=
  list_find P coll.

(** The position [find_one(P).upsert(..)] writes to. *)
Definition upsert_index (P : D → Prop) `{∀ d, Decision (P d)} (coll : list D) : nat :=
  match find_one P coll with
  | Some (i, _) => i
  | None => length coll
  end.

(** [find_one(P).upsert(Set(..), on_insert=doc)]: the first matching
    document is updated in place; without a match [doc] is inserted. *)
Definition upsert (P : D → Prop) `{∀ d, Decision (P d)}
    (set : D → D) (on_insert : D) (coll : list D) : list D :=
  match find_one P coll with
  | Some (i, _) => alter set i coll
  | None => coll ++ [on_insert]
  end.

(** [doc.update(op)] on the document with [_id = i]. *)
Definition update (i : nat) (op : D → D) (coll : list D) : list D :=
  alter op i coll.

(** [doc.save()]: the stored document is replaced by the local copy
    (inserted if the collection has no document with that [_id]). *)
Definition save (i : nat) (local : D) (coll : list D) : list D :=
  if bool_decide (i < length coll)%nat then <[i:=local]> coll else coll ++ [local].
End Collection.
End Beanie.

(** Reading and writing the collections of the state. *)
Definition get_state : M State := λ s, (Ok s, s).

Definition put_cycles (c : list Cycle.t) : M unit :=
  λ s, (Ok tt,
        {| db_cycles := c; db_proposals := db_proposals s;
           db_proposal_types := db_proposal_types s;
           clock := clock s; logs := logs s |}).

Definition put_proposals (p : list Proposal.t) : M unit :=
  λ s, (Ok tt,
        {| db_cycles := db_cycles s; db_proposals := p;
           db_proposal_types := db_proposal_types s;
           clock := clock s; logs := logs s |}).

Definition put_proposal_types (t : list ProposalType.t) : M unit :=
  λ s, (Ok tt,
        {| db_cycles := db_cycles s; db_proposals := db_proposals s;
           db_proposal_types := t;
           clock := clock s; logs := logs s |}).

(** A document held by the program: its [_id] and the local copy. *)
Record handle (D : Type) := Handle { doc_id : nat; doc : D }.
Arguments Handle {D} doc_id doc.
Arguments doc_id {D} h.
Arguments doc {D} h.

(** ** pass_service.py *)

Module pass_service.
(** The names bound at module level. *)
Definition names : list string :=
  [ "ValidationError"; "config"; "logger"; "_call_async_webservice";
    "PassCycle"; "PassProposal"; "PassProposalType";
    "settings"; "api_key"; "base_url";
    "get_proposal"; "get_proposal_types"; "get_saf_from_proposal";
    "get_commissioning_proposals_by_year"; "get_pass_resources";
    "get_cycles"; "get_proposals_allocated"; "get_proposals_by_person" ].

(** [pass_service.<name>]: [v] is what the name is bound to when the
    module binds it. *)
Definition getattr {A} (name : string) (v : A) : result A :=
  if bool_decide (name ∈ names) then Ok v
  else Err (Raise AttributeErrorC
              ("module 'nsls2api.services.pass_service' has no attribute '" +:+ name +:+ "'")).

(** Calling a coroutine function declared with [params] positional
    parameters on [nargs] positional arguments. *)
Definition call {A} (fname : string) (params nargs : nat) (body : M A) : M A :=
  if bool_decide (nargs ≤ params)%nat then
    if bool_decide (nargs = params) then body
    else raise (Raise TypeErrorC (fname +:+ "() missing required positional arguments"))
  else
    raise (Raise TypeErrorC
             (fname +:+ "() takes " +:+ pretty params +:+
              " positional arguments but " +:+ pretty nargs +:+ " were given")).

Section Functions.
Variable env : Env.

(** The error of a call with a double-star argument that is not a mapping. *)
Definition not_a_mapping (type : string) : exn :=
  Raise TypeErrorC ("argument after ** must be a mapping, not " +:+ type).

(** The [ValidationError] for an object written for another model. *)
Definition rejected_by (model : string) : exn :=
  Raise ValidationErrorC ("validation errors for " +:+ model).

(** Line 18: [PassProposal] built from the keys of [raw_proposal]. *)
Definition validate_proposal (r : raw) : result PassProposal :=
  match r with
  | RawObject (ObjProposal p) => Ok p
  | RawObject (ObjInvalid d) => Err (Raise ValidationErrorC d)
  | RawObject _ => Err (rejected_by "PassProposal")
  | RawNull => Err (not_a_mapping "NoneType")
  | RawArray _ => Err (not_a_mapping "list")
  end.

Definition get_proposal (proposal_id : pyval) : M (option PassProposal) :=
  let url := base_url env +:+ "/Proposal/GetProposal/" +:+ api_key env +:+
             "/NSLS-II/" +:+ py_str proposal_id in
  try_except
    (raw_proposal ← lift (_call_async_webservice env url);
     proposal ← lift (validate_proposal raw_proposal);
     mret (Some proposal))
    [ (Ok ValidationErrorC,
       λ e, logger ERROR ("Error validating data recevied from PASS for proposal: " +:+ exn_msg e);;
            mret None);
      (Ok ExceptionC,
       λ e, logger ERROR ("Error retrieving proposal from PASS: " +:+ exn_msg e);;
            mret None) ].

(** Line 38: [PassProposalType] built from the keys of an element of the
    response. *)
Definition validate_proposal_type (x : element) : result PassProposalType :=
  match x with
  | Dict (ObjProposalType t) => Ok t
  | Dict (ObjInvalid d) => Err (Raise ValidationErrorC d)
  | Dict _ => Err (rejected_by "PassProposalType")
  | Key => Err (not_a_mapping "str")
  end.

(** Lines 36-38: the loop that validates the elements one by one. *)
Fixpoint append_proposal_types (elements : list element)
    (proposal_types : list PassProposalType) : result (list PassProposalType) :=
  match elements with
  | [] => Ok proposal_types
  | proposal_type :: rest =>
      match validate_proposal_type proposal_type with
      | Ok t => append_proposal_types rest (proposal_types ++ [t])
      | Err e => Err e
      end
  end.

(** Lines 35-38: a response that is false ([None] or an empty array)
    leaves the list empty; any other is iterated over. *)
Definition validate_proposal_types (r : raw) : result (list PassProposalType) :=
  match r with
  | RawNull | RawArray [] => Ok []
  | _ =>
      match iterate r with
      | Ok elements => append_proposal_types elements []
      | Err e => Err e
      end
  end.

Definition get_proposal_types : M (option (list PassProposalType)) :=
  let url := base_url env +:+ "/Proposal/GetProposalTypes/" +:+ api_key env +:+ "/NSLS-II" in
  try_except
    (raw_proposal_types ← lift (_call_async_webservice env url);
     proposal_types ← lift (validate_proposal_types raw_proposal_types);
     mret (Some proposal_types))
    [ (Ok ValidationErrorC,
       λ e, logger ERROR ("Error validating data recevied from PASS for proposal types: " +:+ exn_msg e);;
            mret None);
      (Ok ExceptionC,
       λ e, logger ERROR ("Error retrieving proposal types from PASS: " +:+ exn_msg e);;
            mret None) ].

Definition get_saf_from_proposal (proposal_id : pyval) : M raw :=
  let url := base_url env +:+ "/SAF/GetSAFsByProposal/" +:+ api_key env +:+
             "/NSLS-II/" +:+ py_str proposal_id in
  lift (_call_async_webservice env url).

Definition get_commissioning_proposals_by_year (year : Z) : M raw :=
  let url := base_url env +:+ "Proposal/GetProposalsByType/" +:+ api_key env +:+
             "/NSLS-II/" +:+ pretty year +:+ "/300005/NULL" in
  lift (_call_async_webservice env url).

(** Line 74: [PassCycle] built from the keys of [cycles]: one record from
    one object; an array is not a mapping. *)
Definition validate_cycle (r : raw) : result PassCycle :=
  match r with
  | RawObject (ObjCycle c) => Ok c
  | RawObject (ObjInvalid d) => Err (Raise ValidationErrorC d)
  | RawObject _ => Err (rejected_by "PassCycle")
  | RawNull => Err (not_a_mapping "NoneType")
  | RawArray _ => Err (not_a_mapping "list")
  end.

Definition get_cycles : M PassCycle :=
  let url := base_url env +:+ "/Proposal/GetCycles/" +:+ api_key env +:+ "/NSLS-II" in
  cycles ← lift (_call_async_webservice env url);
  lift (validate_cycle cycles).

Definition get_pass_resources : M raw :=
  let url := base_url env +:+ "/Resource/GetResources/" +:+ api_key env +:+ "/NSLS-II" in
  lift (_call_async_webservice env url).

Definition get_proposals_allocated : M raw :=
  let url := base_url env +:+ "/Proposal/GetProposalsAllocated/" +:+ api_key env +:+
             "/NSLS-II" in
  lift (_call_async_webservice env url).

Definition get_proposals_by_person (bnl_id : string) : M raw :=
  let url := base_url env +:+ "/Proposal/GetProposalsByPerson/" +:+ api_key env +:+
             "/NSLS-II/null/null/" +:+ bnl_id +:+ "/null" in
  lift (_call_async_webservice env url).
End Functions.
End pass_service.

(** ** sync_service.py *)

Module sync_service.
Import Beanie.

(** [Set({..})] of the cycle upsert: eight fields, [name] and [proposals]
    are not among them. *)
Definition Set_cycle (c : Cycle.t) (t : Z) (d : Cycle.t) : Cycle.t :=
  {| Cycle.name := Cycle.name d;
     Cycle.accepting_proposals := Cycle.accepting_proposals c;
     Cycle.facility := Cycle.facility c;
     Cycle.year := Cycle.year c;
     Cycle.start_date := Cycle.start_date c;
     Cycle.end_date := Cycle.end_date c;
     Cycle.pass_description := Cycle.pass_description c;
     Cycle.pass_id := Cycle.pass_id c;
     Cycle.proposals := Cycle.proposals d;
     Cycle.last_updated := Some t |}.

(** [AddToSet({Cycle.proposals: v})] *)
Definition AddToSet_cycle_proposals (v : string) (d : Cycle.t) : Cycle.t :=
  {| Cycle.name := Cycle.name d;
     Cycle.accepting_proposals := Cycle.accepting_proposals d;
     Cycle.facility := Cycle.facility d;
     Cycle.year := Cycle.year d;
     Cycle.start_date := Cycle.start_date d;
     Cycle.end_date := Cycle.end_date d;
     Cycle.pass_description := Cycle.pass_description d;
     Cycle.pass_id := Cycle.pass_id d;
     Cycle.proposals := AddToSet v (Cycle.proposals d);
     Cycle.last_updated := Cycle.last_updated d |}.

(** [cycle.last_updated = t] on the local copy. *)
Definition cycle_touch (t : Z) (d : Cycle.t) : Cycle.t :=
  {| Cycle.name := Cycle.name d;
     Cycle.accepting_proposals := Cycle.accepting_proposals d;
     Cycle.facility := Cycle.facility d;
     Cycle.year := Cycle.year d;
     Cycle.start_date := Cycle.start_date d;
     Cycle.end_date := Cycle.end_date d;
     Cycle.pass_description := Cycle.pass_description d;
     Cycle.pass_id := Cycle.pass_id d;
     Cycle.proposals := Cycle.proposals d;
     Cycle.last_updated := Some t |}.

(** [Set({..})] of the proposal-type upsert. *)
Definition Set_proposal_type (p : PassProposalType) (fid : string) (t : Z)
    (d : ProposalType.t) : ProposalType.t :=
  {| ProposalType.code := pt_Code p;
     ProposalType.facility_id := fid;
     ProposalType.pass_id := ProposalType.pass_id d;
     ProposalType.description := pt_Description p;
     ProposalType.pass_description := pt_Description p;
     ProposalType.last_updated := Some t |}.

(** [Set({..})] of the proposal upsert: title, data_session,
    pass_type_id, type, instruments, safs, users and last_updated. *)
Definition Set_proposal (title data_session pass_type_id type : string)
    (instruments : list string) (safs : list SafetyForm.t) (users : list User.t)
    (t : Z) (d : Proposal.t) : Proposal.t :=
  {| Proposal.proposal_id := Proposal.proposal_id d;
     Proposal.title := title;
     Proposal.data_session := data_session;
     Proposal.pass_type_id := pass_type_id;
     Proposal.type := type;
     Proposal.instruments := instruments;
     Proposal.safs := safs;
     Proposal.users := users;
     Proposal.cycles := Proposal.cycles d;
     Proposal.last_updated := Some t |}.

(** [AddToSet({Proposal.cycles: v})] *)
Definition AddToSet_proposal_cycles (v : string) (d : Proposal.t) : Proposal.t :=
  {| Proposal.proposal_id := Proposal.proposal_id d;
     Proposal.title := Proposal.title d;
     Proposal.data_session := Proposal.data_session d;
     Proposal.pass_type_id := Proposal.pass_type_id d;
     Proposal.type := Proposal.type d;
     Proposal.instruments := Proposal.instruments d;
     Proposal.safs := Proposal.safs d;
     Proposal.users := Proposal.users d;
     Proposal.cycles := AddToSet v (Proposal.cycles d);
     Proposal.last_updated := Proposal.last_updated d |}.

(** [proposal.last_updated = t] on the local copy. *)
Definition proposal_touch (t : Z) (d : Proposal.t) : Proposal.t :=
  {| Proposal.proposal_id := Proposal.proposal_id d;
     Proposal.title := Proposal.title d;
     Proposal.data_session := Proposal.data_session d;
     Proposal.pass_type_id := Proposal.pass_type_id d;
     Proposal.type := Proposal.type d;
     Proposal.instruments := Proposal.instruments d;
     Proposal.safs := Proposal.safs d;
     Proposal.users := Proposal.users d;
     Proposal.cycles := Proposal.cycles d;
     Proposal.last_updated := Some t |}.

(** [doc.update(op)]: the stored document is updated and the local copy
    is refreshed from it. *)
Definition cycle_update (h : handle Cycle.t) (op : Cycle.t → Cycle.t) : M (handle Cycle.t) :=
  s ← get_state;
  let coll := update (doc_id h) op (db_cycles s) in
  put_cycles coll;;
  match coll !! doc_id h with
  | Some d => mret (Handle (doc_id h) d)
  | None => raise (none_has_no_attribute "model_dump")
  end.

Definition cycle_save (h : handle Cycle.t) : M unit :=
  s ← get_state;
  put_cycles (save (doc_id h) (doc h) (db_cycles s)).

Definition proposal_update (h : handle Proposal.t) (op : Proposal.t → Proposal.t)
  : M (handle Proposal.t) :=
  s ← get_state;
  let coll := update (doc_id h) op (db_proposals s) in
  put_proposals coll;;
  match coll !! doc_id h with
  | Some d => mret (Handle (doc_id h) d)
  | None => raise (none_has_no_attribute "model_dump")
  end.

Definition proposal_save (h : handle Proposal.t) : M unit :=
  s ← get_state;
  put_proposals (save (doc_id h) (doc h) (db_proposals s)).

Section Workers.
Variable env : Env.

(** Lines 74-79: each allocated proposal is added to the proposal set
    of the cycle, and the cycle is saved. *)
Fixpoint add_allocated_proposals (updated_cycle : handle Cycle.t)
    (proposals_list : list PassAllocation) : M unit :=
  match proposals_list with
  | [] => mret tt
  | proposal :: rest =>
      h ← cycle_update updated_cycle
            (AddToSet_cycle_proposals (pretty (alloc_Proposal_ID proposal)));
      t ← now;
      let h' := Handle (doc_id h) (cycle_touch t (doc h)) in
      cycle_save h';;
      add_allocated_proposals h' rest
  end.

(** Lines 38-79: the body of the loop over the remote cycles; the
    facility it resolved stays bound after the loop. *)
Definition synchronize_cycle (pass_cycle : PassCycle) : M Facility.t :=
  found ← lift (facility_by_pass_id env (cyc_User_Facility_ID pass_cycle));
  facility ← match found with
             | Some f => mret f
             | None => raise (none_has_no_attribute "name")
             end;
  logger INFO ("Synchronizing cycle: " +:+ cyc_Name pass_cycle +:+ " for " +:+
               Facility.name facility +:+ ".");;
  let cycle :=
    {| Cycle.name := cyc_Name pass_cycle;
       Cycle.accepting_proposals := cyc_Active pass_cycle;
       Cycle.facility := Facility.facility_id facility;
       Cycle.year := pretty (cyc_Year pass_cycle);
       Cycle.start_date := cyc_Start_Date pass_cycle;
       Cycle.end_date := cyc_End_Date pass_cycle;
       Cycle.pass_description := cyc_Description pass_cycle;
       Cycle.pass_id := pretty (cyc_ID pass_cycle);
       Cycle.proposals := [];
       Cycle.last_updated := None |} in
  t ← now;
  s ← get_state;
  let P := λ d, Cycle.name d = cyc_Name pass_cycle in
  let i := upsert_index P (db_cycles s) in
  let coll := upsert P (Set_cycle cycle t) cycle (db_cycles s) in
  put_cycles coll;;
  updated_cycle ← match coll !! i with
                  | Some d => mret (Handle i d)
                  | None => raise (none_has_no_attribute "update")
                  end;
  fetch ← lift (pass_service.getattr "get_proposals_allocated_by_cycle"
                  (get_proposals_allocated_by_cycle env));
  proposals_list ← lift (fetch (Cycle.name cycle));
  add_allocated_proposals updated_cycle proposals_list;;
  mret facility.

Fixpoint synchronize_cycles (pass_cycles : list PassCycle) (facility : option Facility.t)
  : M (option Facility.t) :=
  match pass_cycles with
  | [] => mret facility
  | pass_cycle :: rest =>
      f ← synchronize_cycle pass_cycle;
      synchronize_cycles rest (Some f)
  end.

(** Line 37, [for pass_cycle in pass_cycles], where [pass_cycles] is the
    one [PassCycle] that [get_cycles] returns: a pydantic model iterates as
    its (field name, value) pairs, and the first line of the body reads
    [pass_cycle.User_Facility_ID], which a pair does not have. *)
Definition iterate_cycle (pass_cycles : PassCycle) : result (list PassCycle) :=
  Err (Raise AttributeErrorC "'tuple' object has no attribute 'User_Facility_ID'").

Definition worker_synchronize_cycles_from_pass (facility_name : string) : M unit :=
  start_time ← now;
  fetched ←
    try_except
      (pass_service.call "get_cycles" 0 1 (pass_service.get_cycles env))
      [ (pass_service.getattr "PassException" PassExceptionC,
         λ error,
           let error_message :=
             "Error retrieving cycle information from PASS for " +:+ facility_name +:+
             " facility." in
           logger ERROR error_message;;
           raise (Raise ExceptionC error_message)) ];
  pass_cycles ← lift (iterate_cycle fetched);
  facility ← synchronize_cycles pass_cycles None;
  end_time ← now;
  match facility with
  | Some f =>
      logger INFO ("Cycle information (for " +:+ Facility.name f +:+ ") synchronized in " +:+
                   pretty (end_time - start_time) +:+ " seconds")
  | None => raise (unbound_local "facility")
  end.

(** Lines 104-130: the body of the loop over the remote proposal types. *)
Definition synchronize_proposal_type (pass_proposal_type : PassProposalType) : M Facility.t :=
  found ← lift (facility_by_pass_id env (pt_User_Facility_ID pass_proposal_type));
  facility ← match found with
             | Some f => mret f
             | None => raise (none_has_no_attribute "facility_id")
             end;
  let proposal_type :=
    {| ProposalType.code := pt_Code pass_proposal_type;
       ProposalType.facility_id := Facility.facility_id facility;
       ProposalType.pass_id := pretty (pt_ID pass_proposal_type);
       ProposalType.description := pt_Description pass_proposal_type;
       ProposalType.pass_description := pt_Description pass_proposal_type;
       ProposalType.last_updated := None |} in
  t ← now;
  s ← get_state;
  put_proposal_types
    (upsert (λ d, ProposalType.pass_id d = pretty (pt_ID pass_proposal_type))
       (Set_proposal_type pass_proposal_type (Facility.facility_id facility) t)
       proposal_type (db_proposal_types s));;
  mret facility.

Fixpoint synchronize_proposal_types (pass_proposal_types : list PassProposalType)
    (facility : option Facility.t) : M (option Facility.t) :=
  match pass_proposal_types with
  | [] => mret facility
  | pass_proposal_type :: rest =>
      f ← synchronize_proposal_type pass_proposal_type;
      synchronize_proposal_types rest (Some f)
  end.

Definition worker_synchronize_proposal_types_from_pass (facility_name : string) : M unit :=
  start_time ← now;
  fetched ←
    try_except
      (pass_service.call "get_proposal_types" 0 1 (pass_service.get_proposal_types env))
      [ (pass_service.getattr "PassException" PassExceptionC,
         λ error,
           let error_message :=
             "Error retrieving proposal types from PASS for " +:+ facility_name +:+
             " facility." in
           logger ERROR error_message;;
           raise (Raise ExceptionC error_message)) ];
  pass_proposal_types ← match fetched with
                        | Some l => mret l
                        | None => raise none_not_iterable
                        end;
  facility ← synchronize_proposal_types pass_proposal_types None;
  end_time ← now;
  match facility with
  | Some f =>
      logger DEBUG "Response: UpdateResult";;
      logger INFO ("Proposal type information (for " +:+ Facility.name f +:+
                   ") synchronized in " +:+ pretty (end_time - start_time) +:+ " seconds")
  | None => raise (unbound_local "response")
  end.

(** Lines 155-158 and 167-170: the names of the beamlines the resources
    resolve to; a resource without a beamline adds nothing. *)
Fixpoint resolve_beamlines (resources : list PassResource) (acc : list string)
  : M (list string) :=
  match resources with
  | [] => mret acc
  | resource :: rest =>
      beamline ← lift (beamline_by_pass_id env (ID resource));
      match beamline with
      | Some b => resolve_beamlines rest (acc ++ [Beamline.name b])
      | None => resolve_beamlines rest acc
      end
  end.

(** Lines 153-164.  [pass_saf_list] is what [get_saf_from_proposal]
    returned, the decoded response: the code annotates it as a list of
    [PassSaf] but builds no [PassSaf] from it, so [saf] is an element of
    the response and [saf.Resources] is an attribute access on it. *)
Fixpoint build_saf_list (pass_saf_list : list element) (saf_list : list SafetyForm.t)
  : M (list SafetyForm.t) :=
  match pass_saf_list with
  | [] => mret saf_list
  | saf :: rest =>
      resources ← lift (attribute saf "Resources");
      saf_beamline_list ← resolve_beamlines resources [];
      saf_id ← lift (attribute (A:=Z) saf "SAF_ID");
      status ← lift (attribute saf "Status");
      build_saf_list rest
        (saf_list ++ [SafetyForm.mk (pretty saf_id) status saf_beamline_list])
  end.

(** Lines 175-201: the loop over the experimenters, with its two
    accumulators [user_list] and [pi_found_in_experimenters]. *)
Fixpoint experimenters_loop (proposal_id : pyval) (pi : option PassPerson)
    (experimenters : list PassPerson) (user_list : list User.t)
    (pi_found_in_experimenters : bool) : M (list User.t * bool) :=
  match experimenters with
  | [] => mret (user_list, pi_found_in_experimenters)
  | user :: rest =>
      match pi with
      | None =>
          logger WARNING ("Proposal " +:+ py_str proposal_id +:+ " does not have a PI.");;
          experimenters_loop proposal_id pi rest user_list pi_found_in_experimenters
      | Some p =>
          let user_is_pi := bool_decide (casefold (BNL_ID p) = casefold (BNL_ID user)) in
          let pi_found := if user_is_pi then true else pi_found_in_experimenters in
          bnl_username ←
            try_except
              (lift (get_username_by_id env (BNL_ID user)))
              [ (Ok HTTPStatusErrorC,
                 λ error,
                   logger ERROR ("Could not find BNL username for BNL ID '" +:+
                                 BNL_ID user +:+ "'.");;
                   logger ERROR ("BNL People API returned: " +:+ exn_msg error);;
                   mret None) ];
          let userinfo :=
            User.mk (First_Name user) (Last_Name user) (Email user) (BNL_ID user)
              bnl_username user_is_pi in
          experimenters_loop proposal_id pi rest (user_list ++ [userinfo]) pi_found
      end
  end.

(** Lines 205-217: the PI is added when no experimenter was the PI. *)
Definition add_pi (pi : option PassPerson) (user_list : list User.t)
    (pi_found_in_experimenters : bool) : M (list User.t) :=
  match pi with
  | Some p =>
      if negb pi_found_in_experimenters then
        bnl_username ← lift (get_username_by_id env (BNL_ID p));
        let pi_info :=
          User.mk (First_Name p) (Last_Name p) (Email p) (BNL_ID p) bnl_username true in
        mret (user_list ++ [pi_info])
      else mret user_list
  | None => mret user_list
  end.

(** Lines 172-217. *)
Definition build_user_list (proposal_id : pyval) (pass_proposal : PassProposal)
  : M (list User.t) :=
  r ← experimenters_loop proposal_id (PI pass_proposal) (Experimenters pass_proposal) [] false;
  add_pi (PI pass_proposal) r.1 r.2.

(** The local variables alive at line 219. *)
Record reconciled := Reconciled {
  pass_proposal : PassProposal;
  saf_list : list SafetyForm.t;
  beamline_list : list string;
  user_list : list User.t;
}.

(** Lines 140-217: the remote record, its safety forms, its beamlines
    and its users. *)
Definition reconcile_proposal (proposal_id : pyval) : M reconciled :=
  fetched ←
    try_except
      (pass_service.get_proposal env proposal_id)
      [ (pass_service.getattr "PassException" PassExceptionC,
         λ error,
           let error_message :=
             "Error retrieving proposal " +:+ py_str proposal_id +:+ " from PASS" in
           logger ERROR error_message;;
           raise (Raise ExceptionC error_message)) ];
  response ← pass_service.get_saf_from_proposal env proposal_id;
  pass_saf_list ← lift (iterate response);
  saf_list ← build_saf_list pass_saf_list [];
  pass_proposal ← match fetched with
                  | Some p => mret p
                  | None => raise (none_has_no_attribute "Resources")
                  end;
  beamline_list ← resolve_beamlines (Resources pass_proposal) [];
  user_list ← build_user_list proposal_id pass_proposal;
  mret (Reconciled pass_proposal saf_list beamline_list user_list).

(** Lines 219-249: the data session, the document to insert and the
    upsert keyed by the proposal id. *)
Definition upsert_proposal (proposal_id : pyval) (r : reconciled) : M unit :=
  let data_session := generate_data_session_for_proposal env proposal_id in
  t0 ← now;
  let proposal :=
    {| Proposal.proposal_id := pretty (Proposal_ID (pass_proposal r));
       Proposal.title := Title (pass_proposal r);
       Proposal.data_session := data_session;
       Proposal.pass_type_id := pretty (Proposal_Type_ID (pass_proposal r));
       Proposal.type := Proposal_Type_Description (pass_proposal r);
       Proposal.instruments := beamline_list r;
       Proposal.safs := saf_list r;
       Proposal.users := user_list r;
       Proposal.cycles := [];
       Proposal.last_updated := Some t0 |} in
  t ← now;
  s ← get_state;
  put_proposals
    (upsert (λ d, Proposal.proposal_id d = py_str proposal_id)
       (Set_proposal (Title (pass_proposal r)) data_session
          (pretty (Proposal_Type_ID (pass_proposal r)))
          (Proposal_Type_Description (pass_proposal r))
          (beamline_list r) (saf_list r) (user_list r) t)
       proposal (db_proposals s));;
  logger DEBUG "Response: UpdateResult".

Definition synchronize_proposal_from_pass (proposal_id : pyval) : M unit :=
  r ← reconcile_proposal proposal_id;
  upsert_proposal proposal_id r.

(** Modelled from the spec: [proposal_service.proposal_by_id] looks up
    the local proposal with that id; a missing proposal is a
    [LookupError], which is what the caller catches. *)
Definition proposal_by_id (proposal_id : Z) : M (handle Proposal.t) :=
  s ← get_state;
  match find_one (λ d, Proposal.proposal_id d = pretty proposal_id) (db_proposals s) with
  | Some (i, d) => mret (Handle i d)
  | None =>
      raise (Raise LookupErrorC
               ("Could not find a proposal with an ID of " +:+ pretty proposal_id))
  end.

(** Lines 267-273: one round of the loop over the proposal ids. *)
Definition link_proposal (cycle_name : string) (proposal_id : pyval) : M unit :=
  try_except
    (n ← lift (py_int proposal_id);
     proposal ← proposal_by_id n;
     h ← proposal_update proposal (AddToSet_proposal_cycles cycle_name);
     t ← now;
     proposal_save (Handle (doc_id h) (proposal_touch t (doc h))))
    [ (Ok LookupErrorC, λ error, logger WARNING (exn_msg error)) ].

Definition update_proposals_with_cycle (cycle_name : string) : M unit :=
  s ← get_state;
  proposal_list ← lift (fetch_proposals_for_cycle env s cycle_name);
  logger INFO ("Found " +:+ pretty (length proposal_list) +:+ " proposals for cycle " +:+
               cycle_name +:+ ".");;
  for_each proposal_list (link_proposal cycle_name).

Definition worker_synchronize_proposal_from_pass (proposal_id : pyval) : M unit :=
  start_time ← now;
  synchronize_proposal_from_pass proposal_id;;
  end_time ← now;
  logger INFO ("Proposal " +:+ py_str proposal_id +:+ " synchronized in " +:+
               pretty (end_time - start_time) +:+ " seconds").

(** Lines 287-315.  The commissioning proposals are the decoded response
    of [get_commissioning_proposals_by_year], which builds no
    [PassProposal] from it: [proposal.Proposal_ID] is an attribute access
    on an element of the response. *)
Definition worker_synchronize_proposals_for_cycle_from_pass (cycle : string) : M unit :=
  start_time ← now;
  year ← lift (cycle_year env cycle);
  s ← get_state;
  proposals ← lift (fetch_proposals_for_cycle env s cycle);
  logger INFO ("Synchronizing " +:+ pretty (length proposals) +:+ " proposals for " +:+
               cycle +:+ " cycle.");;
  for_each proposals
    (λ proposal_id,
       logger INFO ("Synchronizing proposal " +:+ py_str proposal_id +:+ ".");;
       synchronize_proposal_from_pass proposal_id);;
  response ← pass_service.get_commissioning_proposals_by_year env year;
  logger INFO ("Synchronizing " +:+ pretty (length proposals) +:+
               " commissioning proposals for the year " +:+ pretty year +:+ ".");;
  commissioning_proposals ← lift (iterate response);
  for_each commissioning_proposals
    (λ proposal,
       logged_id ← lift (attribute (A:=Z) proposal "Proposal_ID");
       logger INFO ("Synchronizing commissioning proposal " +:+ pretty logged_id +:+ ".");;
       proposal_id ← lift (attribute (A:=Z) proposal "Proposal_ID");
       synchronize_proposal_from_pass (PInt proposal_id));;
  update_proposals_with_cycle cycle;;
  end_time ← now;
  logger INFO ("Proposals for the " +:+ cycle +:+ " cycle synchronized in " +:+
               pretty (end_time - start_time) +:+ " seconds").
End Workers.
End sync_service.

(** ** Specification vocabulary *)

Import sync_service.

(** The three collections are the same in both states (the clock and the
    log may differ). *)
Definition store_eq (s s' : State) : Prop :=
  db_cycles s' = db_cycles s ∧ db_proposals s' = db_proposals s ∧
  db_proposal_types s' = db_proposal_types s.

(** [coll_le R c c']: every document of [c] is still in [c'], under the
    same [_id], and related by [R] to what it was. *)
Definition coll_le {D} (R : relation D) (c c' : list D) : Prop :=
  ∀ i d, c !! i = Some d → ∃ d', c' !! i = Some d' ∧ R d d'.

Definition cycle_le (d d' : Cycle.t) : Prop :=
  Cycle.name d' = Cycle.name d ∧ Cycle.proposals d ⊆ Cycle.proposals d'.

Definition proposal_le (d d' : Proposal.t) : Prop :=
  Proposal.proposal_id d' = Proposal.proposal_id d ∧ Proposal.cycles d ⊆ Proposal.cycles d'.

(** No cycle and no proposal is lost, and no entry leaves [Cycle.proposals]
    or [Proposal.cycles]. *)
Definition grows (s s' : State) : Prop :=
  coll_le cycle_le (db_cycles s) (db_cycles s') ∧
  coll_le proposal_le (db_proposals s) (db_proposals s').

(** Whatever the outcome of [m], the final state is [R]-related to the
    initial one. *)
Definition preserves (R : relation State) {A} (m : M A) : Prop :=
  ∀ s, R s (m s).2.

(** The number of entries of a user list flagged as PI. *)
Definition count_pi (l : list User.t) : nat :=
  length (filter (λ u, User.is_pi u = true) l).

(** The number of experimenters whose id is the PI's, up to case. *)
Definition pi_matches (p : PassPerson) (l : list PassPerson) : nat :=
  length (filter (λ u, casefold (BNL_ID p) = casefold (BNL_ID u)) l).

(** The names of the beamlines that the resources resolve to, in order;
    a resource without a local beamline contributes nothing. *)
Definition resolved_names (env : Env) (resources : list PassResource) : list string :=
  omap (λ r, match beamline_by_pass_id env (ID r) with
             | Ok (Some b) => Some (Beamline.name b)
             | _ => None
             end) resources.

(** The URLs the engine asks PASS for. *)
Definition proposal_url (env : Env) (proposal_id : pyval) : string :=
  base_url env +:+ "/Proposal/GetProposal/" +:+ api_key env +:+ "/NSLS-II/" +:+
  py_str proposal_id.

Definition saf_url (env : Env) (proposal_id : pyval) : string :=
  base_url env +:+ "/SAF/GetSAFsByProposal/" +:+ api_key env +:+ "/NSLS-II/" +:+
  py_str proposal_id.

(** The position of the proposal document that a reconciliation of
    [proposal_id] writes. *)
Definition proposal_index (proposal_id : pyval) (s : State) : nat :=
  Beanie.upsert_index (λ d, Proposal.proposal_id d = py_str proposal_id) (db_proposals s).

(** The local proposal with id [n], if any. *)
Definition local_proposal (n : Z) (s : State) : option (nat * Proposal.t) :=
  Beanie.find_one (λ d, Proposal.proposal_id d = pretty n) (db_proposals s).

(** The warning the linker logs for a proposal id without a local
    proposal. *)
Definition missing_proposal_warning (n : Z) : log_level * string :=
  (WARNING, "Could not find a proposal with an ID of " +:+ pretty n).

(** What linking does to the state: the proposals stay where they are, none
    is added, none loses an entry of [cycles], and the log is only added
    to. *)
Definition relinked (s s' : State) : Prop :=
  length (db_proposals s') = length (db_proposals s) ∧
  coll_le proposal_le (db_proposals s) (db_proposals s') ∧
  logs s ⊆ logs s'.

(** The steps of the engine that write the store: the workers, and the two
    loops over remote cycles and their allocations. *)
Inductive step :=
| SynchronizeCycles (facility_name : string)
| SynchronizeProposalTypes (facility_name : string)
| SynchronizeProposal (proposal_id : pyval)
| SynchronizeProposalsForCycle (cycle : string)
| UpdateProposalsWithCycle (cycle_name : string)
| CyclesLoop (pass_cycles : list PassCycle)
| ProposalTypesLoop (pass_proposal_types : list PassProposalType)
| AllocationLoop (updated_cycle : handle Cycle.t) (proposals_list : list PassAllocation).

Definition run_step (env : Env) (st : step) : M unit :=
  match st with
  | SynchronizeCycles f => worker_synchronize_cycles_from_pass env f
  | SynchronizeProposalTypes f => worker_synchronize_proposal_types_from_pass env f
  | SynchronizeProposal p => worker_synchronize_proposal_from_pass env p
  | SynchronizeProposalsForCycle c => worker_synchronize_proposals_for_cycle_from_pass env c
  | UpdateProposalsWithCycle c => update_proposals_with_cycle env c
  | CyclesLoop l => synchronize_cycles env l None ≫= λ _, mret tt
  | ProposalTypesLoop l => synchronize_proposal_types env l None ≫= λ _, mret tt
  | AllocationLoop h l => add_allocated_proposals h l
  end.

(** A history of sync passes: each step runs against the remote system as
    it is at that moment, whether the previous step succeeded or failed. *)
Fixpoint run_steps (steps : list (Env * step)) (s : State) : State :=
  match steps with
  | [] => s
  | (env, st) :: rest => run_steps rest (run_step env st s).2
  end.

(** ** Fixtures for the examples *)

Module Fixtures.
Definition empty_state : State :=
  {| db_cycles := []; db_proposals := []; db_proposal_types := []; clock := 0; logs := [] |}.

Definition ada : PassPerson :=
  {| First_Name := "Ada"; Last_Name := "Lovelace"; Email := "ada@bnl.gov"; BNL_ID := "B123" |}.

(** Ada again, as PASS lists her with a lower-case id. *)
Definition ada_lower : PassPerson :=
  {| First_Name := "Ada"; Last_Name := "Lovelace"; Email := "ada@bnl.gov"; BNL_ID := "b123" |}.

Definition bob : PassPerson :=
  {| First_Name := "Bob"; Last_Name := "Boyle"; Email := "bob@bnl.gov"; BNL_ID := "B456" |}.

(** Proposal 42 with the given experimenters and PI. *)
Definition proposal42 (experimenters : list PassPerson) (pi : option PassPerson)
  : PassProposal :=
  {| Proposal_ID := 42; Title := "Structure of ice";
     Proposal_Type_ID := 7; Proposal_Type_Description := "General User";
     Resources := [ {| ID := 1 |}; {| ID := 2 |} ];
     Experimenters := experimenters; PI := pi |}.

Definition saf9 : PassSaf :=
  {| SAF_ID := 9; Status := "APPROVED"; saf_Resources := [ {| ID := 2 |}; {| ID := 1 |} ] |}.

Definition http_error : exn := Raise HTTPStatusErrorC "503 Service Unavailable".

(** [remote]: the response to [GetProposal]; [safs]: the response to
    [GetSAFsByProposal]; [lookup]: the BNL-people lookup.  Resource 1 is the
    beamline CHX, resource 2 is unknown; the only known facility has PASS
    id 1. *)
Definition env_with_safs (safs : result raw) (remote : result raw)
    (lookup : string → result (option string)) : Env :=
  {| base_url := "https://pass";
     api_key := "KEY";
     _call_async_webservice := λ url,
       if bool_decide (url = "https://pass/Proposal/GetProposal/KEY/NSLS-II/42") then remote
       else if bool_decide (url = "https://pass/SAF/GetSAFsByProposal/KEY/NSLS-II/42")
            then safs
       else Ok (RawProposals []);
     beamline_by_pass_id := λ i,
       Ok (if bool_decide (i = 1) then Some (Beamline.mk "CHX") else None);
     facility_by_pass_id := λ i,
       Ok (if bool_decide (i = 1) then Some (Facility.mk "NSLS-II" "nsls2") else None);
     cycle_year := λ _, Ok 2024;
     get_username_by_id := lookup;
     generate_data_session_for_proposal := λ v, "pass-" +:+ py_str v;
     fetch_proposals_for_cycle := λ _ _, Ok [PStr "43"; PStr "42"];
     get_proposals_allocated_by_cycle := λ _, Ok [] |}.

(** The same, for a proposal without safety forms. *)
Definition env_with (remote : result raw) (lookup : string → result (option string)) : Env :=
  {| base_url := "https://pass";
     api_key := "KEY";
     _call_async_webservice := λ url,
       if bool_decide (url = "https://pass/Proposal/GetProposal/KEY/NSLS-II/42") then remote
       else if bool_decide (url = "https://pass/SAF/GetSAFsByProposal/KEY/NSLS-II/42")
            then Ok (RawSafs [])
       else Ok (RawProposals []);
     beamline_by_pass_id := λ i,
       Ok (if bool_decide (i = 1) then Some (Beamline.mk "CHX") else None);
     facility_by_pass_id := λ i,
       Ok (if bool_decide (i = 1) then Some (Facility.mk "NSLS-II" "nsls2") else None);
     cycle_year := λ _, Ok 2024;
     get_username_by_id := lookup;
     generate_data_session_for_proposal := λ v, "pass-" +:+ py_str v;
     fetch_proposals_for_cycle := λ _ _, Ok [PStr "43"; PStr "42"];
     get_proposals_allocated_by_cycle := λ _, Ok [] |}.

Definition lookup_ok : string → result (option string) := λ id, Ok (Some ("u" +:+ id)).
Definition lookup_down : string → result (option string) := λ _, Err http_error.

Definition type_unresolvable : PassProposalType :=
  {| pt_ID := 300001; pt_Code := "GU"; pt_Description := "General User";
     pt_User_Facility_ID := 99 |}.

Definition type_resolvable : PassProposalType :=
  {| pt_ID := 300005; pt_Code := "C"; pt_Description := "Commissioning";
     pt_User_Facility_ID := 1 |}.

(** The BNL-people service is up but knows nobody. *)
Definition lookup_unknown : string → result (option string) := λ _, Ok None.

(** The BNL-people client fails before it gets an HTTP status. *)
Definition connect_error : exn := Raise ExceptionC "ConnectError: all connection attempts failed".
Definition lookup_unreachable : string → result (option string) := λ _, Err connect_error.

(** PASS is down: every request fails. *)
Definition env_down : Env :=
  {| base_url := "https://pass";
     api_key := "KEY";
     _call_async_webservice := λ _, Err http_error;
     beamline_by_pass_id := λ _, Ok None;
     facility_by_pass_id := λ _, Ok None;
     cycle_year := λ _, Ok 2024;
     get_username_by_id := lookup_ok;
     generate_data_session_for_proposal := λ v, "pass-" +:+ py_str v;
     fetch_proposals_for_cycle := λ _ _, Ok [PStr "42"];
     get_proposals_allocated_by_cycle := λ _, Ok [] |}.

(** PASS ignores leading zeroes: asked for proposal "042" it sends the
    record of proposal 42. *)
Definition env_padded : Env :=
  {| base_url := "https://pass";
     api_key := "KEY";
     _call_async_webservice := λ url,
       if bool_decide (url = "https://pass/Proposal/GetProposal/KEY/NSLS-II/042")
       then Ok (RawProposal (proposal42 [ada] (Some ada)))
       else Ok (RawSafs []);
     beamline_by_pass_id := λ _, Ok None;
     facility_by_pass_id := λ _, Ok None;
     cycle_year := λ _, Ok 2024;
     get_username_by_id := lookup_ok;
     generate_data_session_for_proposal := λ v, "pass-" +:+ py_str v;
     fetch_proposals_for_cycle := λ _ _, Ok [PStr "042"];
     get_proposals_allocated_by_cycle := λ _, Ok [] |}.

(** A cycle with proposal 42 only, and no commissioning proposals. *)
Definition env_one_proposal : Env :=
  {| base_url := "https://pass";
     api_key := "KEY";
     _call_async_webservice := λ url,
       if bool_decide (url = "https://pass/Proposal/GetProposal/KEY/NSLS-II/42")
       then Ok (RawProposal (proposal42 [ada] (Some ada)))
       else if bool_decide (url = "https://pass/SAF/GetSAFsByProposal/KEY/NSLS-II/42")
            then Ok (RawSafs [])
       else Ok (RawProposals []);
     beamline_by_pass_id := λ i,
       Ok (if bool_decide (i = 1) then Some (Beamline.mk "CHX") else None);
     facility_by_pass_id := λ _, Ok None;
     cycle_year := λ _, Ok 2024;
     get_username_by_id := lookup_ok;
     generate_data_session_for_proposal := λ v, "pass-" +:+ py_str v;
     fetch_proposals_for_cycle := λ _ _, Ok [PStr "42"];
     get_proposals_allocated_by_cycle := λ _, Ok [] |}.

(** A cycle whose list of proposals holds an entry that is not a
    number. *)
Definition env_bad_id : Env :=
  {| base_url := "https://pass";
     api_key := "KEY";
     _call_async_webservice := λ _, Ok RawNull;
     beamline_by_pass_id := λ _, Ok None;
     facility_by_pass_id := λ _, Ok None;
     cycle_year := λ _, Ok 2024;
     get_username_by_id := lookup_ok;
     generate_data_session_for_proposal := λ v, "pass-" +:+ py_str v;
     fetch_proposals_for_cycle := λ _ _, Ok [PStr "43"; PStr "4.2"; PStr "42"];
     get_proposals_allocated_by_cycle := λ _, Ok [] |}.

Definition cycle_2024_1 : PassCycle :=
  {| cyc_ID := 11; cyc_Name := "2024-1"; cyc_Active := true; cyc_User_Facility_ID := 1;
     cyc_Year := 2024; cyc_Start_Date := 100; cyc_End_Date := 200;
     cyc_Description := "Spring 2024" |}.

Definition cycle_unresolvable : PassCycle :=
  {| cyc_ID := 12; cyc_Name := "2024-2"; cyc_Active := false; cyc_User_Facility_ID := 99;
     cyc_Year := 2024; cyc_Start_Date := 200; cyc_End_Date := 300;
     cyc_Description := "Summer 2024" |}.

(** A stored cycle with two allocated proposals. *)
Definition stored_cycle : Cycle.t :=
  Cycle.mk "2023-3" false "nsls2" "2023" 1 2 "Fall 2023" "10" ["41"; "42"] None.
End Fixtures.

(** ** Vocabulary for the further properties *)

(** The username a user entry gets from a lookup that does not abort the
    reconciliation. *)
Definition username_of (env : Env) (bnl_id : string) : option string :=
  match get_username_by_id env bnl_id with
  | Ok r => r
  | Err _ => None
  end.

(** The entry for an experimenter: flagged when the id is the PI's, up to
    case. *)
Definition experimenter_entry (env : Env) (pi u : PassPerson) : User.t :=
  User.mk (First_Name u) (Last_Name u) (Email u) (BNL_ID u) (username_of env (BNL_ID u))
    (bool_decide (casefold (BNL_ID pi) = casefold (BNL_ID u))).

Definition pi_entry (env : Env) (pi : PassPerson) : User.t :=
  User.mk (First_Name pi) (Last_Name pi) (Email pi) (BNL_ID pi) (username_of env (BNL_ID pi))
    true.

(** The user list in one piece: the experimenters in order, then the PI
    unless an experimenter was the PI; nobody when the record has no PI. *)
Definition expected_users (env : Env) (p : PassProposal) : list User.t :=
  match PI p with
  | None => []
  | Some pi =>
      (experimenter_entry env pi <$> Experimenters p) ++
      (if bool_decide (pi_matches pi (Experimenters p) = 0%nat) then [pi_entry env pi] else [])
  end.

(** The first stored proposal with id [k], and its position. *)
Definition find_proposal (k : string) (s : State) : option (nat * Proposal.t) :=
  Beanie.find_one (λ d, Proposal.proposal_id d = k) (db_proposals s).

(** The first stored cycle named [k], and its position. *)
Definition find_cycle (k : string) (s : State) : option (nat * Cycle.t) :=
  Beanie.find_one (λ d, Cycle.name d = k) (db_cycles s).

(** A lookup that the experimenter loop survives: an answer, or an HTTP
    status error. *)
Definition tolerated (r : result (option string)) : bool :=
  match r with
  | Ok _ => true
  | Err e => issubclass (exn_cls e) HTTPStatusErrorC
  end.

(** Two proposal documents that differ at most in [last_updated]. *)
Definition same_but_last_updated (d d' : Proposal.t) : Prop :=
  Proposal.proposal_id d' = Proposal.proposal_id d ∧
  Proposal.title d' = Proposal.title d ∧
  Proposal.data_session d' = Proposal.data_session d ∧
  Proposal.pass_type_id d' = Proposal.pass_type_id d ∧
  Proposal.type d' = Proposal.type d ∧
  Proposal.instruments d' = Proposal.instruments d ∧
  Proposal.safs d' = Proposal.safs d ∧
  Proposal.users d' = Proposal.users d ∧
  Proposal.cycles d' = Proposal.cycles d.

(** Two proposal documents that differ at most in [cycles] and
    [last_updated]. *)
Definition same_reconciled_fields (d d' : Proposal.t) : Prop :=
  Proposal.proposal_id d' = Proposal.proposal_id d ∧
  Proposal.title d' = Proposal.title d ∧
  Proposal.data_session d' = Proposal.data_session d ∧
  Proposal.pass_type_id d' = Proposal.pass_type_id d ∧
  Proposal.type d' = Proposal.type d ∧
  Proposal.instruments d' = Proposal.instruments d ∧
  Proposal.safs d' = Proposal.safs d ∧
  Proposal.users d' = Proposal.users d.

(** The frame of the linker: cycles and proposal types are as they were, no
    proposal is added or removed, and each proposal keeps the fields the
    reconciler owns. *)
Definition linker_frame (s s' : State) : Prop :=
  db_cycles s' = db_cycles s ∧
  db_proposal_types s' = db_proposal_types s ∧
  length (db_proposals s') = length (db_proposals s) ∧
  coll_le same_reconciled_fields (db_proposals s) (db_proposals s').

(** Two proposal documents with the same id and the same cycles. *)
Definition same_membership (d d' : Proposal.t) : Prop :=
  Proposal.proposal_id d' = Proposal.proposal_id d ∧ Proposal.cycles d' = Proposal.cycles d.

(** No cycle document has changed, and every proposal is still there with
    the cycles it had. *)
Definition membership_untouched (s s' : State) : Prop :=
  db_cycles s' = db_cycles s ∧
  coll_le same_membership (db_proposals s) (db_proposals s').

(** [keeps I]: if [I] held before, it holds after. *)
Definition keeps (I : State → Prop) : relation State := λ s s', I s → I s'.

(** Cycle names and proposal-type ids identify a document. *)
Definition unique_keys (s : State) : Prop :=
  NoDup (Cycle.name <$> db_cycles s) ∧
  NoDup (ProposalType.pass_id <$> db_proposal_types s).

(** No membership set lists an entry twice. *)
Definition sets_without_duplicates (s : State) : Prop :=
  Forall (λ d, NoDup (Cycle.proposals d)) (db_cycles s) ∧
  Forall (λ d, NoDup (Proposal.cycles d)) (db_proposals s).

(** The value a computation returns does not depend on the state it is run
    in. *)
Definition state_blind {A} (m : M A) : Prop :=
  ∀ s1 s2, (m s1).1 = (m s2).1.

(** The message of the [AttributeError] for a name [pass_service] does not
    bind. *)
Definition pass_service_has_no (name : string) : exn :=
  Raise AttributeErrorC
    ("module 'nsls2api.services.pass_service' has no attribute '" +:+ name +:+ "'").

(** ** Reasoning about computations *)

Lemma bind_run {A B} (m : M A) (k : A → M B) (s : State) :
  (m ≫= k) s = match m s with
               | (Ok a, s') => k a s'
               | (Err e, s') => (Err e, s')
               end.
Proof. reflexivity. Qed.

Lemma bind_ok {A B} (m : M A) (k : A → M B) s a s1 :
  m s = (Ok a, s1) → (m ≫= k) s = k a s1.
Proof. intros E. by rewrite bind_run, E. Qed.

Lemma bind_err {A B} (m : M A) (k : A → M B) s e s1 :
  m s = (Err e, s1) → (m ≫= k) s = (Err e, s1).
Proof. intros E. by rewrite bind_run, E. Qed.

Lemma bind_ok_inv {A B} (m : M A) (k : A → M B) s b s' :
  (m ≫= k) s = (Ok b, s') → ∃ a s1, m s = (Ok a, s1) ∧ k a s1 = (Ok b, s').
Proof.
  rewrite bind_run. destruct (m s) as [[a|e] s1]; [eauto | discriminate].
Qed.

(** ** C2: the cycle and proposal-type workers always fail *)

(** C2. For every facility name and every state, both workers raise. The
    fetch is called with one argument although [get_cycles] and
    [get_proposal_types] take none, which is a [TypeError]; matching it
    against [pass_service.PassException], a name [pass_service] does not
    bind, is an [AttributeError], and that is what leaves the worker.  No
    collection has been written: only the clock was read. *)
Theorem workers_for_cycles_and_types_always_fail (env : Env) (facility_name : string) (s : State) :
  let after_clock :=
    {| db_cycles := db_cycles s; db_proposals := db_proposals s;
       db_proposal_types := db_proposal_types s; clock := clock s + 1; logs := logs s |} in
  let no_PassException :=
    Raise AttributeErrorC
      "module 'nsls2api.services.pass_service' has no attribute 'PassException'" in
  (∃ msg, pass_service.call "get_cycles" 0 1 (pass_service.get_cycles env) s
          = (Err (Raise TypeErrorC msg), s)) ∧
  (∃ msg, pass_service.call "get_proposal_types" 0 1 (pass_service.get_proposal_types env) s
          = (Err (Raise TypeErrorC msg), s)) ∧
  ("PassException" ∉ pass_service.names) ∧
  worker_synchronize_cycles_from_pass env facility_name s = (Err no_PassException, after_clock) ∧
  worker_synchronize_proposal_types_from_pass env facility_name s
    = (Err no_PassException, after_clock) ∧
  store_eq s after_clock.
Proof.
  cbv zeta. repeat split.
  - eexists. reflexivity.
  - eexists. reflexivity.
  - apply (bool_decide_unpack _). vm_compute. exact I.
Qed.

(** ** C3: a missing or malformed remote record *)

(** [get_proposal] never raises: whatever the web service and the
    validation do, the two handlers turn it into a return value. *)
Lemma get_proposal_never_raises (env : Env) (proposal_id : pyval) (s : State) :
  ∃ o s', pass_service.get_proposal env proposal_id s = (Ok o, s') ∧ store_eq s s'.
Proof.
  unfold pass_service.get_proposal, try_except. rewrite !bind_run. unfold lift.
  destruct (_call_async_webservice env _) as [r|e]; simpl.
  - destruct (pass_service.validate_proposal r) as [p|e]; simpl.
    + eexists _, _; split; [reflexivity | repeat split].
    + case_bool_decide; (eexists _, _; split; [reflexivity | repeat split]).
  - case_bool_decide; (eexists _, _; split; [reflexivity | repeat split]).
Qed.

(** C3. Proposal 42 is malformed at the remote end, or the request for it
    fails.  [get_proposal] logs the error and returns [None]; the
    reconciliation goes on to fetch the safety forms (there are none) and
    then fails on
    [pass_proposal.Resources] with an [AttributeError], not with the error
    of the fetch or of the validation.  Nothing is stored. *)
Theorem malformed_or_absent_record_is_an_attribute_error :
  let malformed := Fixtures.env_with (Ok (RawInvalid "Proposal_ID: field required"))
                     Fixtures.lookup_ok in
  let absent := Fixtures.env_with (Err Fixtures.http_error) Fixtures.lookup_ok in
  let s := Fixtures.empty_state in
  let logged msg :=
    {| db_cycles := []; db_proposals := []; db_proposal_types := []; clock := 0;
       logs := [(ERROR, msg)] |} in
  pass_service.get_proposal malformed (PInt 42) s
    = (Ok None,
       logged "Error validating data recevied from PASS for proposal: Proposal_ID: field required") ∧
  synchronize_proposal_from_pass malformed (PInt 42) s
    = (Err (Raise AttributeErrorC "'NoneType' object has no attribute 'Resources'"),
       logged "Error validating data recevied from PASS for proposal: Proposal_ID: field required") ∧
  pass_service.get_proposal absent (PInt 42) s
    = (Ok None, logged "Error retrieving proposal from PASS: 503 Service Unavailable") ∧
  synchronize_proposal_from_pass absent (PInt 42) s
    = (Err (Raise AttributeErrorC "'NoneType' object has no attribute 'Resources'"),
       logged "Error retrieving proposal from PASS: 503 Service Unavailable").
Proof. repeat split; vm_compute; reflexivity. Qed.

(** ** C4: a failing username lookup *)

(** C4. The BNL-people service answers every lookup with an HTTP error.
    For an experimenter the error is caught: Ada, who is the PI and is
    listed, gets a null username and the proposal is stored.  For a PI who
    is not listed among the experimenters the lookup is made outside any
    handler: the error leaves [synchronize_proposal_from_pass] and nothing
    is stored. *)
Theorem lookup_failure_for_unlisted_pi_aborts :
  let listed := Fixtures.env_with
                  (Ok (RawProposal (Fixtures.proposal42 [Fixtures.ada] (Some Fixtures.ada))))
                  Fixtures.lookup_down in
  let unlisted := Fixtures.env_with
                    (Ok (RawProposal (Fixtures.proposal42 [] (Some Fixtures.ada))))
                    Fixtures.lookup_down in
  let s := Fixtures.empty_state in
  (∃ d s', synchronize_proposal_from_pass listed (PInt 42) s = (Ok tt, s') ∧
           db_proposals s' = [d] ∧
           Proposal.users d = [User.mk "Ada" "Lovelace" "ada@bnl.gov" "B123" None true]) ∧
  (synchronize_proposal_from_pass unlisted (PInt 42) s = (Err Fixtures.http_error, s)).
Proof.
  split.
  - eexists _, _. split; [vm_compute; reflexivity|]. split; reflexivity.
  - vm_compute. reflexivity.
Qed.

(** ** Relations on the store *)

Global Instance store_eq_preorder : PreOrder store_eq.
Proof.
  split.
  - by intros s.
  - intros s1 s2 s3 (?&?&?) (?&?&?). repeat split; congruence.
Qed.

Global Instance cycle_le_preorder : PreOrder cycle_le.
Proof.
  split.
  - by intros d.
  - intros d1 d2 d3 [? ?] [? ?]. split; [congruence | by etrans].
Qed.

Global Instance proposal_le_preorder : PreOrder proposal_le.
Proof.
  split.
  - by intros d.
  - intros d1 d2 d3 [? ?] [? ?]. split; [congruence | by etrans].
Qed.

Section coll_le.
Context {D : Type} (R : relation D) `{!PreOrder R}.

Global Instance coll_le_preorder : PreOrder (coll_le R).
Proof.
  split.
  - intros c i d ?. by exists d.
  - intros c1 c2 c3 H12 H23 i d Hd.
    destruct (H12 i d Hd) as (d2 & Hd2 & ?).
    destruct (H23 i d2 Hd2) as (d3 & ? & ?).
    exists d3. split; [done | by etrans].
Qed.

Lemma coll_le_alter (f : D → D) (i : nat) (c : list D) :
  (∀ d, R d (f d)) → coll_le R c (alter f i c).
Proof.
  intros Hf j d Hd. destruct (decide (i = j)) as [->|Hne].
  - exists (f d). by rewrite list_lookup_alter_eq, Hd.
  - exists d. by rewrite list_lookup_alter_ne.
Qed.

Lemma coll_le_app (c l : list D) : coll_le R c (c ++ l).
Proof. intros i d Hd. exists d. split; [by apply lookup_app_l_Some | done]. Qed.

Lemma coll_le_upsert (P : D → Prop) `{∀ d, Decision (P d)} (f : D → D) (new : D) (c : list D) :
  (∀ d, R d (f d)) → coll_le R c (Beanie.upsert P f new c).
Proof.
  intros Hf. unfold Beanie.upsert. destruct (Beanie.find_one P c) as [[i ?]|].
  - by apply coll_le_alter.
  - apply coll_le_app.
Qed.

Lemma coll_le_save (i : nat) (local : D) (c : list D) :
  (∀ d, c !! i = Some d → R d local) → coll_le R c (Beanie.save i local c).
Proof.
  intros Hl. unfold Beanie.save. case_bool_decide as Hi; [|apply coll_le_app].
  intros j d Hd. destruct (decide (i = j)) as [->|Hne].
  - exists local. split; [by apply list_lookup_insert_eq | by apply Hl].
  - exists d. by rewrite list_lookup_insert_ne.
Qed.
End coll_le.

Global Instance grows_preorder : PreOrder grows.
Proof.
  split.
  - by intros s.
  - intros s1 s2 s3 [? ?] [? ?]. split; by etrans.
Qed.

Lemma store_eq_grows (s s' : State) : store_eq s s' → grows s s'.
Proof. intros (Hc & Hp & _). unfold grows. by rewrite Hc, Hp. Qed.

(** ** Computations that keep a relation on the store *)

Section preserves.
Context (R : relation State) `{!PreOrder R}.
Hypothesis store_eq_R : ∀ s s', store_eq s s' → R s s'.

Lemma preserves_ret {A} (a : A) : preserves R (mret a).
Proof. by intros s. Qed.

Lemma preserves_raise {A} (e : exn) : preserves R (@raise A e).
Proof. by intros s. Qed.

Lemma preserves_lift {A} (r : result A) : preserves R (lift r).
Proof. by intros s. Qed.

Lemma preserves_get_state : preserves R get_state.
Proof. by intros s. Qed.

Lemma preserves_now : preserves R now.
Proof. intros s. by apply store_eq_R. Qed.

Lemma preserves_logger (lvl : log_level) (msg : string) : preserves R (logger lvl msg).
Proof. intros s. by apply store_eq_R. Qed.

Lemma preserves_bind {A B} (m : M A) (k : A → M B) :
  preserves R m → (∀ a, preserves R (k a)) → preserves R (m ≫= k).
Proof using PreOrder0.
  intros Hm Hk s. rewrite bind_run. specialize (Hm s).
  destruct (m s) as [[a|e] s1]; [|done]. etrans; [exact Hm | apply Hk].
Qed.

Lemma preserves_after {A} (m : M A) (s s1 : State) :
  R s s1 → preserves R m → R s (m s1).2.
Proof using PreOrder0. intros H1 Hm. etrans; [exact H1 | apply Hm]. Qed.

(** After reading the state, the continuation may depend on it. *)
Lemma preserves_with_state {B} (k : State → M B) :
  (∀ s, R s (k s s).2) → preserves R (get_state ≫= k).
Proof. intros Hk s. apply Hk. Qed.

Lemma preserves_except_clauses {A} (e : exn) (cl : list (result exn_class * (exn → M A))) :
  Forall (λ c, ∀ e', preserves R (c.2 e')) cl → preserves R (except_clauses e cl).
Proof using PreOrder0.
  induction 1 as [|[[c|e'] h] cl Hh _ IH]; simpl.
  - apply preserves_raise.
  - destruct (issubclass _ _); [apply Hh | apply IH].
  - apply preserves_raise.
Qed.

Lemma preserves_try_except {A} (body : M A) (cl : list (result exn_class * (exn → M A))) :
  preserves R body → Forall (λ c, ∀ e', preserves R (c.2 e')) cl →
  preserves R (try_except body cl).
Proof using PreOrder0.
  intros Hb Hcl s. unfold try_except. specialize (Hb s).
  destruct (body s) as [[a|e] s1]; [done|].
  etrans; [exact Hb | by apply (preserves_except_clauses e cl)].
Qed.

Lemma preserves_for_each {A} (l : list A) (body : A → M unit) :
  (∀ x, preserves R (body x)) → preserves R (for_each l body).
Proof using PreOrder0.
  intros Hb. induction l as [|x l IH]; simpl; [apply preserves_ret|].
  apply preserves_bind; [apply Hb | done].
Qed.

Lemma preserves_call {A} (fname : string) (params nargs : nat) (body : M A) :
  preserves R body → preserves R (pass_service.call fname params nargs body).
Proof using PreOrder0.
  intros Hb. unfold pass_service.call.
  repeat case_bool_decide; done || apply preserves_raise.
Qed.
End preserves.

(** Side conditions: the relation is a preorder that only looks at the
    collections. *)
Ltac preserves_side :=
  first [ assumption | apply _ | exact store_eq_grows | exact (λ _ _ H, H) ].

Ltac preserves_clauses :=
  lazymatch goal with
  | |- Forall _ [] => apply List.Forall_nil
  | |- Forall _ (_ :: _) => apply List.Forall_cons; [intros ?; simpl | preserves_clauses]
  end.

(** One structural step of a proof that a computation keeps [R]. *)
Ltac preserves_step :=
  lazymatch goal with
  | |- preserves _ (_ ≫= _) => apply preserves_bind; [preserves_side.. | idtac | intros ?]
  | |- preserves _ (mret _) => apply preserves_ret; preserves_side
  | |- preserves _ (raise _) => apply preserves_raise; preserves_side
  | |- preserves _ (lift _) => apply preserves_lift; preserves_side
  | |- preserves _ get_state => apply preserves_get_state; preserves_side
  | |- preserves _ now => apply preserves_now; preserves_side
  | |- preserves _ (logger _ _) => apply preserves_logger; preserves_side
  | |- preserves _ (try_except _ _) =>
      apply preserves_try_except;
      [preserves_side.. | idtac | preserves_clauses]
  | |- preserves _ (for_each _ _) => apply preserves_for_each; [preserves_side.. | intros ?]
  | |- preserves _ (pass_service.call _ _ _ _) => apply preserves_call; [preserves_side.. | idtac]
  | |- preserves _ (match ?x with _ => _ end) => destruct x
  end.

Ltac preserves_tac := repeat preserves_step.

(** ** The steps that only read the store *)

Section read_only.
Context (R : relation State) `{!PreOrder R}.
Hypothesis store_eq_R : ∀ s s', store_eq s s' → R s s'.
Variable env : Env.

Lemma preserves_get_proposal (proposal_id : pyval) :
  preserves R (pass_service.get_proposal env proposal_id).
Proof using PreOrder0 store_eq_R. unfold pass_service.get_proposal. preserves_tac. Qed.

Lemma preserves_get_proposal_types : preserves R (pass_service.get_proposal_types env).
Proof using PreOrder0 store_eq_R. unfold pass_service.get_proposal_types. preserves_tac. Qed.

Lemma preserves_get_cycles : preserves R (pass_service.get_cycles env).
Proof using PreOrder0 store_eq_R. unfold pass_service.get_cycles. preserves_tac. Qed.

Lemma preserves_resolve_beamlines (resources : list PassResource) (acc : list string) :
  preserves R (resolve_beamlines env resources acc).
Proof using PreOrder0 store_eq_R.
  revert acc. induction resources as [|r l IH]; intros acc; simpl; preserves_tac; apply IH.
Qed.

Lemma preserves_build_saf_list (l : list element) (acc : list SafetyForm.t) :
  preserves R (build_saf_list env l acc).
Proof using PreOrder0 store_eq_R.
  revert acc. induction l as [|saf l IH]; intros acc; simpl; preserves_tac;
    first [apply preserves_resolve_beamlines | apply IH].
Qed.

Lemma preserves_experimenters_loop proposal_id pi l (acc : list User.t) (found : bool) :
  preserves R (experimenters_loop env proposal_id pi l acc found).
Proof using PreOrder0 store_eq_R.
  revert acc found. induction l as [|u l IH]; intros acc found; simpl; preserves_tac;
    apply IH.
Qed.

Lemma preserves_add_pi pi (acc : list User.t) (found : bool) :
  preserves R (add_pi env pi acc found).
Proof using PreOrder0 store_eq_R.
  unfold add_pi. destruct pi; [destruct (negb found)|]; preserves_tac.
Qed.

Lemma preserves_build_user_list proposal_id p :
  preserves R (build_user_list env proposal_id p).
Proof using PreOrder0 store_eq_R.
  unfold build_user_list. preserves_tac;
    [apply preserves_experimenters_loop | apply preserves_add_pi].
Qed.

Lemma preserves_reconcile_proposal proposal_id :
  preserves R (reconcile_proposal env proposal_id).
Proof using PreOrder0 store_eq_R.
  unfold reconcile_proposal, pass_service.get_saf_from_proposal. preserves_tac;
    first [ apply preserves_get_proposal | apply preserves_build_saf_list
          | apply preserves_resolve_beamlines | apply preserves_build_user_list ].
Qed.
End read_only.

(** ** C7: the membership sets only grow *)

Lemma grows_put_cycles (s : State) (c : list Cycle.t) :
  coll_le cycle_le (db_cycles s) c → grows s (put_cycles c s).2.
Proof. intros Hc. split; [exact Hc | reflexivity]. Qed.

Lemma grows_put_proposals (s : State) (c : list Proposal.t) :
  coll_le proposal_le (db_proposals s) c → grows s (put_proposals c s).2.
Proof. intros Hc. split; [reflexivity | exact Hc]. Qed.

Lemma grows_put_proposal_types (c : list ProposalType.t) : preserves grows (put_proposal_types c).
Proof. intros s. split; reflexivity. Qed.

Lemma subseteq_AddToSet `{EqDecision V} (v : V) (l : list V) : l ⊆ Beanie.AddToSet v l.
Proof.
  unfold Beanie.AddToSet. case_bool_decide; [done|]. intros x ?. apply elem_of_app. by left.
Qed.

Lemma elem_of_AddToSet `{EqDecision V} (v : V) (l : list V) : v ∈ Beanie.AddToSet v l.
Proof.
  unfold Beanie.AddToSet. case_bool_decide; [done|]. apply elem_of_app. right. by left.
Qed.

Lemma cycle_le_Set (c : Cycle.t) (t : Z) (d : Cycle.t) : cycle_le d (Set_cycle c t d).
Proof. by split. Qed.

Lemma cycle_le_AddToSet (v : string) (d : Cycle.t) : cycle_le d (AddToSet_cycle_proposals v d).
Proof. split; [done | apply subseteq_AddToSet]. Qed.

Lemma cycle_le_touch (t : Z) (d : Cycle.t) : cycle_le d (cycle_touch t d).
Proof. by split. Qed.

Lemma proposal_le_Set title ds tid ty ins safs us (t : Z) (d : Proposal.t) :
  proposal_le d (Set_proposal title ds tid ty ins safs us t d).
Proof. by split. Qed.

Lemma proposal_le_AddToSet (v : string) (d : Proposal.t) :
  proposal_le d (AddToSet_proposal_cycles v d).
Proof. split; [done | apply subseteq_AddToSet]. Qed.

Lemma proposal_le_touch (t : Z) (d : Proposal.t) : proposal_le d (proposal_touch t d).
Proof. by split. Qed.

(** [doc.update(op)], the time stamp and [doc.save()] on a cycle. *)
Lemma grows_cycle_update_save (i : nat) (op : Cycle.t → Cycle.t) (t : Z)
    (c : list Cycle.t) (d : Cycle.t) :
  (∀ d, cycle_le d (op d)) → Beanie.update i op c !! i = Some d →
  coll_le cycle_le c (Beanie.save i (cycle_touch t d) (Beanie.update i op c)).
Proof.
  intros Hop Hd. unfold Beanie.update in *.
  trans (alter op i c); [apply coll_le_alter; [apply _ | done]|].
  apply coll_le_save; [apply _|]. intros d' Hd'.
  rewrite Hd in Hd'. injection Hd' as <-. apply cycle_le_touch.
Qed.

Lemma grows_proposal_update_save (i : nat) (op : Proposal.t → Proposal.t) (t : Z)
    (c : list Proposal.t) (d : Proposal.t) :
  (∀ d, proposal_le d (op d)) → Beanie.update i op c !! i = Some d →
  coll_le proposal_le c (Beanie.save i (proposal_touch t d) (Beanie.update i op c)).
Proof.
  intros Hop Hd. unfold Beanie.update in *.
  trans (alter op i c); [apply coll_le_alter; [apply _ | done]|].
  apply coll_le_save; [apply _|]. intros d' Hd'.
  rewrite Hd in Hd'. injection Hd' as <-. apply proposal_le_touch.
Qed.

Lemma grows_add_allocated_proposals (h : handle Cycle.t) (l : list PassAllocation) :
  preserves grows (add_allocated_proposals h l).
Proof.
  revert h. induction l as [|a l IH]; intros h s; simpl; [done|].
  unfold cycle_update. rewrite !bind_run. simpl.
  destruct (Beanie.update _ _ _ !! _) as [d|] eqn:Hd; simpl.
  - etrans; [|apply IH]. simpl.
    apply (grows_put_cycles s), grows_cycle_update_save; [apply cycle_le_AddToSet | done].
  - apply (grows_put_cycles s), coll_le_alter; [apply _ | apply cycle_le_AddToSet].
Qed.

Lemma grows_synchronize_cycle (env : Env) (pass_cycle : PassCycle) :
  preserves grows (synchronize_cycle env pass_cycle).
Proof.
  unfold synchronize_cycle. do 4 preserves_step; [preserves_tac..|].
  apply preserves_with_state. intros s. rewrite bind_run. simpl.
  apply preserves_after; [apply _ | |].
  - apply (grows_put_cycles s), coll_le_upsert; [apply _ | apply cycle_le_Set].
  - preserves_tac. apply grows_add_allocated_proposals.
Qed.

Lemma grows_synchronize_cycles (env : Env) (l : list PassCycle) (facility : option Facility.t) :
  preserves grows (synchronize_cycles env l facility).
Proof.
  revert facility. induction l as [|c l IH]; intros facility; simpl; preserves_tac;
    [apply grows_synchronize_cycle | apply IH].
Qed.

Lemma grows_worker_synchronize_cycles_from_pass (env : Env) (facility_name : string) :
  preserves grows (worker_synchronize_cycles_from_pass env facility_name).
Proof.
  unfold worker_synchronize_cycles_from_pass. preserves_tac;
    first [ apply preserves_get_cycles; preserves_side | apply grows_synchronize_cycles ].
Qed.

Lemma grows_synchronize_proposal_type (env : Env) (p : PassProposalType) :
  preserves grows (synchronize_proposal_type env p).
Proof.
  unfold synchronize_proposal_type. preserves_tac. apply grows_put_proposal_types.
Qed.

Lemma grows_synchronize_proposal_types (env : Env) (l : list PassProposalType)
    (facility : option Facility.t) :
  preserves grows (synchronize_proposal_types env l facility).
Proof.
  revert facility. induction l as [|c l IH]; intros facility; simpl; preserves_tac;
    [apply grows_synchronize_proposal_type | apply IH].
Qed.

Lemma grows_worker_synchronize_proposal_types_from_pass (env : Env) (facility_name : string) :
  preserves grows (worker_synchronize_proposal_types_from_pass env facility_name).
Proof.
  unfold worker_synchronize_proposal_types_from_pass. preserves_tac;
    first [ apply preserves_get_proposal_types; preserves_side
          | apply grows_synchronize_proposal_types ].
Qed.

Lemma grows_upsert_proposal (env : Env) (proposal_id : pyval) (r : reconciled) :
  preserves grows (upsert_proposal env proposal_id r).
Proof.
  unfold upsert_proposal. do 2 preserves_step; [preserves_tac..|].
  apply preserves_with_state. intros s. rewrite bind_run. simpl.
  split; simpl; [reflexivity|].
  apply coll_le_upsert; [apply _ | apply proposal_le_Set].
Qed.

Lemma grows_synchronize_proposal_from_pass (env : Env) (proposal_id : pyval) :
  preserves grows (synchronize_proposal_from_pass env proposal_id).
Proof.
  unfold synchronize_proposal_from_pass. preserves_tac;
    [apply preserves_reconcile_proposal; preserves_side | apply grows_upsert_proposal].
Qed.

Lemma grows_link_proposal (cycle_name : string) (proposal_id : pyval) :
  preserves grows (link_proposal cycle_name proposal_id).
Proof.
  unfold link_proposal. preserves_step; [|preserves_tac].
  preserves_step; [preserves_tac|].
  intros s. unfold proposal_by_id, proposal_update. rewrite !bind_run. simpl.
  destruct (Beanie.find_one _ _) as [[i d]|]; simpl; [|done].
  rewrite !bind_run. simpl.
  destruct (Beanie.update _ _ _ !! _) as [d'|] eqn:Hd; simpl.
  - apply (grows_put_proposals s), grows_proposal_update_save;
      [apply proposal_le_AddToSet | done].
  - apply (grows_put_proposals s), coll_le_alter; [apply _ | apply proposal_le_AddToSet].
Qed.

Lemma grows_update_proposals_with_cycle (env : Env) (cycle_name : string) :
  preserves grows (update_proposals_with_cycle env cycle_name).
Proof.
  unfold update_proposals_with_cycle. apply preserves_with_state. intros s.
  apply (preserves_after grows); [done|]. preserves_tac. apply grows_link_proposal.
Qed.

Lemma grows_worker_synchronize_proposal_from_pass (env : Env) (proposal_id : pyval) :
  preserves grows (worker_synchronize_proposal_from_pass env proposal_id).
Proof.
  unfold worker_synchronize_proposal_from_pass. preserves_tac.
  apply grows_synchronize_proposal_from_pass.
Qed.

Lemma grows_worker_synchronize_proposals_for_cycle_from_pass (env : Env) (cycle : string) :
  preserves grows (worker_synchronize_proposals_for_cycle_from_pass env cycle).
Proof.
  unfold worker_synchronize_proposals_for_cycle_from_pass,
    pass_service.get_commissioning_proposals_by_year.
  do 2 preserves_step; [preserves_tac..|].
  apply preserves_with_state. intros s.
  apply (preserves_after grows); [done|].
  preserves_tac;
    first [ apply grows_synchronize_proposal_from_pass
          | apply grows_update_proposals_with_cycle ].
Qed.

Lemma grows_run_step (env : Env) (st : step) : preserves grows (run_step env st).
Proof.
  destruct st; simpl.
  - apply grows_worker_synchronize_cycles_from_pass.
  - apply grows_worker_synchronize_proposal_types_from_pass.
  - apply grows_worker_synchronize_proposal_from_pass.
  - apply grows_worker_synchronize_proposals_for_cycle_from_pass.
  - apply grows_update_proposals_with_cycle.
  - preserves_tac. apply grows_synchronize_cycles.
  - preserves_tac. apply grows_synchronize_proposal_types.
  - apply grows_add_allocated_proposals.
Qed.

(** C7. Along any history of sync passes, whatever the remote system
    reports at each of them and whether they succeed or fail, every cycle and
    every proposal of the store is still there afterwards, and its
    [Cycle.proposals], respectively [Proposal.cycles], contains every entry
    it had: entries are added with [AddToSet] and never removed. *)
Theorem membership_sets_only_grow (steps : list (Env * step)) (s : State) :
  grows s (run_steps steps s).
Proof.
  revert s. induction steps as [|[env st] steps IH]; intros s; simpl; [done|].
  etrans; [apply grows_run_step | apply IH].
Qed.

(** ** What an upsert does to a collection *)

Section upsert.
Context {D : Type} (P : D → Prop) `{∀ d, Decision (P d)}.

(** Every document keeps its position; only the one at [upsert_index] may
    have changed, and then into its image under the [Set]. *)
Lemma upsert_lookup (f : D → D) (new : D) (c : list D) (i : nat) (d : D) :
  c !! i = Some d →
  ∃ d', Beanie.upsert P f new c !! i = Some d' ∧
        (d' = d ∨ (d' = f d ∧ i = Beanie.upsert_index P c)) ∧
        (i ≠ Beanie.upsert_index P c → d' = d).
Proof.
  intros Hd. unfold Beanie.upsert, Beanie.upsert_index.
  destruct (Beanie.find_one P c) as [[j x]|]; simpl.
  - destruct (decide (j = i)) as [->|Hne].
    + exists (f d). rewrite list_lookup_alter_eq, Hd. split; [done|]. split; [by right | done].
    + exists d. rewrite list_lookup_alter_ne by done. split; [done|]. split; [by left | done].
  - exists d. rewrite lookup_app_l_Some with (x := d) by done.
    split; [done|]. split; [by left | done].
Qed.

(** The document at [upsert_index] afterwards: the inserted one, or an
    updated one. *)
Lemma upsert_lookup_index (f : D → D) (new : D) (c : list D) :
  ∃ d, Beanie.upsert P f new c !! Beanie.upsert_index P c = Some d ∧
       (d = new ∨ ∃ d0, d = f d0).
Proof.
  unfold Beanie.upsert, Beanie.upsert_index.
  destruct (Beanie.find_one P c) as [[j x]|] eqn:Hfind; simpl.
  - apply list_find_Some in Hfind as (Hx & _).
    exists (f x). rewrite list_lookup_alter_eq, Hx. split; [done | right; by exists x].
  - exists new. split; [|by left].
    by rewrite lookup_app_r, Nat.sub_diag.
Qed.
End upsert.

(** ** The outcome of the proposal reconciler *)

(** Unfolds the monad on the computation at hand. *)
Ltac run_monad :=
  unfold mbind, M_bind, bind, mret, M_ret, ret, raise, lift, logger, now, get_state; simpl.

Lemma try_except_ok {A} (body : M A) cl (s s' : State) (a : A) :
  body s = (Ok a, s') → try_except body cl s = (Ok a, s').
Proof. intros E. unfold try_except. by rewrite E. Qed.

Lemma try_except_never_raising {A} (body : M A) cl (s : State) :
  (∃ a s', body s = (Ok a, s')) → try_except body cl s = body s.
Proof. intros (a & s' & E). rewrite E. by apply try_except_ok. Qed.

(** When [get_proposal] returns a record, it is the one PASS sent. *)
Lemma get_proposal_some_inv (env : Env) (proposal_id : pyval) (s s' : State) (p : PassProposal) :
  pass_service.get_proposal env proposal_id s = (Ok (Some p), s') →
  _call_async_webservice env (proposal_url env proposal_id) = Ok (RawProposal p).
Proof.
  unfold pass_service.get_proposal, try_except, proposal_url, RawProposal.
  rewrite !bind_run. unfold lift.
  destruct (_call_async_webservice env _) as [r|e]; simpl.
  - destruct r as [|o|l]; [|destruct o|]; simpl; try case_bool_decide; run_monad; congruence.
  - case_bool_decide; run_monad; congruence.
Qed.


(** The loop over the safety forms stops at its first element. *)
Lemma build_saf_list_cons (env : Env) (saf : element) (rest : list element)
    (acc : list SafetyForm.t) (s : State) :
  build_saf_list env (saf :: rest) acc s
  = (Err (Raise AttributeErrorC
            ("'" +:+ type_name saf +:+ "' object has no attribute 'Resources'")), s).
Proof. reflexivity. Qed.

(** Only the empty array is iterated over without an element. *)
Lemma iterate_nil (r : raw) : iterate r = Ok [] → r = RawSafs [].
Proof. destruct r as [|o|[|x l]]; simpl; intros H; try discriminate; reflexivity. Qed.

(** A successful [reconcile_proposal] went through each of its phases, and
    there was no safety form. *)
Lemma reconcile_proposal_ok_inv (env : Env) (proposal_id : pyval) (s s' : State) (r : reconciled) :
  reconcile_proposal env proposal_id s = (Ok r, s') →
  _call_async_webservice env (proposal_url env proposal_id) = Ok (RawProposal (pass_proposal r)) ∧
  (_call_async_webservice env (saf_url env proposal_id) = Ok (RawSafs []) ∧ saf_list r = []) ∧
  (∃ s1 s2, resolve_beamlines env (Resources (pass_proposal r)) [] s1
            = (Ok (beamline_list r), s2)) ∧
  (∃ s1, build_user_list env proposal_id (pass_proposal r) s1 = (Ok (user_list r), s')).
Proof.
  unfold reconcile_proposal. intros Hrun.
  destruct (get_proposal_never_raises env proposal_id s) as (o & s0 & Hget & _).
  rewrite bind_run, try_except_never_raising, Hget in Hrun by eauto.
  apply bind_ok_inv in Hrun as (response & s1 & Hresp & Hrun).
  apply bind_ok_inv in Hrun as (safs & s2 & Hiter & Hrun).
  apply bind_ok_inv in Hrun as (sl & s3 & Hsafs & Hrun).
  apply bind_ok_inv in Hrun as (p & s4 & Hp & Hrun).
  apply bind_ok_inv in Hrun as (bl & s5 & Hbl & Hrun).
  apply bind_ok_inv in Hrun as (ul & s6 & Hul & Hrun).
  injection Hrun as <- <-. simpl.
  destruct o as [p'|]; [|discriminate]. injection Hp as -> ->.
  split; [by eapply get_proposal_some_inv|].
  split; [|by eauto].
  unfold pass_service.get_saf_from_proposal, lift in Hresp. injection Hresp as Hresp _.
  unfold lift in Hiter. injection Hiter as Hiter _.
  destruct safs as [|saf rest]; [|by rewrite build_saf_list_cons in Hsafs].
  injection Hsafs as <- _. split; [|done].
  unfold saf_url. rewrite Hresp. f_equal. by apply iterate_nil.
Qed.

(** The document that [upsert_proposal] leaves at the position it wrote. *)
Lemma upsert_proposal_run (env : Env) (proposal_id : pyval) (r : reconciled) (s : State) :
  ∃ s', upsert_proposal env proposal_id r s = (Ok tt, s') ∧
        db_cycles s' = db_cycles s ∧ db_proposal_types s' = db_proposal_types s ∧
        ∃ d, db_proposals s' !! proposal_index proposal_id s = Some d ∧
             Proposal.users d = user_list r ∧ Proposal.safs d = saf_list r ∧
             Proposal.instruments d = beamline_list r.
Proof.
  unfold upsert_proposal. run_monad.
  eexists. split; [reflexivity|]. simpl. split; [done|]. split; [done|].
  unfold proposal_index.
  edestruct (upsert_lookup_index (λ d, Proposal.proposal_id d = py_str proposal_id))
    as (d & Hd & Hcase).
  exists d. split; [exact Hd|].
  destruct Hcase as [->|[d0 ->]]; done.
Qed.

(** ** C8: the frame of the proposal upsert *)

(** C8. Whatever the outcome of [synchronize_proposal_from_pass], the
    cycles and the proposal types of the store are untouched, every
    proposal document keeps its position, its proposal id and its [cycles],
    and every document other than the one the upsert is keyed to is left
    as it was.  The fields the upsert can change are therefore the eight
    it sets: title, data session, type id, type, instruments, safety
    forms, users and last-updated. *)
Theorem proposal_upsert_never_touches_cycles (env : Env) (proposal_id : pyval) (s : State) :
  let s' := (synchronize_proposal_from_pass env proposal_id s).2 in
  db_cycles s' = db_cycles s ∧
  db_proposal_types s' = db_proposal_types s ∧
  ∀ i d, db_proposals s !! i = Some d →
    ∃ d', db_proposals s' !! i = Some d' ∧
          Proposal.proposal_id d' = Proposal.proposal_id d ∧
          Proposal.cycles d' = Proposal.cycles d ∧
          (i ≠ proposal_index proposal_id s → d' = d).
Proof.
  cbv zeta. unfold synchronize_proposal_from_pass. rewrite bind_run.
  pose proof (preserves_reconcile_proposal store_eq (λ _ _ H, H) env proposal_id s) as Hs1.
  destruct (reconcile_proposal env proposal_id s) as [[r|e] s1]; simpl in Hs1;
    destruct Hs1 as (Hc & Hp & Ht).
  - simpl. rewrite Hc, Ht, Hp. repeat split; try done.
    intros i d Hd. unfold proposal_index.
    edestruct (upsert_lookup (λ d, Proposal.proposal_id d = py_str proposal_id))
      as (d' & Hd' & Hcase & Hother); [exact Hd|].
    exists d'. split; [exact Hd'|].
    destruct Hcase as [->|[-> _]]; by eauto.
  - simpl. rewrite Hc, Ht, Hp. repeat split; try done. by eauto.
Qed.

(** ** C1: the number of PI entries *)

Lemma count_pi_app (l1 l2 : list User.t) : count_pi (l1 ++ l2) = (count_pi l1 + count_pi l2)%nat.
Proof. unfold count_pi. by rewrite filter_app, length_app. Qed.

Lemma count_pi_snoc (l : list User.t) (u : User.t) :
  count_pi (l ++ [u]) = (count_pi l + if User.is_pi u then 1 else 0)%nat.
Proof.
  rewrite count_pi_app. f_equal. unfold count_pi. rewrite filter_cons, filter_nil.
  destruct (User.is_pi u); reflexivity.
Qed.

Lemma pi_matches_cons (p u : PassPerson) (l : list PassPerson) :
  pi_matches p (u :: l)
  = ((if bool_decide (casefold (BNL_ID p) = casefold (BNL_ID u)) then 1 else 0)
     + pi_matches p l)%nat.
Proof.
  unfold pi_matches. rewrite filter_cons.
  case_decide; [rewrite bool_decide_eq_true_2 by done | rewrite bool_decide_eq_false_2 by done];
    done.
Qed.

(** The loop flags exactly the experimenters whose id is the PI's, and
    remembers whether there was one. *)
Lemma experimenters_loop_count (env : Env) (proposal_id : pyval) (p : PassPerson)
    (l : list PassPerson) (acc : list User.t) (found : bool)
    (s s' : State) (ul : list User.t) (found' : bool) :
  experimenters_loop env proposal_id (Some p) l acc found s = (Ok (ul, found'), s') →
  count_pi ul = (count_pi acc + pi_matches p l)%nat ∧
  found' = found || bool_decide (0 < pi_matches p l)%nat.
Proof.
  revert acc found s s' ul found'.
  induction l as [|u l IH]; intros acc found s s' ul found'; simpl.
  - intros [= <- <- <-]. split; [by rewrite Nat.add_0_r | by rewrite orb_false_r].
  - rewrite bind_run. intros Hrun.
    destruct (try_except _ _ s) as [[bnl_username|e] s1]; [|discriminate].
    apply IH in Hrun as [-> ->]. rewrite count_pi_snoc, pi_matches_cons. simpl.
    destruct (bool_decide (casefold _ = casefold _)); simpl; (split; [lia|]).
    + by rewrite orb_true_r.
    + done.
Qed.

Lemma build_user_list_count (env : Env) (proposal_id : pyval) (pass_proposal : PassProposal)
    (p : PassPerson) (s s' : State) (ul : list User.t) :
  PI pass_proposal = Some p →
  build_user_list env proposal_id pass_proposal s = (Ok ul, s') →
  count_pi ul = Nat.max 1 (pi_matches p (Experimenters pass_proposal)).
Proof.
  intros HPI. unfold build_user_list. rewrite HPI. intros Hrun.
  apply bind_ok_inv in Hrun as ([ul0 found] & s1 & Hloop & Hadd).
  apply experimenters_loop_count in Hloop as [Hcount ->]. simpl in *.
  case_bool_decide as Hm; simpl in Hadd.
  - injection Hadd as <- _. lia.
  - apply bind_ok_inv in Hadd as (bnl_username & s2 & _ & Hadd).
    injection Hadd as <- _. rewrite count_pi_snoc. simpl. lia.
Qed.

(** C1, as amended. When the remote record names a PI and the
    reconciliation completes, the stored user list has as many PI entries
    as there are experimenters with the PI's id (up to case), and one if
    there is none.  So it has exactly one whenever the PI is listed at most
    once among the experimenters. *)
Theorem pi_entries_after_reconciliation (env : Env) (proposal_id : pyval) (s s' : State)
    (pass_proposal : PassProposal) (p : PassPerson) :
  _call_async_webservice env (proposal_url env proposal_id) = Ok (RawProposal pass_proposal) →
  PI pass_proposal = Some p →
  synchronize_proposal_from_pass env proposal_id s = (Ok tt, s') →
  ∃ d, db_proposals s' !! proposal_index proposal_id s = Some d ∧
       count_pi (Proposal.users d) = Nat.max 1 (pi_matches p (Experimenters pass_proposal)) ∧
       ((pi_matches p (Experimenters pass_proposal) ≤ 1)%nat → count_pi (Proposal.users d) = 1%nat).
Proof.
  intros Hremote HPI Hrun. unfold synchronize_proposal_from_pass in Hrun.
  apply bind_ok_inv in Hrun as (r & s1 & Hrec & Hup).
  pose proof (preserves_reconcile_proposal store_eq (λ _ _ H, H) env proposal_id s) as Hs1.
  rewrite Hrec in Hs1. destruct Hs1 as (_ & Hp & _). simpl in Hp.
  apply reconcile_proposal_ok_inv in Hrec as (Hremote' & _ & _ & (s0 & Hul)).
  rewrite Hremote in Hremote'. injection Hremote' as Heq.
  destruct (upsert_proposal_run env proposal_id r s1) as (s2 & Hup' & _ & _ & d & Hd & Hus & _).
  rewrite Hup in Hup'. injection Hup' as <-.
  exists d. unfold proposal_index in *. rewrite <- Hp. split; [exact Hd|].
  rewrite Hus, (build_user_list_count env proposal_id _ p _ _ _ (eq_trans (eq_sym (f_equal PI Heq)) HPI) Hul).
  rewrite <- Heq. split; [done | lia].
Qed.

Lemma pi_entries_after_reconciliation_witness :
  let env := Fixtures.env_with
               (Ok (RawProposal (Fixtures.proposal42 [Fixtures.bob] (Some Fixtures.ada))))
               Fixtures.lookup_ok in
  let s := Fixtures.empty_state in
  let s' := (synchronize_proposal_from_pass env (PInt 42) s).2 in
  ∃ d, db_proposals s' !! proposal_index (PInt 42) s = Some d ∧
       count_pi (Proposal.users d) = Nat.max 1 (pi_matches Fixtures.ada [Fixtures.bob]) ∧
       ((pi_matches Fixtures.ada [Fixtures.bob] ≤ 1)%nat → count_pi (Proposal.users d) = 1%nat).
Proof.
  cbv zeta.
  apply (pi_entries_after_reconciliation
           (Fixtures.env_with
              (Ok (RawProposal (Fixtures.proposal42 [Fixtures.bob] (Some Fixtures.ada))))
              Fixtures.lookup_ok)
           (PInt 42) Fixtures.empty_state _
           (Fixtures.proposal42 [Fixtures.bob] (Some Fixtures.ada)) Fixtures.ada).
  - vm_compute. reflexivity.
  - reflexivity.
  - vm_compute. reflexivity.
Defined.

(** C1 as stated fails: PASS lists Ada, the PI of proposal 42, twice among
    its experimenters (once with a lower-case id).  The reconciliation
    completes and stores two users flagged as PI. *)
Lemma pi_listed_twice_gives_two_pi_entries :
  let pass_proposal := Fixtures.proposal42 [Fixtures.ada; Fixtures.ada_lower] (Some Fixtures.ada) in
  let env := Fixtures.env_with (Ok (RawProposal pass_proposal)) Fixtures.lookup_ok in
  PI pass_proposal = Some Fixtures.ada ∧
  ∃ s' d, synchronize_proposal_from_pass env (PInt 42) Fixtures.empty_state = (Ok tt, s') ∧
          db_proposals s' = [d] ∧
          count_pi (Proposal.users d) = 2%nat.
Proof.
  split; [reflexivity|]. eexists _, _. split; [vm_compute; reflexivity|].
  split; reflexivity.
Qed.

(** ** C9 and C6: safety forms, and proposals without a PI *)

Section resolving.
Variable env : Env.

(** The beamline service answers every lookup, with a beamline or with
    [None]. *)
Hypothesis beamlines_answer : ∀ i, ∃ ob, beamline_by_pass_id env i = Ok ob.


End resolving.

Lemma elem_of_resolved_names (env : Env) (resources : list PassResource) (name : string) :
  name ∈ resolved_names env resources ↔
  ∃ r b, r ∈ resources ∧ beamline_by_pass_id env (ID r) = Ok (Some b) ∧ Beamline.name b = name.
Proof.
  unfold resolved_names. rewrite list_elem_of_omap. split.
  - intros (r & Hr & Hb). destruct (beamline_by_pass_id env (ID r)) as [[b|]|] eqn:E; simplify_eq.
    by exists r, b.
  - intros (r & b & Hr & Hb & <-). exists r. by rewrite Hb.
Qed.

(** With a safety form in the response, the reconciler stops at the first
    one, whatever [get_proposal] returned before. *)
Lemma reconcile_proposal_with_safs (env : Env) (proposal_id : pyval) (s : State)
    (saf : json_object) (rest : list json_object) :
  _call_async_webservice env (saf_url env proposal_id) = Ok (RawArray (saf :: rest)) →
  ∃ s', reconcile_proposal env proposal_id s
        = (Err (Raise AttributeErrorC "'dict' object has no attribute 'Resources'"), s').
Proof.
  intros Hsafs. unfold reconcile_proposal.
  destruct (get_proposal_never_raises env proposal_id s) as (o & s0 & Hget & _).
  erewrite bind_ok; [|rewrite try_except_never_raising by eauto; exact Hget].
  erewrite bind_ok;
    [|unfold pass_service.get_saf_from_proposal, lift; fold (saf_url env proposal_id);
      by rewrite Hsafs].
  erewrite bind_ok; [|reflexivity].
  exists s0. reflexivity.
Qed.

(** C9. Whenever PASS lists a safety form for the proposal, the
    reconciliation fails: [get_saf_from_proposal] returns the decoded
    response as it is, so the [saf] of the loop is a [dict] and
    [saf.Resources] raises an [AttributeError] before any resource is
    looked up.  Nothing is stored: no form gets an instrument list, with or
    without the unknown entries. *)
Theorem safety_forms_stop_the_reconciliation (env : Env) (proposal_id : pyval) (s : State)
    (saf : json_object) (rest : list json_object) :
  _call_async_webservice env (saf_url env proposal_id) = Ok (RawArray (saf :: rest)) →
  ∃ s', synchronize_proposal_from_pass env proposal_id s
        = (Err (Raise AttributeErrorC "'dict' object has no attribute 'Resources'"), s') ∧
        store_eq s s'.
Proof.
  intros Hsafs.
  destruct (reconcile_proposal_with_safs env proposal_id s saf rest Hsafs) as (s' & Hrec).
  pose proof (preserves_reconcile_proposal store_eq (λ _ _ H, H) env proposal_id s) as Hs1.
  rewrite Hrec in Hs1. exists s'. split; [|exact Hs1].
  unfold synchronize_proposal_from_pass. by rewrite bind_run, Hrec.
Qed.

Lemma safety_forms_stop_the_reconciliation_witness :
  ∃ s', synchronize_proposal_from_pass
          (Fixtures.env_with_safs (Ok (RawSafs [Fixtures.saf9]))
             (Ok (RawProposal (Fixtures.proposal42 [Fixtures.bob] (Some Fixtures.ada))))
             Fixtures.lookup_ok)
          (PInt 42) Fixtures.empty_state
        = (Err (Raise AttributeErrorC "'dict' object has no attribute 'Resources'"), s') ∧
        store_eq Fixtures.empty_state s'.
Proof.
  apply (safety_forms_stop_the_reconciliation
           (Fixtures.env_with_safs (Ok (RawSafs [Fixtures.saf9]))
              (Ok (RawProposal (Fixtures.proposal42 [Fixtures.bob] (Some Fixtures.ada))))
              Fixtures.lookup_ok)
           (PInt 42) Fixtures.empty_state (ObjSaf Fixtures.saf9) []).
  vm_compute. reflexivity.
Defined.

(** Without a PI every experimenter is skipped with a warning. *)
Lemma experimenters_loop_no_pi (env : Env) (proposal_id : pyval) (l : list PassPerson)
    (acc : list User.t) (found : bool) (s : State) :
  ∃ s', experimenters_loop env proposal_id None l acc found s = (Ok (acc, found), s') ∧
        logs s' = logs s ++ replicate (length l)
                              (WARNING, "Proposal " +:+ py_str proposal_id +:+
                                        " does not have a PI.").
Proof.
  revert s. induction l as [|u l IH]; intros s; simpl.
  - exists s. by rewrite app_nil_r.
  - rewrite bind_run. simpl.
    edestruct IH as (s' & Hrun & Hlogs). exists s'. rewrite Hrun, Hlogs. simpl.
    by rewrite <- app_assoc.
Qed.

Lemma build_user_list_no_pi (env : Env) (proposal_id : pyval) (p : PassProposal) (s : State) :
  PI p = None →
  ∃ s', build_user_list env proposal_id p s = (Ok [], s') ∧
        logs s' = logs s ++ replicate (length (Experimenters p))
                              (WARNING, "Proposal " +:+ py_str proposal_id +:+
                                        " does not have a PI.").
Proof.
  intros HPI. unfold build_user_list. rewrite HPI.
  destruct (experimenters_loop_no_pi env proposal_id (Experimenters p) [] false s)
    as (s' & Hloop & Hlogs).
  exists s'. by rewrite bind_run, Hloop.
Qed.




(** ** C5: a proposal type whose facility cannot be resolved *)

(** The error that an unresolved facility raises in the loop body. *)
Lemma synchronize_proposal_type_unresolved (env : Env) (item : PassProposalType) (s : State) :
  (∀ f, facility_by_pass_id env (pt_User_Facility_ID item) ≠ Ok (Some f)) →
  synchronize_proposal_type env item s
  = (Err match facility_by_pass_id env (pt_User_Facility_ID item) with
         | Err e => e
         | Ok _ => none_has_no_attribute "facility_id"
         end, s).
Proof.
  intros Hno. unfold synchronize_proposal_type. rewrite bind_run. unfold lift.
  destruct (facility_by_pass_id env _) as [[f|]|e]; [by destruct (Hno f) | done | done].
Qed.

(** C5, as amended. In the loop over the remote proposal types, an item
    whose facility does not resolve (the lookup returns [None] or raises) is
    not skipped: the loop stops there with that error.  The items before it
    have been processed, the state is the one they left, nothing is logged
    for the item, and no later item is looked at. *)
Theorem unresolvable_facility_aborts_the_batch (env : Env)
    (before : list PassProposalType) (item : PassProposalType) (after : list PassProposalType)
    (facility : option Facility.t) (s : State) :
  (∀ f, facility_by_pass_id env (pt_User_Facility_ID item) ≠ Ok (Some f)) →
  synchronize_proposal_types env (before ++ item :: after) facility s
  = match synchronize_proposal_types env before facility s with
    | (Ok _, s1) =>
        (Err match facility_by_pass_id env (pt_User_Facility_ID item) with
             | Err e => e
             | Ok _ => none_has_no_attribute "facility_id"
             end, s1)
    | (Err e, s1) => (Err e, s1)
    end.
Proof.
  intros Hno. revert facility s. induction before as [|b before IH]; intros facility s; simpl.
  - by rewrite bind_run, synchronize_proposal_type_unresolved.
  - rewrite !bind_run. destruct (synchronize_proposal_type env b s) as [[f|e] s1]; [apply IH | done].
Qed.

Lemma unresolvable_facility_aborts_the_batch_witness :
  let env := Fixtures.env_with (Ok RawNull) Fixtures.lookup_ok in
  ∃ s1, synchronize_proposal_types env
          ([Fixtures.type_resolvable] ++ Fixtures.type_unresolvable :: [Fixtures.type_resolvable])
          None Fixtures.empty_state
        = (Err (none_has_no_attribute "facility_id"), s1) ∧
        length (db_proposal_types s1) = 1%nat.
Proof.
  cbv zeta. eexists.
  rewrite (unresolvable_facility_aborts_the_batch
             (Fixtures.env_with (Ok RawNull) Fixtures.lookup_ok)
             [Fixtures.type_resolvable] Fixtures.type_unresolvable [Fixtures.type_resolvable]
             None Fixtures.empty_state).
  - vm_compute. split; reflexivity.
  - intros f. vm_compute. discriminate.
Defined.

(** C5 as stated fails: PASS reports two proposal types, the first for a
    facility that does not resolve, the second for NSLS-II.  The loop raises
    on the first one; the second is never stored and nothing is logged. *)
Lemma unresolvable_facility_stops_proposal_types :
  let env := Fixtures.env_with (Ok RawNull) Fixtures.lookup_ok in
  facility_by_pass_id env (pt_User_Facility_ID Fixtures.type_unresolvable) = Ok None ∧
  (∃ f, facility_by_pass_id env (pt_User_Facility_ID Fixtures.type_resolvable) = Ok (Some f)) ∧
  synchronize_proposal_types env [Fixtures.type_unresolvable; Fixtures.type_resolvable]
    None Fixtures.empty_state
  = (Err (Raise AttributeErrorC "'NoneType' object has no attribute 'facility_id'"),
     Fixtures.empty_state).
Proof.
  cbv zeta. split; [reflexivity|]. split; [eexists; reflexivity|].
  vm_compute. reflexivity.
Qed.

(** ** C10: linking a cycle to proposals that are not in the store *)

Global Instance relinked_preorder : PreOrder relinked.
Proof.
  split.
  - intros s. by repeat split.
  - intros s1 s2 s3 (Hl12 & Hc12 & Hg12) (Hl23 & Hc23 & Hg23).
    split; [congruence|]. split; by etrans.
Qed.

(** Linking does not change which position, if any, holds the proposal
    with a given id. *)
Lemma relinked_local_proposal (s s' : State) (n : Z) :
  relinked s s' →
  match local_proposal n s with
  | None => local_proposal n s' = None
  | Some (i, d) => ∃ d', local_proposal n s' = Some (i, d') ∧ proposal_le d d'
  end.
Proof.
  intros (Hlen & Hle & _). unfold local_proposal, Beanie.find_one.
  assert (∀ j y', db_proposals s' !! j = Some y' →
            ∃ y, db_proposals s !! j = Some y ∧ Proposal.proposal_id y' = Proposal.proposal_id y)
    as Hback.
  { intros j y' Hy'. destruct (lookup_lt_is_Some_2 (db_proposals s) j) as [y Hy].
    - rewrite <- Hlen. by eapply lookup_lt_Some.
    - exists y. split; [done|]. destruct (Hle j y Hy) as (y2 & Hy2 & Hid & _). congruence. }
  destruct (list_find _ (db_proposals s)) as [[i d]|] eqn:Hfind.
  - apply list_find_Some in Hfind as (Hd & HP & Hbefore).
    destruct (Hle i d Hd) as (d' & Hd' & Hdd'). exists d'. split; [|done].
    apply list_find_Some. split; [done|]. split; [destruct Hdd'; congruence|].
    intros j y' Hy' Hlt. destruct (Hback j y' Hy') as (y & Hy & Hid).
    rewrite Hid. by eapply Hbefore.
  - apply list_find_None. apply Forall_lookup. intros j y' Hy'.
    destruct (Hback j y' Hy') as (y & Hy & Hid). rewrite Hid.
    apply list_find_None in Hfind. by eapply (proj1 (Forall_lookup _ _) Hfind).
Qed.

Lemma proposal_by_id_run (n : Z) (s : State) :
  proposal_by_id n s
  = match local_proposal n s with
    | Some (i, d) => (Ok (Handle i d), s)
    | None => (Err (Raise LookupErrorC (missing_proposal_warning n).2), s)
    end.
Proof.
  unfold proposal_by_id, local_proposal. rewrite bind_run. simpl.
  by destruct (Beanie.find_one _ _) as [[i d]|].
Qed.

(** [proposal.update(..)], the time stamp and [proposal.save()] for a
    proposal that is in the store. *)
Lemma update_and_save_run (i : nat) (d0 d : Proposal.t) (op : Proposal.t → Proposal.t)
    (s : State) :
  db_proposals s !! i = Some d →
  ∃ s', (h ← proposal_update (Handle i d0) op; t ← now;
         proposal_save (Handle (doc_id h) (proposal_touch t (doc h)))) s = (Ok tt, s') ∧
        db_proposals s' = <[i:=proposal_touch (clock s) (op d)]> (alter op i (db_proposals s)) ∧
        logs s' = logs s.
Proof.
  intros Hd. unfold proposal_update. rewrite !bind_run. simpl.
  unfold Beanie.update. rewrite list_lookup_alter_eq, Hd. simpl.
  eexists. split; [reflexivity|]. simpl. split; [|done].
  unfold Beanie.save. rewrite bool_decide_eq_true_2; [done|].
  rewrite length_alter. by eapply lookup_lt_Some.
Qed.

(** One round of the loop, for an id that [int()] accepts: it returns
    normally; a missing proposal leaves a warning and an unchanged store, a
    proposal that is there gets the cycle. *)
Lemma link_proposal_run (cycle_name : string) (proposal_id : pyval) (n : Z) (s : State) :
  py_int proposal_id = Ok n →
  ∃ s', link_proposal cycle_name proposal_id s = (Ok tt, s') ∧ relinked s s' ∧
        match local_proposal n s with
        | None => missing_proposal_warning n ∈ logs s' ∧ db_proposals s' = db_proposals s
        | Some (i, d) => ∃ d', db_proposals s' !! i = Some d' ∧ cycle_name ∈ Proposal.cycles d'
        end.
Proof.
  intros Hint. unfold link_proposal, try_except.
  erewrite bind_ok; [|unfold lift; by rewrite Hint].
  rewrite bind_run, proposal_by_id_run.
  destruct (local_proposal n s) as [[i d]|] eqn:Hfind.
  - apply list_find_Some in Hfind as (Hd & _).
    destruct (update_and_save_run i d d (AddToSet_proposal_cycles cycle_name) s Hd)
      as (s' & -> & Hprop & Hlogs).
    exists s'. split; [done|].
    assert (i < length (alter (AddToSet_proposal_cycles cycle_name) i (db_proposals s)))%nat
      as Hi by (rewrite length_alter; by eapply lookup_lt_Some).
    split; [split; [|split]|].
    + by rewrite Hprop, length_insert, length_alter.
    + rewrite Hprop. intros j y Hy. destruct (decide (i = j)) as [->|Hne].
      * eexists. rewrite list_lookup_insert_eq by done. split; [done|].
        rewrite Hd in Hy. injection Hy as <-.
        trans (AddToSet_proposal_cycles cycle_name d);
          [apply proposal_le_AddToSet | apply proposal_le_touch].
      * exists y. by rewrite list_lookup_insert_ne, list_lookup_alter_ne.
    + by rewrite Hlogs.
    + eexists. rewrite Hprop, list_lookup_insert_eq by done. split; [done|]. simpl.
      apply elem_of_AddToSet.
  - simpl. eexists. split; [reflexivity|]. simpl. split; [split; [|split]|]; try done.
    + intros x ?. apply elem_of_app. by left.
    + split; [|done]. apply elem_of_app. right. by left.
Qed.

Lemma for_each_link_proposal (cycle_name : string) (ids : list pyval) (s : State) :
  (∀ id, id ∈ ids → ∃ n, py_int id = Ok n) →
  ∃ s', for_each ids (link_proposal cycle_name) s = (Ok tt, s') ∧ relinked s s' ∧
        ∀ id n, id ∈ ids → py_int id = Ok n →
          match local_proposal n s with
          | None => missing_proposal_warning n ∈ logs s'
          | Some (i, d) => ∃ d', db_proposals s' !! i = Some d' ∧ cycle_name ∈ Proposal.cycles d'
          end.
Proof.
  revert s. induction ids as [|id0 ids IH]; intros s Hints; simpl.
  - exists s. split; [done|]. split; [done|]. intros id n Hin. by apply elem_of_nil in Hin.
  - destruct (Hints id0) as [n0 Hn0]; [by left|].
    destruct (link_proposal_run cycle_name id0 n0 s Hn0) as (s1 & Hrun1 & Hrel1 & Hfirst).
    destruct (IH s1) as (s' & Hrun & Hrel & Hrest).
    { intros id Hin. apply Hints. by right. }
    exists s'. rewrite bind_run, Hrun1. split; [exact Hrun|]. split; [by etrans|].
    intros id n Hin Hn. apply elem_of_cons in Hin as [->|Hin].
    + rewrite Hn0 in Hn. injection Hn as <-.
      destruct (local_proposal n0 s) as [[i d]|].
      * destruct Hfirst as (d1 & Hd1 & Hc). destruct Hrel as (_ & Hle & _).
        destruct (Hle i d1 Hd1) as (d' & Hd' & _ & Hsub). exists d'. split; [done|]. by apply Hsub.
      * destruct Hfirst as [Hw _]. destruct Hrel as (_ & _ & Hlogs). by apply Hlogs.
    + specialize (Hrest id n Hin Hn).
      pose proof (relinked_local_proposal s s1 n Hrel1) as Hsame.
      destruct (local_proposal n s) as [[i d]|].
      * destruct Hsame as (d1 & Hfind1 & _). by rewrite Hfind1 in Hrest.
      * by rewrite Hsame in Hrest.
Qed.

(** C10. Let the ids associated with the cycle be fetched, each of them one
    that [int()] accepts.  Then [update_proposals_with_cycle] returns
    normally: for every id without a local proposal a warning is in the
    log, and every id with a local proposal has the cycle in its [cycles]
    afterwards, wherever it stands in the list. *)
Theorem linking_skips_missing_proposals (env : Env) (cycle_name : string) (s : State)
    (ids : list pyval) :
  fetch_proposals_for_cycle env s cycle_name = Ok ids →
  (∀ id, id ∈ ids → ∃ n, py_int id = Ok n) →
  ∃ s', update_proposals_with_cycle env cycle_name s = (Ok tt, s') ∧
        (∀ id n, id ∈ ids → py_int id = Ok n → local_proposal n s = None →
           missing_proposal_warning n ∈ logs s') ∧
        (∀ id n i d, id ∈ ids → py_int id = Ok n → local_proposal n s = Some (i, d) →
           ∃ d', db_proposals s' !! i = Some d' ∧ cycle_name ∈ Proposal.cycles d').
Proof.
  intros Hfetch Hints. unfold update_proposals_with_cycle.
  rewrite bind_run. simpl.
  erewrite bind_ok; [|unfold lift; by rewrite Hfetch].
  erewrite bind_ok; [|reflexivity].
  match goal with |- context [for_each ids _ ?s0] =>
    destruct (for_each_link_proposal cycle_name ids s0 Hints) as (s' & Hrun & _ & Hall)
  end.
  exists s'. split; [exact Hrun|]. split.
  - intros id n Hin Hn Hnone. specialize (Hall id n Hin Hn).
    unfold local_proposal in *. simpl in Hall. by rewrite Hnone in Hall.
  - intros id n i d Hin Hn Hsome. specialize (Hall id n Hin Hn).
    unfold local_proposal in *. simpl in Hall. by rewrite Hsome in Hall.
Qed.

Lemma linking_skips_missing_proposals_witness :
  let p := Fixtures.proposal42 [Fixtures.ada] (Some Fixtures.ada) in
  let env := Fixtures.env_with (Ok (RawProposal p)) Fixtures.lookup_ok in
  let s := (synchronize_proposal_from_pass env (PInt 42) Fixtures.empty_state).2 in
  local_proposal 43 s = None ∧
  ∃ s', update_proposals_with_cycle env "2024-1" s = (Ok tt, s') ∧
        missing_proposal_warning 43 ∈ logs s' ∧
        ∃ d', db_proposals s' !! 0%nat = Some d' ∧ "2024-1" ∈ Proposal.cycles d'.
Proof.
  cbv zeta. split; [vm_compute; reflexivity|].
  destruct (linking_skips_missing_proposals
              (Fixtures.env_with
                 (Ok (RawProposal (Fixtures.proposal42 [Fixtures.ada] (Some Fixtures.ada))))
                 Fixtures.lookup_ok)
              "2024-1"
              (synchronize_proposal_from_pass
                 (Fixtures.env_with
                    (Ok (RawProposal (Fixtures.proposal42 [Fixtures.ada] (Some Fixtures.ada))))
                    Fixtures.lookup_ok)
                 (PInt 42) Fixtures.empty_state).2
              [PStr "43"; PStr "42"])
    as (s' & Hrun & Hmissing & Hfound).
  - vm_compute. reflexivity.
  - intros id Hin. apply elem_of_cons in Hin as [->|Hin]; [by exists 43|].
    apply elem_of_cons in Hin as [->|Hin]; [by exists 42|]. by apply elem_of_nil in Hin.
  - exists s'. split; [exact Hrun|]. split.
    + apply (Hmissing (PStr "43") 43); [by left | reflexivity | vm_compute; reflexivity].
    + eapply (Hfound (PStr "42") 42); [right; by left | reflexivity | vm_compute; reflexivity].
Defined.

(** C10 as stated fails: the list of the cycle is 43, 4.2, 42, and only
    proposal 42 is in the store.  For 43 a warning is logged and the loop
    goes on; for 4.2, which has no local proposal either, [int()] raises a
    [ValueError] that the handler for [LookupError] does not catch: it
    leaves [update_proposals_with_cycle], and proposal 42 is never
    linked. *)
Lemma unparsable_id_stops_the_linking :
  let s := (synchronize_proposal_from_pass Fixtures.env_one_proposal (PInt 42)
              Fixtures.empty_state).2 in
  fetch_proposals_for_cycle Fixtures.env_bad_id s "2024-1"
  = Ok [PStr "43"; PStr "4.2"; PStr "42"] ∧
  local_proposal 43 s = None ∧
  (∃ d, local_proposal 42 s = Some (0%nat, d)) ∧
  ∃ s', update_proposals_with_cycle Fixtures.env_bad_id "2024-1" s
        = (Err (Raise ValueErrorC "invalid literal for int() with base 10: '4.2'"), s') ∧
        missing_proposal_warning 43 ∈ logs s' ∧
        ∃ d', db_proposals s' !! 0%nat = Some d' ∧ Proposal.cycles d' = [].
Proof.
  cbv zeta. split; [reflexivity|]. split; [vm_compute; reflexivity|].
  split; [eexists; vm_compute; reflexivity|].
  eexists. split; [vm_compute; reflexivity|]. split.
  - apply (bool_decide_unpack _). vm_compute. exact I.
  - eexists. split; vm_compute; reflexivity.
Qed.

(** * Further properties of the engine *)

(** ** pass_service: what the fetch functions do with a failure *)

(** X1. [get_proposal] never raises and never touches the store or the
    clock.  It returns the record exactly when the web service answered with
    a mapping that [PassProposal] accepts, and then logs nothing; in every
    other case it returns [None] and logs one error. *)
Theorem get_proposal_returns_the_record_or_none (env : Env) (proposal_id : pyval) (s : State) :
  ∃ o s', pass_service.get_proposal env proposal_id s = (Ok o, s') ∧
          store_eq s s' ∧ clock s' = clock s ∧
          (∀ p, o = Some p ↔
                _call_async_webservice env (proposal_url env proposal_id) = Ok (RawProposal p)) ∧
          match o with
          | Some _ => logs s' = logs s
          | None => ∃ msg, logs s' = logs s ++ [(ERROR, msg)]
          end.
Proof.
  unfold pass_service.get_proposal, try_except, proposal_url, RawProposal.
  rewrite !bind_run. unfold lift.
  destruct (_call_async_webservice env _) as [r|e]; simpl.
  - destruct r as [|o|l]; [|destruct o|]; simpl; try case_bool_decide; run_monad;
      (eexists _, _; split; [reflexivity|]; split; [by repeat split|]; split; [done|];
       split; [intros p0; split; congruence | by eauto]).
  - case_bool_decide; run_monad;
      (eexists _, _; split; [reflexivity|]; split; [by repeat split|]; split; [done|];
       split; [intros p0; split; congruence | by eauto]).
Qed.

Global Instance ObjProposalType_inj : Inj (=) (=) ObjProposalType.
Proof. by intros t1 t2 [= ->]. Qed.

(** The loop over the elements of an array succeeds exactly on an array of
    proposal types. *)
Lemma append_proposal_types_spec (items : list json_object) (acc : list PassProposalType) :
  match pass_service.append_proposal_types (Dict <$> items) acc with
  | Ok l0 => ∃ l, items = ObjProposalType <$> l ∧ l0 = acc ++ l
  | Err _ => ∀ l, items ≠ ObjProposalType <$> l
  end.
Proof.
  revert acc. induction items as [|x items IH]; intros acc; simpl.
  - exists []. by rewrite app_nil_r.
  - destruct x as [p|t|c|saf|d]; simpl; try (intros [|t' l]; discriminate).
    change (list_fmap json_object element Dict items) with (Dict <$> items).
    specialize (IH (acc ++ [t])).
    destruct (pass_service.append_proposal_types (Dict <$> items) (acc ++ [t])) as [l0|e].
    + destruct IH as (l & -> & ->). exists (t :: l). by rewrite <- app_assoc.
    + intros [|t' l]; [discriminate|]. intros [= <- Heq]. by eapply IH.
Qed.

(** What [get_proposal_types] makes of a response. *)
Lemma validate_proposal_types_spec (r : raw) :
  match pass_service.validate_proposal_types r with
  | Ok l => r = RawProposalTypes l ∨ (r = RawNull ∧ l = [])
  | Err _ => (∀ l, r ≠ RawProposalTypes l) ∧ r ≠ RawNull
  end.
Proof.
  destruct r as [|o|[|x items]]; cbn [pass_service.validate_proposal_types].
  - by right.
  - simpl. split; [intros l; discriminate | discriminate].
  - by left.
  - pose proof (append_proposal_types_spec (x :: items) []) as Hspec.
    change (iterate (RawArray (x :: items))) with (Ok (Dict <$> x :: items)).
    cbv beta iota.
    destruct (pass_service.append_proposal_types _ _) as [l0|e].
    + destruct Hspec as (l & Heq & ->). left. unfold RawProposalTypes. by rewrite Heq.
    + split; [|discriminate]. intros l [= Heq]. by eapply Hspec.
Qed.

(** X2. [get_proposal_types] never raises and never touches the store or
    the clock.  It returns the list of types PASS sent, the empty list when
    PASS sent nothing, and [None] with one logged error when the request
    failed or an entry was rejected. *)
Theorem get_proposal_types_returns_the_list_or_none (env : Env) (s : State) :
  let url := base_url env +:+ "/Proposal/GetProposalTypes/" +:+ api_key env +:+ "/NSLS-II" in
  ∃ o s', pass_service.get_proposal_types env s = (Ok o, s') ∧
          store_eq s s' ∧ clock s' = clock s ∧
          (∀ l, o = Some l ↔
                (_call_async_webservice env url = Ok (RawProposalTypes l) ∨
                 (_call_async_webservice env url = Ok RawNull ∧ l = []))) ∧
          match o with
          | Some _ => logs s' = logs s
          | None => ∃ msg, logs s' = logs s ++ [(ERROR, msg)]
          end.
Proof.
  cbv zeta. unfold pass_service.get_proposal_types, try_except. rewrite !bind_run. unfold lift.
  destruct (_call_async_webservice env _) as [r|e]; simpl.
  - pose proof (validate_proposal_types_spec r) as Hspec.
    destruct (pass_service.validate_proposal_types r) as [l|e]; simpl.
    + eexists _, _. split; [reflexivity|]. split; [by repeat split|]. split; [done|].
      split; [|done]. intros l0. split.
      * intros [= <-]. destruct Hspec as [->|[-> ->]]; by eauto.
      * intros [Heq|[Heq ->]]; injection Heq as ->.
        -- destruct Hspec as [Hr|[Hr ->]]; unfold RawProposalTypes in Hr; [|discriminate].
           injection Hr as Hr. by apply (inj (fmap ObjProposalType)) in Hr as ->.
        -- destruct Hspec as [Hr|[_ ->]]; [discriminate | done].
    + destruct Hspec as [Hno Hnull].
      case_bool_decide; run_monad;
        (eexists _, _; split; [reflexivity|]; split; [by repeat split|]; split; [done|];
         split; [intros l0; split; [congruence | intros [[= ->]|[[= ->] _]]; [by edestruct Hno | done]]
                | by eauto]).
  - case_bool_decide; run_monad;
      (eexists _, _; split; [reflexivity|]; split; [by repeat split|]; split; [done|];
       split; [intros l0; split; [congruence | intros [?|[? ?]]; congruence] | by eauto]).
Qed.

(** X3. When every request to PASS fails with [e]: [get_proposal] and
    [get_proposal_types] return [None], while the six other fetch functions
    raise [e] itself, having logged nothing. *)
Theorem pass_outage_reaches_the_caller_except_for_two (env : Env) (e : exn) (s : State)
    (proposal_id : pyval) (year : Z) (bnl_id : string) :
  (∀ url, _call_async_webservice env url = Err e) →
  (∃ s', pass_service.get_proposal env proposal_id s = (Ok None, s')) ∧
  (∃ s', pass_service.get_proposal_types env s = (Ok None, s')) ∧
  pass_service.get_saf_from_proposal env proposal_id s = (Err e, s) ∧
  pass_service.get_commissioning_proposals_by_year env year s = (Err e, s) ∧
  pass_service.get_pass_resources env s = (Err e, s) ∧
  pass_service.get_cycles env s = (Err e, s) ∧
  pass_service.get_proposals_allocated env s = (Err e, s) ∧
  pass_service.get_proposals_by_person env bnl_id s = (Err e, s).
Proof.
  intros Hdown.
  unfold pass_service.get_proposal, pass_service.get_proposal_types,
    pass_service.get_saf_from_proposal, pass_service.get_commissioning_proposals_by_year,
    pass_service.get_pass_resources, pass_service.get_cycles,
    pass_service.get_proposals_allocated, pass_service.get_proposals_by_person, try_except.
  rewrite !bind_run. unfold lift. rewrite !Hdown. simpl.
  split; [case_bool_decide; run_monad; by eauto|].
  split; [case_bool_decide; run_monad; by eauto|].
  by repeat split.
Qed.

Lemma pass_outage_reaches_the_caller_except_for_two_witness :
  let env := Fixtures.env_down in
  let s := Fixtures.empty_state in
  (∃ s', pass_service.get_proposal env (PInt 42) s = (Ok None, s')) ∧
  (∃ s', pass_service.get_proposal_types env s = (Ok None, s')) ∧
  pass_service.get_saf_from_proposal env (PInt 42) s = (Err Fixtures.http_error, s) ∧
  pass_service.get_commissioning_proposals_by_year env 2024 s = (Err Fixtures.http_error, s) ∧
  pass_service.get_pass_resources env s = (Err Fixtures.http_error, s) ∧
  pass_service.get_cycles env s = (Err Fixtures.http_error, s) ∧
  pass_service.get_proposals_allocated env s = (Err Fixtures.http_error, s) ∧
  pass_service.get_proposals_by_person env "B123" s = (Err Fixtures.http_error, s).
Proof.
  cbv zeta.
  apply (pass_outage_reaches_the_caller_except_for_two Fixtures.env_down Fixtures.http_error
           Fixtures.empty_state (PInt 42) 2024 "B123").
  intros url. reflexivity.
Defined.

(** ** The proposal reconciler: failures and the user list *)

Ltac run_monad_in H :=
  unfold mbind, M_bind, bind, mret, M_ret, ret, raise, lift, logger, now, get_state in H;
  simpl in H.

(** X4. Without a well-formed remote record the reconciliation always
    fails and leaves the three collections as they were.  The error is the
    [AttributeError] of [saf.Resources] when PASS lists a safety form for
    the proposal, and the [AttributeError] of [pass_proposal.Resources] on
    [None] when it lists none. *)
Theorem reconciliation_without_record_stores_nothing (env : Env) (proposal_id : pyval)
    (s : State) :
  (∀ p, _call_async_webservice env (proposal_url env proposal_id) ≠ Ok (RawProposal p)) →
  ∃ e s', synchronize_proposal_from_pass env proposal_id s = (Err e, s') ∧
          store_eq s s' ∧
          (∀ saf rest,
             _call_async_webservice env (saf_url env proposal_id) = Ok (RawArray (saf :: rest)) →
             e = Raise AttributeErrorC "'dict' object has no attribute 'Resources'") ∧
          (_call_async_webservice env (saf_url env proposal_id) = Ok (RawSafs []) →
           e = none_has_no_attribute "Resources").
Proof.
  intros Hno. unfold synchronize_proposal_from_pass. rewrite bind_run.
  pose proof (preserves_reconcile_proposal store_eq (λ _ _ H, H) env proposal_id s) as Hs1.
  destruct (reconcile_proposal env proposal_id s) as [[r|e] s1] eqn:Hrec.
  { apply reconcile_proposal_ok_inv in Hrec as (Hremote & _). by destruct (Hno _ Hremote). }
  exists e, s1. split; [done|]. split; [exact Hs1|]. split.
  - intros saf rest Hsafs.
    destruct (reconcile_proposal_with_safs env proposal_id s saf rest Hsafs) as (s' & Hrec').
    congruence.
  - intros Hsafs.
    destruct (get_proposal_never_raises env proposal_id s) as (o & s0 & Hget & _).
    destruct o as [p|]; [apply get_proposal_some_inv in Hget; by destruct (Hno _ Hget)|].
    unfold reconcile_proposal in Hrec.
    erewrite bind_ok in Hrec; [|by apply try_except_ok].
    erewrite bind_ok in Hrec;
      [|unfold pass_service.get_saf_from_proposal, lift; fold (saf_url env proposal_id);
        by rewrite Hsafs].
    erewrite bind_ok in Hrec; [|reflexivity].
    erewrite bind_ok in Hrec; [|reflexivity].
    erewrite bind_err in Hrec; [|reflexivity]. congruence.
Qed.

Lemma reconciliation_without_record_stores_nothing_witness :
  let env := Fixtures.env_with (Ok RawNull) Fixtures.lookup_ok in
  ∃ e s', synchronize_proposal_from_pass env (PInt 42) Fixtures.empty_state = (Err e, s') ∧
          store_eq Fixtures.empty_state s' ∧
          (∀ saf rest,
             _call_async_webservice env (saf_url env (PInt 42)) = Ok (RawArray (saf :: rest)) →
             e = Raise AttributeErrorC "'dict' object has no attribute 'Resources'") ∧
          (_call_async_webservice env (saf_url env (PInt 42)) = Ok (RawSafs []) →
           e = none_has_no_attribute "Resources").
Proof.
  cbv zeta.
  apply (reconciliation_without_record_stores_nothing
           (Fixtures.env_with (Ok RawNull) Fixtures.lookup_ok) (PInt 42) Fixtures.empty_state).
  intros p. vm_compute. discriminate.
Defined.

(** The experimenter loop, when it returns, has added one entry per
    experimenter, in order. *)
Lemma experimenters_loop_entries (env : Env) (proposal_id : pyval) (pi : PassPerson)
    (l : list PassPerson) (acc : list User.t) (found : bool)
    (s s' : State) (ul : list User.t) (found' : bool) :
  experimenters_loop env proposal_id (Some pi) l acc found s = (Ok (ul, found'), s') →
  ul = acc ++ (experimenter_entry env pi <$> l).
Proof.
  revert acc found s. induction l as [|u l IH]; intros acc found s; simpl.
  - intros [= <- _ _]. by rewrite app_nil_r.
  - rewrite bind_run. unfold try_except, lift.
    intros Hrun.
    assert (∀ o s1, experimenters_loop env proposal_id (Some pi) l
                      (acc ++ [User.mk (First_Name u) (Last_Name u) (Email u) (BNL_ID u) o
                                 (bool_decide (casefold (BNL_ID pi) = casefold (BNL_ID u)))])
                      (if bool_decide (casefold (BNL_ID pi) = casefold (BNL_ID u))
                       then true else found) s1 = (Ok (ul, found'), s') →
                    o = username_of env (BNL_ID u) →
                    ul = acc ++ experimenter_entry env pi u :: (experimenter_entry env pi <$> l))
      as Hstep.
    { intros o s1 Hloop ->. apply IH in Hloop. by rewrite <- app_assoc in Hloop. }
    unfold username_of in Hstep.
    destruct (get_username_by_id env (BNL_ID u)) as [r|e]; simpl in Hrun.
    + by eapply Hstep.
    + destruct (bool_decide (exn_cls e = HTTPStatusErrorC)); run_monad_in Hrun; [|discriminate].
      by eapply Hstep.
Qed.

(** X5. When the user list is built, it is the list of the experimenters
    in the order of the remote record, each flagged as PI exactly when the id
    is the PI's up to case, followed by an entry for the PI when no
    experimenter was flagged; a username is the answer of the lookup, and
    null for an experimenter whose lookup failed.  Without a PI the list is
    empty. *)
Theorem user_list_is_experimenters_then_pi (env : Env) (proposal_id : pyval)
    (p : PassProposal) (s s' : State) (ul : list User.t) :
  build_user_list env proposal_id p s = (Ok ul, s') →
  ul = expected_users env p.
Proof.
  unfold expected_users. destruct (PI p) as [pi|] eqn:HPI.
  - unfold build_user_list. rewrite HPI. intros Hrun.
    apply bind_ok_inv in Hrun as ([ul0 found] & s1 & Hloop & Hadd).
    pose proof (experimenters_loop_entries _ _ _ _ _ _ _ _ _ _ Hloop) as ->.
    apply experimenters_loop_count in Hloop as [_ ->]. simpl in Hadd.
    destruct (pi_matches pi (Experimenters p)) as [|k]; simpl in Hadd.
    + apply bind_ok_inv in Hadd as (r & s2 & Hr & Hadd). injection Hadd as <- _.
      unfold pi_entry, username_of. unfold lift in Hr. injection Hr as -> _. reflexivity.
    + injection Hadd as <- _. simpl. by rewrite app_nil_r.
  - intros Hrun. destruct (build_user_list_no_pi env proposal_id p s HPI) as (s1 & Hno & _).
    congruence.
Qed.

Lemma user_list_is_experimenters_then_pi_witness :
  let p := Fixtures.proposal42 [Fixtures.bob; Fixtures.ada_lower] (Some Fixtures.ada) in
  let env := Fixtures.env_with (Ok (RawProposal p)) Fixtures.lookup_ok in
  [ User.mk "Bob" "Boyle" "bob@bnl.gov" "B456" (Some "uB456") false;
    User.mk "Ada" "Lovelace" "ada@bnl.gov" "b123" (Some "ub123") true ]
  = expected_users env p.
Proof.
  cbv zeta.
  apply (user_list_is_experimenters_then_pi
           (Fixtures.env_with
              (Ok (RawProposal (Fixtures.proposal42 [Fixtures.bob; Fixtures.ada_lower]
                                  (Some Fixtures.ada))))
              Fixtures.lookup_ok)
           (PInt 42)
           (Fixtures.proposal42 [Fixtures.bob; Fixtures.ada_lower] (Some Fixtures.ada))
           Fixtures.empty_state Fixtures.empty_state).
  vm_compute. reflexivity.
Defined.

(** One round of the experimenter loop for a lookup that answers or fails
    with an HTTP status error. *)
Lemma experimenters_loop_step (env : Env) (proposal_id : pyval) (pi u : PassPerson)
    (l : list PassPerson) (acc : list User.t) (found : bool) (s : State) :
  tolerated (get_username_by_id env (BNL_ID u)) = true →
  ∃ s1, experimenters_loop env proposal_id (Some pi) (u :: l) acc found s
        = experimenters_loop env proposal_id (Some pi) l
            (acc ++ [experimenter_entry env pi u])
            (bool_decide (casefold (BNL_ID pi) = casefold (BNL_ID u)) || found) s1.
Proof.
  intros Htol. simpl. rewrite bind_run. unfold try_except, lift, experimenter_entry, username_of.
  destruct (get_username_by_id env (BNL_ID u)) as [r|e]; simpl in *.
  - by exists s.
  - rewrite Htol. run_monad. by eexists.
Qed.

Lemma experimenters_loop_tolerated (env : Env) (proposal_id : pyval) (pi : PassPerson)
    (l : list PassPerson) (acc : list User.t) (found : bool) (s : State) :
  Forall (λ u, tolerated (get_username_by_id env (BNL_ID u)) = true) l →
  ∃ s', experimenters_loop env proposal_id (Some pi) l acc found s
        = (Ok (acc ++ (experimenter_entry env pi <$> l),
               found || bool_decide (0 < pi_matches pi l)%nat), s').
Proof.
  intros Hl. revert acc found s.
  induction Hl as [|u l Hu _ IH]; intros acc found s.
  - exists s. simpl. by rewrite app_nil_r, orb_false_r.
  - destruct (experimenters_loop_step env proposal_id pi u l acc found s Hu) as [s1 ->].
    destruct (IH (acc ++ [experimenter_entry env pi u])
                 (bool_decide (casefold (BNL_ID pi) = casefold (BNL_ID u)) || found) s1)
      as [s' ->].
    exists s'. rewrite <- app_assoc, pi_matches_cons. simpl. do 3 f_equal.
    destruct (bool_decide (casefold _ = casefold _)); simpl; [by rewrite orb_true_r | done].
Qed.

(** X6. When every experimenter's lookup answers or fails with an HTTP
    status error, and the lookup of a PI who is not among the experimenters
    answers, the user list is built: the loop never aborts, a failed lookup
    only leaves the username null, and the store is not touched. *)
Theorem http_errors_on_experimenters_never_abort (env : Env) (proposal_id : pyval)
    (p : PassProposal) (s : State) :
  Forall (λ u, tolerated (get_username_by_id env (BNL_ID u)) = true) (Experimenters p) →
  (∀ pi, PI p = Some pi → pi_matches pi (Experimenters p) = 0%nat →
         ∃ r, get_username_by_id env (BNL_ID pi) = Ok r) →
  ∃ s', build_user_list env proposal_id p s = (Ok (expected_users env p), s') ∧
        store_eq s s'.
Proof.
  intros Hexp Hpi.
  cut (∃ s', build_user_list env proposal_id p s = (Ok (expected_users env p), s')).
  { intros [s' Hrun]. exists s'. split; [done|].
    pose proof (preserves_build_user_list store_eq (λ _ _ H, H) env proposal_id p s) as Hs.
    by rewrite Hrun in Hs. }
  unfold expected_users. destruct (PI p) as [pi|] eqn:HPI.
  - unfold build_user_list. rewrite HPI.
    destruct (experimenters_loop_tolerated env proposal_id pi (Experimenters p) [] false s Hexp)
      as [s1 Hloop].
    rewrite bind_run, Hloop. simpl.
    destruct (pi_matches pi (Experimenters p)) as [|k] eqn:Hm; simpl.
    + destruct (Hpi pi eq_refl Hm) as [r Hr].
      rewrite bind_run. unfold lift, pi_entry, username_of. rewrite Hr. by eexists.
    + rewrite app_nil_r. by eexists.
  - destruct (build_user_list_no_pi env proposal_id p s HPI) as (s' & Hrun & _). by exists s'.
Qed.

Lemma http_errors_on_experimenters_never_abort_witness :
  let p := Fixtures.proposal42 [Fixtures.bob; Fixtures.ada] (Some Fixtures.ada) in
  let env := Fixtures.env_with (Ok (RawProposal p)) Fixtures.lookup_down in
  ∃ s', build_user_list env (PInt 42) p Fixtures.empty_state
        = (Ok [ User.mk "Bob" "Boyle" "bob@bnl.gov" "B456" None false;
                User.mk "Ada" "Lovelace" "ada@bnl.gov" "B123" None true ], s') ∧
        store_eq Fixtures.empty_state s'.
Proof.
  cbv zeta.
  apply (http_errors_on_experimenters_never_abort
           (Fixtures.env_with
              (Ok (RawProposal (Fixtures.proposal42 [Fixtures.bob; Fixtures.ada]
                                  (Some Fixtures.ada))))
              Fixtures.lookup_down)
           (PInt 42) (Fixtures.proposal42 [Fixtures.bob; Fixtures.ada] (Some Fixtures.ada))
           Fixtures.empty_state).
  - repeat constructor.
  - intros pi [= <-]. vm_compute. discriminate.
Defined.

(** X7. Only HTTP status errors are tolerated: when the lookup of an
    experimenter raises anything else, and the record has a PI, the error
    leaves [build_user_list], whatever comes after that experimenter. *)
Theorem other_lookup_errors_abort (env : Env) (proposal_id : pyval) (p : PassProposal)
    (pi : PassPerson) (before : list PassPerson) (u : PassPerson) (after : list PassPerson)
    (e : exn) (s : State) :
  PI p = Some pi →
  Experimenters p = before ++ u :: after →
  Forall (λ u, tolerated (get_username_by_id env (BNL_ID u)) = true) before →
  get_username_by_id env (BNL_ID u) = Err e →
  issubclass (exn_cls e) HTTPStatusErrorC = false →
  ∃ s', build_user_list env proposal_id p s = (Err e, s') ∧ store_eq s s'.
Proof.
  intros HPI Hexp Hbefore Hu He.
  cut (∃ s', build_user_list env proposal_id p s = (Err e, s')).
  { intros [s' Hrun]. exists s'. split; [done|].
    pose proof (preserves_build_user_list store_eq (λ _ _ H, H) env proposal_id p s) as Hs.
    by rewrite Hrun in Hs. }
  unfold build_user_list. rewrite HPI, Hexp.
  cut (∀ acc found s0, ∃ s', experimenters_loop env proposal_id (Some pi)
                               (before ++ u :: after) acc found s0 = (Err e, s')).
  { intros Hloop. destruct (Hloop [] false s) as [s' Hrun]. exists s'.
    by rewrite bind_run, Hrun. }
  clear Hexp. induction Hbefore as [|b before Hb _ IH]; intros acc found s0.
  - exists s0. simpl. rewrite bind_run. unfold try_except, lift. rewrite Hu. simpl.
    simpl in He. by rewrite He.
  - rewrite <- app_comm_cons.
    destruct (experimenters_loop_step env proposal_id pi b (before ++ u :: after) acc found s0 Hb)
      as [s1 ->].
    apply IH.
Qed.

Lemma other_lookup_errors_abort_witness :
  let p := Fixtures.proposal42 [Fixtures.bob; Fixtures.ada] (Some Fixtures.ada) in
  let env := Fixtures.env_with (Ok (RawProposal p)) Fixtures.lookup_unreachable in
  ∃ s', build_user_list env (PInt 42) p Fixtures.empty_state = (Err Fixtures.connect_error, s') ∧
        store_eq Fixtures.empty_state s'.
Proof.
  cbv zeta.
  apply (other_lookup_errors_abort
           (Fixtures.env_with
              (Ok (RawProposal (Fixtures.proposal42 [Fixtures.bob; Fixtures.ada]
                                  (Some Fixtures.ada))))
              Fixtures.lookup_unreachable)
           (PInt 42) (Fixtures.proposal42 [Fixtures.bob; Fixtures.ada] (Some Fixtures.ada))
           Fixtures.ada [] Fixtures.bob [Fixtures.ada]).
  - reflexivity.
  - reflexivity.
  - constructor.
  - reflexivity.
  - reflexivity.
Defined.

(** ** The proposal upsert: insertion, update and repetition *)

Section upsert_find.
Context {D : Type} (P : D → Prop) `{∀ d, Decision (P d)}.

(** After an upsert whose [Set] keeps the key and whose inserted document
    carries it, the query finds the document the upsert wrote. *)
Lemma upsert_find_one (f : D → D) (new : D) (c : list D) :
  (∀ d, P d → P (f d)) → P new →
  ∃ d, Beanie.find_one P (Beanie.upsert P f new c) = Some (Beanie.upsert_index P c, d) ∧
       (d = new ∨ ∃ d0, c !! Beanie.upsert_index P c = Some d0 ∧ d = f d0).
Proof.
  intros Hf Hnew. unfold Beanie.upsert, Beanie.upsert_index, Beanie.find_one.
  destruct (list_find P c) as [[j x]|] eqn:Hfind.
  - apply list_find_Some in Hfind as (Hx & HP & Hleast).
    exists (f x). split; [|right; by exists x].
    apply list_find_Some. split; [by rewrite list_lookup_alter_eq, Hx|].
    split; [by apply Hf|].
    intros k y Hy Hlt. rewrite list_lookup_alter_ne in Hy by lia. by eapply Hleast.
  - exists new. split; [|by left].
    apply list_find_Some. split; [by rewrite lookup_app_r, Nat.sub_diag|]. split; [done|].
    intros k y Hy Hlt. rewrite lookup_app_l in Hy by done.
    apply list_find_None in Hfind. by eapply (proj1 (Forall_lookup _ _) Hfind).
Qed.

(** When the inserted document does not carry the key of the query, the
    query still finds nothing afterwards. *)
Lemma upsert_find_none (f : D → D) (new : D) (c : list D) :
  Beanie.find_one P c = None → ¬P new →
  Beanie.upsert P f new c = c ++ [new] ∧ Beanie.find_one P (c ++ [new]) = None.
Proof.
  intros Hnone Hnew. unfold Beanie.upsert. rewrite Hnone. split; [done|].
  unfold Beanie.find_one in *. apply list_find_app_None. split; [done|].
  apply list_find_None. by repeat constructor.
Qed.
End upsert_find.

(** The state that [upsert_proposal] leaves. *)
Lemma upsert_proposal_state (env : Env) (proposal_id : pyval) (r : reconciled) (s : State) :
  ∃ s' new, upsert_proposal env proposal_id r s = (Ok tt, s') ∧
    db_cycles s' = db_cycles s ∧ db_proposal_types s' = db_proposal_types s ∧
    db_proposals s'
    = Beanie.upsert (λ d, Proposal.proposal_id d = py_str proposal_id)
        (Set_proposal (Title (pass_proposal r))
           (generate_data_session_for_proposal env proposal_id)
           (pretty (Proposal_Type_ID (pass_proposal r)))
           (Proposal_Type_Description (pass_proposal r))
           (beamline_list r) (saf_list r) (user_list r) (clock s + 1))
        new (db_proposals s) ∧
    new = Proposal.mk (pretty (Proposal_ID (pass_proposal r))) (Title (pass_proposal r))
            (generate_data_session_for_proposal env proposal_id)
            (pretty (Proposal_Type_ID (pass_proposal r)))
            (Proposal_Type_Description (pass_proposal r))
            (beamline_list r) (saf_list r) (user_list r) [] (Some (clock s)).
Proof. unfold upsert_proposal. run_monad. eexists _, _. by repeat split. Qed.

(** A completed reconciliation, taken apart. *)
Lemma synchronize_proposal_ok_inv (env : Env) (proposal_id : pyval) (s s' : State)
    (p : PassProposal) :
  _call_async_webservice env (proposal_url env proposal_id) = Ok (RawProposal p) →
  synchronize_proposal_from_pass env proposal_id s = (Ok tt, s') →
  ∃ r s1, reconcile_proposal env proposal_id s = (Ok r, s1) ∧ pass_proposal r = p ∧
          store_eq s s1 ∧ upsert_proposal env proposal_id r s1 = (Ok tt, s').
Proof.
  intros Hremote Hrun. unfold synchronize_proposal_from_pass in Hrun.
  apply bind_ok_inv in Hrun as (r & s1 & Hrec & Hup). exists r, s1.
  pose proof (preserves_reconcile_proposal store_eq (λ _ _ H, H) env proposal_id s) as Hs1.
  rewrite Hrec in Hs1. split; [done|].
  apply reconcile_proposal_ok_inv in Hrec as (Hremote' & _). split; [|done].
  rewrite Hremote in Hremote'. by injection Hremote'.
Qed.

(** X8. A completed reconciliation leaves, at the position the upsert is
    keyed to, a document with the title, the type id and the type
    description of the remote record and the data session of the requested
    id.  When no stored proposal had the requested id, that document is new:
    it is appended, carries the id of the remote record and belongs to no
    cycle.  Otherwise no document is added, and the first proposal with the
    requested id is the one updated: it keeps its id and its cycles. *)
Theorem reconciliation_inserts_or_updates (env : Env) (proposal_id : pyval) (s s' : State)
    (p : PassProposal) :
  _call_async_webservice env (proposal_url env proposal_id) = Ok (RawProposal p) →
  synchronize_proposal_from_pass env proposal_id s = (Ok tt, s') →
  ∃ d, db_proposals s' !! proposal_index proposal_id s = Some d ∧
       Proposal.title d = Title p ∧
       Proposal.data_session d = generate_data_session_for_proposal env proposal_id ∧
       Proposal.pass_type_id d = pretty (Proposal_Type_ID p) ∧
       Proposal.type d = Proposal_Type_Description p ∧
       match find_proposal (py_str proposal_id) s with
       | None =>
           db_proposals s' = db_proposals s ++ [d] ∧
           Proposal.proposal_id d = pretty (Proposal_ID p) ∧ Proposal.cycles d = []
       | Some (i, d0) =>
           i = proposal_index proposal_id s ∧
           length (db_proposals s') = length (db_proposals s) ∧
           Proposal.proposal_id d = Proposal.proposal_id d0 ∧
           Proposal.cycles d = Proposal.cycles d0
       end.
Proof.
  intros Hremote Hrun.
  destruct (synchronize_proposal_ok_inv env proposal_id s s' p Hremote Hrun)
    as (r & s1 & _ & <- & (_ & Hprop & _) & Hup).
  destruct (upsert_proposal_state env proposal_id r s1)
    as (s2 & new & Hup' & _ & _ & Hdb & Hnew).
  rewrite Hup in Hup'. injection Hup' as <-. rewrite Hprop in Hdb.
  unfold proposal_index, find_proposal, Beanie.upsert_index. rewrite Hdb. unfold Beanie.upsert.
  destruct (Beanie.find_one _ (db_proposals s)) as [[i d0]|] eqn:Hfind.
  - apply list_find_Some in Hfind as (Hd0 & _).
    eexists. rewrite list_lookup_alter_eq, Hd0. simpl. split; [done|].
    rewrite length_alter. by repeat split.
  - exists new. rewrite lookup_app_r, Nat.sub_diag by done. rewrite Hnew. by repeat split.
Qed.

Lemma reconciliation_inserts_or_updates_witness :
  let p := Fixtures.proposal42 [Fixtures.ada] (Some Fixtures.ada) in
  let env := Fixtures.env_with (Ok (RawProposal p)) Fixtures.lookup_ok in
  let s := Fixtures.empty_state in
  let s' := (synchronize_proposal_from_pass env (PInt 42) s).2 in
  ∃ d, db_proposals s' !! proposal_index (PInt 42) s = Some d ∧
       Proposal.title d = "Structure of ice" ∧
       Proposal.data_session d = "pass-42" ∧
       Proposal.pass_type_id d = "7" ∧
       Proposal.type d = "General User" ∧
       match find_proposal "42" s with
       | None =>
           db_proposals s' = db_proposals s ++ [d] ∧
           Proposal.proposal_id d = "42" ∧ Proposal.cycles d = []
       | Some (i, d0) =>
           i = proposal_index (PInt 42) s ∧
           length (db_proposals s') = length (db_proposals s) ∧
           Proposal.proposal_id d = Proposal.proposal_id d0 ∧
           Proposal.cycles d = Proposal.cycles d0
       end.
Proof.
  cbv zeta.
  apply (reconciliation_inserts_or_updates
           (Fixtures.env_with
              (Ok (RawProposal (Fixtures.proposal42 [Fixtures.ada] (Some Fixtures.ada))))
              Fixtures.lookup_ok)
           (PInt 42) Fixtures.empty_state _
           (Fixtures.proposal42 [Fixtures.ada] (Some Fixtures.ada))).
  - vm_compute. reflexivity.
  - vm_compute. reflexivity.
Defined.

(** X9. When PASS answers the request for one id with the record of
    another and no stored proposal has the requested id, a completed
    reconciliation appends a document under the id of the record, and the
    requested id is still not in the store: the next reconciliation of the
    same id appends again. *)
Theorem mismatched_record_is_appended (env : Env) (proposal_id : pyval) (s s' : State)
    (p : PassProposal) :
  _call_async_webservice env (proposal_url env proposal_id) = Ok (RawProposal p) →
  pretty (Proposal_ID p) ≠ py_str proposal_id →
  find_proposal (py_str proposal_id) s = None →
  synchronize_proposal_from_pass env proposal_id s = (Ok tt, s') →
  (∃ d, db_proposals s' = db_proposals s ++ [d] ∧
        Proposal.proposal_id d = pretty (Proposal_ID p)) ∧
  find_proposal (py_str proposal_id) s' = None.
Proof.
  intros Hremote Hne Hnone Hrun.
  destruct (synchronize_proposal_ok_inv env proposal_id s s' p Hremote Hrun)
    as (r & s1 & _ & <- & (_ & Hprop & _) & Hup).
  destruct (upsert_proposal_state env proposal_id r s1)
    as (s2 & new & Hup' & _ & _ & Hdb & Hnew).
  rewrite Hup in Hup'. injection Hup' as <-. rewrite Hprop in Hdb.
  unfold find_proposal in *.
  edestruct (upsert_find_none (λ d, Proposal.proposal_id d = py_str proposal_id))
    as [Happ Hstill]; [exact Hnone| |].
  2:{ rewrite Happ in Hdb. rewrite Hdb. split; [|exact Hstill].
      exists new. split; [done|]. by rewrite Hnew. }
  by rewrite Hnew.
Qed.

Lemma mismatched_record_is_appended_witness :
  let s := Fixtures.empty_state in
  let s' := (synchronize_proposal_from_pass Fixtures.env_padded (PStr "042") s).2 in
  (∃ d, db_proposals s' = db_proposals s ++ [d] ∧ Proposal.proposal_id d = "42") ∧
  find_proposal "042" s' = None.
Proof.
  cbv zeta.
  apply (mismatched_record_is_appended Fixtures.env_padded (PStr "042") Fixtures.empty_state _
           (Fixtures.proposal42 [Fixtures.ada] (Some Fixtures.ada))).
  - vm_compute. reflexivity.
  - vm_compute. discriminate.
  - reflexivity.
  - vm_compute. reflexivity.
Defined.

(** ** Computations whose value does not depend on the state *)

Lemma state_blind_ret {A} (a : A) : state_blind (mret a : M A).
Proof. by intros s1 s2. Qed.

Lemma state_blind_raise {A} (e : exn) : state_blind (@raise A e).
Proof. by intros s1 s2. Qed.

Lemma state_blind_lift {A} (r : result A) : state_blind (lift r).
Proof. by intros s1 s2. Qed.

Lemma state_blind_logger (lvl : log_level) (msg : string) : state_blind (logger lvl msg).
Proof. by intros s1 s2. Qed.

Lemma state_blind_bind {A B} (m : M A) (k : A → M B) :
  state_blind m → (∀ a, state_blind (k a)) → state_blind (m ≫= k).
Proof.
  intros Hm Hk s1 s2. rewrite !bind_run. specialize (Hm s1 s2).
  destruct (m s1) as [[a1|e1] s1'], (m s2) as [[a2|e2] s2']; simplify_eq/=; [apply Hk | done].
Qed.

Lemma state_blind_except_clauses {A} (e : exn) (cl : list (result exn_class * (exn → M A))) :
  Forall (λ c, ∀ e', state_blind (c.2 e')) cl → state_blind (except_clauses e cl).
Proof.
  induction 1 as [|[[c|e'] h] cl Hh _ IH]; simpl.
  - apply state_blind_raise.
  - destruct (issubclass _ _); [apply Hh | apply IH].
  - apply state_blind_raise.
Qed.

Lemma state_blind_try_except {A} (body : M A) (cl : list (result exn_class * (exn → M A))) :
  state_blind body → Forall (λ c, ∀ e', state_blind (c.2 e')) cl →
  state_blind (try_except body cl).
Proof.
  intros Hb Hcl s1 s2. unfold try_except. specialize (Hb s1 s2).
  destruct (body s1) as [[a1|e1] s1'], (body s2) as [[a2|e2] s2']; simplify_eq/=; [done|].
  by apply state_blind_except_clauses.
Qed.

Ltac state_blind_clauses :=
  lazymatch goal with
  | |- Forall _ [] => apply List.Forall_nil
  | |- Forall _ (_ :: _) => apply List.Forall_cons; [intros ?; simpl | state_blind_clauses]
  end.

Ltac state_blind_step :=
  lazymatch goal with
  | |- state_blind (_ ≫= _) => apply state_blind_bind; [|intros ?]
  | |- state_blind (mret _) => apply state_blind_ret
  | |- state_blind (raise _) => apply state_blind_raise
  | |- state_blind (lift _) => apply state_blind_lift
  | |- state_blind (logger _ _) => apply state_blind_logger
  | |- state_blind (try_except _ _) => apply state_blind_try_except; [|state_blind_clauses]
  | |- state_blind (match ?x with _ => _ end) => destruct x
  end.

Ltac state_blind_tac := repeat state_blind_step.

Lemma state_blind_get_proposal (env : Env) (proposal_id : pyval) :
  state_blind (pass_service.get_proposal env proposal_id).
Proof. unfold pass_service.get_proposal. state_blind_tac. Qed.

Lemma state_blind_resolve_beamlines (env : Env) (l : list PassResource) (acc : list string) :
  state_blind (resolve_beamlines env l acc).
Proof. revert acc. induction l as [|r l IH]; intros acc; simpl; state_blind_tac; apply IH. Qed.

Lemma state_blind_build_saf_list (env : Env) (l : list element) (acc : list SafetyForm.t) :
  state_blind (build_saf_list env l acc).
Proof.
  revert acc. induction l as [|saf l IH]; intros acc; simpl; state_blind_tac;
    first [apply state_blind_resolve_beamlines | apply IH].
Qed.

Lemma state_blind_experimenters_loop (env : Env) proposal_id pi (l : list PassPerson)
    (acc : list User.t) (found : bool) :
  state_blind (experimenters_loop env proposal_id pi l acc found).
Proof.
  revert acc found. induction l as [|u l IH]; intros acc found; simpl; state_blind_tac;
    apply IH.
Qed.

Lemma state_blind_build_user_list (env : Env) (proposal_id : pyval) (p : PassProposal) :
  state_blind (build_user_list env proposal_id p).
Proof.
  unfold build_user_list. state_blind_tac; [apply state_blind_experimenters_loop|].
  unfold add_pi. destruct (PI p); [destruct (negb _)|]; state_blind_tac.
Qed.

Lemma state_blind_reconcile_proposal (env : Env) (proposal_id : pyval) :
  state_blind (reconcile_proposal env proposal_id).
Proof.
  unfold reconcile_proposal, pass_service.get_saf_from_proposal. state_blind_tac;
    first [ apply state_blind_get_proposal | apply state_blind_build_saf_list
          | apply state_blind_resolve_beamlines | apply state_blind_build_user_list ].
Qed.

Global Instance same_but_last_updated_refl : Reflexive same_but_last_updated.
Proof. intros d. by repeat split. Qed.

(** X10. Reconciling a proposal a second time, against the same remote
    data, changes nothing but [last_updated]: when the record carries the
    requested id and the first reconciliation completed, the second one
    completes too, adds no document, and leaves every proposal as it was up
    to [last_updated]. *)
Theorem second_reconciliation_changes_only_last_updated (env : Env) (proposal_id : pyval)
    (s s1 : State) (p : PassProposal) :
  _call_async_webservice env (proposal_url env proposal_id) = Ok (RawProposal p) →
  pretty (Proposal_ID p) = py_str proposal_id →
  synchronize_proposal_from_pass env proposal_id s = (Ok tt, s1) →
  ∃ s2, synchronize_proposal_from_pass env proposal_id s1 = (Ok tt, s2) ∧
        db_cycles s2 = db_cycles s1 ∧ db_proposal_types s2 = db_proposal_types s1 ∧
        Forall2 same_but_last_updated (db_proposals s1) (db_proposals s2).
Proof.
  intros Hremote Hid Hrun.
  destruct (synchronize_proposal_ok_inv env proposal_id s s1 p Hremote Hrun)
    as (r & sa & Hrec & Hp & (_ & Hprop & _) & Hup).
  destruct (upsert_proposal_state env proposal_id r sa)
    as (s1' & new & Hup' & _ & _ & Hdb & Hnew).
  rewrite Hup in Hup'. injection Hup' as <-. rewrite Hprop in Hdb.
  (* the second run reconciles to the same values *)
  pose proof (state_blind_reconcile_proposal env proposal_id s1 s) as Hblind.
  rewrite Hrec in Hblind. simpl in Hblind.
  pose proof (preserves_reconcile_proposal store_eq (λ _ _ H, H) env proposal_id s1) as Hsb.
  destruct (reconcile_proposal env proposal_id s1) as [res sb] eqn:Hrec2.
  simpl in Hblind, Hsb. subst res. destruct Hsb as (Hc & Hprop2 & Ht).
  destruct (upsert_proposal_state env proposal_id r sb)
    as (s2 & new2 & Hup2 & Hc2 & Ht2 & Hdb2 & _).
  exists s2. unfold synchronize_proposal_from_pass. rewrite bind_run, Hrec2.
  split; [exact Hup2|]. split; [congruence|]. split; [congruence|].
  rewrite Hdb2, Hprop2.
  (* the first run left a document with the requested id, holding these values *)
  edestruct (upsert_find_one (λ d, Proposal.proposal_id d = py_str proposal_id))
    as (d & Hfind & Hd); [| |rewrite <- Hdb in Hfind].
  { intros d0. exact id. }
  { rewrite Hnew. simpl. by rewrite Hp. }
  unfold Beanie.upsert at 1. rewrite Hfind.
  apply Forall2_alter_r; [by apply Forall_Forall2_diag, Forall_true|].
  intros x y Hx Hy _. rewrite Hx in Hy. injection Hy as <-.
  apply list_find_Some in Hfind as (Hx' & _). rewrite Hx in Hx'. injection Hx' as ->.
  destruct Hd as [->|(d0 & _ & ->)]; [rewrite Hnew|]; by repeat split.
Qed.

Lemma second_reconciliation_changes_only_last_updated_witness :
  let p := Fixtures.proposal42 [Fixtures.bob] (Some Fixtures.ada) in
  let env := Fixtures.env_with (Ok (RawProposal p)) Fixtures.lookup_ok in
  let s1 := (synchronize_proposal_from_pass env (PInt 42) Fixtures.empty_state).2 in
  ∃ s2, synchronize_proposal_from_pass env (PInt 42) s1 = (Ok tt, s2) ∧
        db_cycles s2 = db_cycles s1 ∧ db_proposal_types s2 = db_proposal_types s1 ∧
        Forall2 same_but_last_updated (db_proposals s1) (db_proposals s2).
Proof.
  cbv zeta.
  apply (second_reconciliation_changes_only_last_updated
           (Fixtures.env_with
              (Ok (RawProposal (Fixtures.proposal42 [Fixtures.bob] (Some Fixtures.ada))))
              Fixtures.lookup_ok)
           (PInt 42) Fixtures.empty_state _
           (Fixtures.proposal42 [Fixtures.bob] (Some Fixtures.ada))).
  - vm_compute. reflexivity.
  - vm_compute. reflexivity.
  - vm_compute. reflexivity.
Defined.

(** ** The cycle reconciler *)

(** The body of the cycle loop for a cycle whose facility resolves: the
    cycle is upserted, and asking [pass_service] for
    [get_proposals_allocated_by_cycle] raises. *)
Lemma synchronize_cycle_run (env : Env) (pc : PassCycle) (f : Facility.t) (s : State) :
  facility_by_pass_id env (cyc_User_Facility_ID pc) = Ok (Some f) →
  ∃ s' new,
    synchronize_cycle env pc s
    = (Err (pass_service_has_no "get_proposals_allocated_by_cycle"), s') ∧
    db_proposals s' = db_proposals s ∧ db_proposal_types s' = db_proposal_types s ∧
    db_cycles s'
    = Beanie.upsert (λ d, Cycle.name d = cyc_Name pc) (Set_cycle new (clock s)) new (db_cycles s) ∧
    new = Cycle.mk (cyc_Name pc) (cyc_Active pc) (Facility.facility_id f) (pretty (cyc_Year pc))
            (cyc_Start_Date pc) (cyc_End_Date pc) (cyc_Description pc) (pretty (cyc_ID pc))
            [] None.
Proof.
  intros Hf. unfold synchronize_cycle.
  erewrite bind_ok; [|unfold lift; by rewrite Hf].
  erewrite bind_ok; [|reflexivity].
  erewrite bind_ok; [|reflexivity].
  erewrite bind_ok; [|reflexivity].
  rewrite bind_run. simpl.
  edestruct (upsert_lookup_index (λ d : Cycle.t, Cycle.name d = cyc_Name pc)) as (d & Hd & _).
  erewrite bind_ok; [|reflexivity].
  erewrite bind_ok; [|simpl; rewrite Hd; reflexivity].
  erewrite bind_err; [|reflexivity].
  eexists _, _. by repeat split.
Qed.

(** X11. The loop over the remote cycles never gets past a first cycle
    whose facility resolves.  That cycle is upserted under its name with the
    remote fields; then the call of [get_proposals_allocated_by_cycle], which
    [pass_service] does not define, raises an [AttributeError].  No stored
    cycle has changed its name or its proposal set, a cycle stored for the
    first time has no proposals, and the cycles after the first are never
    looked at. *)
Theorem cycle_loop_stops_after_the_first_cycle (env : Env) (pc : PassCycle)
    (rest : list PassCycle) (facility : option Facility.t) (f : Facility.t) (s : State) :
  facility_by_pass_id env (cyc_User_Facility_ID pc) = Ok (Some f) →
  ∃ s', synchronize_cycles env (pc :: rest) facility s
        = (Err (pass_service_has_no "get_proposals_allocated_by_cycle"), s') ∧
        db_proposals s' = db_proposals s ∧ db_proposal_types s' = db_proposal_types s ∧
        (∃ d, find_cycle (cyc_Name pc) s' = Some (Beanie.upsert_index
                                                   (λ d, Cycle.name d = cyc_Name pc)
                                                   (db_cycles s), d) ∧
              Cycle.accepting_proposals d = cyc_Active pc ∧
              Cycle.facility d = Facility.facility_id f ∧
              Cycle.year d = pretty (cyc_Year pc) ∧
              Cycle.start_date d = cyc_Start_Date pc ∧
              Cycle.end_date d = cyc_End_Date pc ∧
              Cycle.pass_description d = cyc_Description pc ∧
              Cycle.pass_id d = pretty (cyc_ID pc) ∧
              (find_cycle (cyc_Name pc) s = None → Cycle.proposals d = [])) ∧
        (∀ i d, db_cycles s !! i = Some d →
           ∃ d', db_cycles s' !! i = Some d' ∧ Cycle.name d' = Cycle.name d ∧
                 Cycle.proposals d' = Cycle.proposals d).
Proof.
  intros Hf. simpl.
  destruct (synchronize_cycle_run env pc f s Hf) as (s' & new & Hrun & Hp & Ht & Hc & Hnew).
  exists s'. rewrite bind_run, Hrun. split; [done|]. split; [done|]. split; [done|].
  unfold find_cycle. rewrite Hc. split.
  - edestruct (upsert_find_one (λ d : Cycle.t, Cycle.name d = cyc_Name pc)) as (d & Hd & Hcase);
      [| |exists d; split; [exact Hd|]].
    { intros d0. exact id. }
    { by rewrite Hnew. }
    destruct Hcase as [->|(d0 & Hd0 & ->)].
    + rewrite Hnew. by repeat split.
    + rewrite Hnew. simpl. repeat (split; [done|]).
      intros Hnone. unfold Beanie.upsert_index in Hd0. rewrite Hnone in Hd0.
      apply lookup_lt_Some in Hd0. lia.
  - intros i d Hd.
    edestruct (upsert_lookup (λ d : Cycle.t, Cycle.name d = cyc_Name pc))
      as (d' & Hd' & Hcase & _); [exact Hd|].
    exists d'. split; [exact Hd'|]. by destruct Hcase as [->|[-> _]].
Qed.

Lemma cycle_loop_stops_after_the_first_cycle_witness :
  let env := Fixtures.env_with (Ok RawNull) Fixtures.lookup_ok in
  ∃ s', synchronize_cycles env [Fixtures.cycle_2024_1; Fixtures.cycle_unresolvable] None
          Fixtures.empty_state
        = (Err (pass_service_has_no "get_proposals_allocated_by_cycle"), s') ∧
        length (db_cycles s') = 1%nat ∧
        ∃ d, find_cycle "2024-1" s' = Some (0%nat, d) ∧ Cycle.proposals d = [].
Proof.
  cbv zeta.
  destruct (cycle_loop_stops_after_the_first_cycle
              (Fixtures.env_with (Ok RawNull) Fixtures.lookup_ok)
              Fixtures.cycle_2024_1 [Fixtures.cycle_unresolvable] None
              (Facility.mk "NSLS-II" "nsls2") Fixtures.empty_state eq_refl)
    as (s' & Hrun & _ & _ & (d & Hfind & _ & _ & _ & _ & _ & _ & _ & Hnew) & _).
  exists s'. split; [exact Hrun|].
  split; [injection Hrun as <-; reflexivity|].
  exists d. split; [exact Hfind | by apply Hnew].
Defined.

(** X12. A cycle whose facility does not resolve stops the loop before
    anything is written or logged: the error is the one of the lookup, or
    the [AttributeError] of [facility.name] on [None]. *)
Theorem unresolvable_facility_aborts_the_cycle_sync (env : Env) (pc : PassCycle)
    (rest : list PassCycle) (facility : option Facility.t) (s : State) :
  (∀ f, facility_by_pass_id env (cyc_User_Facility_ID pc) ≠ Ok (Some f)) →
  synchronize_cycles env (pc :: rest) facility s
  = (Err match facility_by_pass_id env (cyc_User_Facility_ID pc) with
         | Err e => e
         | Ok _ => none_has_no_attribute "name"
         end, s).
Proof.
  intros Hno. simpl. unfold synchronize_cycle. rewrite !bind_run. unfold lift.
  destruct (facility_by_pass_id env _) as [[f|]|e]; [by destruct (Hno f) | done | done].
Qed.

Lemma unresolvable_facility_aborts_the_cycle_sync_witness :
  let env := Fixtures.env_with (Ok RawNull) Fixtures.lookup_ok in
  synchronize_cycles env [Fixtures.cycle_unresolvable; Fixtures.cycle_2024_1] None
    Fixtures.empty_state
  = (Err (none_has_no_attribute "name"), Fixtures.empty_state).
Proof.
  cbv zeta.
  rewrite (unresolvable_facility_aborts_the_cycle_sync
             (Fixtures.env_with (Ok RawNull) Fixtures.lookup_ok)
             Fixtures.cycle_unresolvable [Fixtures.cycle_2024_1] None Fixtures.empty_state).
  - reflexivity.
  - intros f. vm_compute. discriminate.
Defined.

(** One round of the allocation loop on a cycle that is in the store. *)
Lemma add_allocated_proposal_run (h : handle Cycle.t) (a : PassAllocation)
    (rest : list PassAllocation) (s : State) (d : Cycle.t) :
  db_cycles s !! doc_id h = Some d →
  ∃ s1 d1, add_allocated_proposals h (a :: rest) s
           = add_allocated_proposals (Handle (doc_id h) d1) rest s1 ∧
           db_cycles s1 = <[doc_id h:=d1]> (db_cycles s) ∧
           db_proposals s1 = db_proposals s ∧ db_proposal_types s1 = db_proposal_types s ∧
           Cycle.name d1 = Cycle.name d ∧
           Cycle.proposals d1
           = Beanie.AddToSet (pretty (alloc_Proposal_ID a)) (Cycle.proposals d).
Proof.
  intros Hd. simpl. unfold cycle_update. rewrite !bind_run. simpl.
  unfold Beanie.update. rewrite list_lookup_alter_eq, Hd. simpl.
  unfold cycle_save. rewrite bind_run. simpl.
  eexists _, _. split; [reflexivity|]. simpl.
  unfold Beanie.save. rewrite bool_decide_eq_true_2
    by (rewrite length_alter; by eapply lookup_lt_Some).
  split; [|by repeat split].
  apply list_eq. intros j. destruct (decide (doc_id h = j)) as [<-|Hne].
  - rewrite !list_lookup_insert_eq; [done|by eapply lookup_lt_Some|].
    rewrite length_alter. by eapply lookup_lt_Some.
  - by rewrite !list_lookup_insert_ne, list_lookup_alter_ne.
Qed.

(** X13. The allocation loop, run on a cycle that is in the store,
    returns normally and leaves in the proposal set of that cycle what was
    there and the id of every allocated proposal, and nothing else.  The
    cycle keeps its name, and no other document is touched. *)
Theorem allocation_loop_adds_every_proposal (h : handle Cycle.t) (l : list PassAllocation)
    (s : State) (d : Cycle.t) :
  db_cycles s !! doc_id h = Some d →
  ∃ s' d', add_allocated_proposals h l s = (Ok tt, s') ∧
           db_cycles s' = <[doc_id h:=d']> (db_cycles s) ∧
           db_proposals s' = db_proposals s ∧ db_proposal_types s' = db_proposal_types s ∧
           Cycle.name d' = Cycle.name d ∧
           ∀ x, x ∈ Cycle.proposals d' ↔
                x ∈ Cycle.proposals d ∨ ∃ a, a ∈ l ∧ x = pretty (alloc_Proposal_ID a).
Proof.
  revert h s d. induction l as [|a l IH]; intros h s d Hd.
  - exists s, d. simpl. split; [done|]. split; [by rewrite list_insert_id|].
    repeat (split; [done|]). intros x. split; [by left|].
    intros [?|(a & Ha & _)]; [done | by apply elem_of_nil in Ha].
  - destruct (add_allocated_proposal_run h a l s d Hd)
      as (s1 & d1 & -> & Hc1 & Hp1 & Ht1 & Hn1 & Hset1).
    destruct (IH (Handle (doc_id h) d1) s1 d1) as (s' & d' & Hrun & Hc & Hp & Ht & Hn & Hset).
    { simpl. rewrite Hc1. apply list_lookup_insert_eq. by eapply lookup_lt_Some. }
    exists s', d'. simpl in *. split; [exact Hrun|].
    split; [by rewrite Hc, Hc1, list_insert_insert_eq|].
    split; [congruence|]. split; [congruence|]. split; [congruence|].
    intros x. rewrite Hset, Hset1. unfold Beanie.AddToSet.
    setoid_rewrite elem_of_cons. case_bool_decide as Hin.
    + split; [intros [?|(a' & ? & ?)]; [by left | right; by eauto]|].
      intros [?|(a' & [-> | ?] & ->)]; [by left | by left | right; by eauto].
    + rewrite elem_of_app, list_elem_of_singleton.
      split; [intros [[? | ->]|(a' & ? & ?)]; [by left | right; by eauto | right; by eauto]|].
      intros [?|(a' & [-> | ?] & ->)]; [left; by left | left; by right | right; by eauto].
Qed.

Lemma allocation_loop_adds_every_proposal_witness :
  let s := {| db_cycles := [Fixtures.stored_cycle]; db_proposals := [];
              db_proposal_types := []; clock := 7; logs := [] |} in
  ∃ s' d', add_allocated_proposals (Handle 0 Fixtures.stored_cycle)
             [ {| alloc_Proposal_ID := 42 |}; {| alloc_Proposal_ID := 43 |} ] s = (Ok tt, s') ∧
           db_cycles s' = [d'] ∧
           ("41" ∈ Cycle.proposals d' ∧ "42" ∈ Cycle.proposals d' ∧ "43" ∈ Cycle.proposals d').
Proof.
  cbv zeta.
  destruct (allocation_loop_adds_every_proposal (Handle 0 Fixtures.stored_cycle)
              [ {| alloc_Proposal_ID := 42 |}; {| alloc_Proposal_ID := 43 |} ]
              {| db_cycles := [Fixtures.stored_cycle]; db_proposals := [];
                 db_proposal_types := []; clock := 7; logs := [] |}
              Fixtures.stored_cycle eq_refl)
    as (s' & d' & Hrun & Hc & _ & _ & _ & Hset).
  exists s', d'. split; [exact Hrun|]. split; [exact Hc|].
  split; [apply Hset; left; by left|].
  split; [apply Hset; left; right; by left|].
  apply Hset. right. exists {| alloc_Proposal_ID := 43 |}. split; [right; by left | reflexivity].
Defined.

(** ** The proposal-type reconciler *)

(** The body of the proposal-type loop for a type whose facility resolves. *)
Lemma synchronize_proposal_type_run (env : Env) (t : PassProposalType) (f : Facility.t)
    (s : State) :
  facility_by_pass_id env (pt_User_Facility_ID t) = Ok (Some f) →
  ∃ s' new,
    synchronize_proposal_type env t s = (Ok f, s') ∧
    db_cycles s' = db_cycles s ∧ db_proposals s' = db_proposals s ∧
    db_proposal_types s'
    = Beanie.upsert (λ d, ProposalType.pass_id d = pretty (pt_ID t))
        (Set_proposal_type t (Facility.facility_id f) (clock s)) new (db_proposal_types s) ∧
    new = ProposalType.mk (pt_Code t) (Facility.facility_id f) (pretty (pt_ID t))
            (pt_Description t) (pt_Description t) None.
Proof.
  intros Hf. unfold synchronize_proposal_type.
  erewrite bind_ok; [|unfold lift; by rewrite Hf].
  run_monad. eexists _, _. by repeat split.
Qed.

(** X14. When the facility of every remote proposal type resolves, the
    loop returns normally with the facility of the last type (or what it was
    given, for an empty list).  Afterwards every remote type has a document
    with its id, the documents that were there are still there under their
    ids, and cycles and proposals have not been touched. *)
Theorem proposal_type_loop_stores_every_type (env : Env) (l : list PassProposalType)
    (facility : option Facility.t) (s : State) :
  (∀ t, t ∈ l → ∃ f, facility_by_pass_id env (pt_User_Facility_ID t) = Ok (Some f)) →
  ∃ facility' s',
    synchronize_proposal_types env l facility s = (Ok facility', s') ∧
    db_cycles s' = db_cycles s ∧ db_proposals s' = db_proposals s ∧
    (∀ t, t ∈ l → ∃ i d, db_proposal_types s' !! i = Some d ∧
                         ProposalType.pass_id d = pretty (pt_ID t)) ∧
    (∀ i d, db_proposal_types s !! i = Some d →
            ∃ d', db_proposal_types s' !! i = Some d' ∧
                  ProposalType.pass_id d' = ProposalType.pass_id d) ∧
    match last l with
    | Some t => ∃ f, facility_by_pass_id env (pt_User_Facility_ID t) = Ok (Some f) ∧
                     facility' = Some f
    | None => facility' = facility
    end.
Proof.
  revert facility s. induction l as [|t l IH]; intros facility s Hl.
  - exists facility, s. simpl. repeat (split; [done|]). split; [|split; [by eauto|done]].
    intros t Ht. by apply elem_of_nil in Ht.
  - destruct (Hl t) as [f Hf]; [by left|].
    destruct (synchronize_proposal_type_run env t f s Hf) as (s1 & new & Hrun & Hc1 & Hp1 & Ht1 & Hnew).
    destruct (IH (Some f) s1) as (facility' & s' & Hloop & Hc & Hp & Hall & Hkeep & Hlast).
    { intros t' Ht'. apply Hl. by right. }
    assert (∀ i d, db_proposal_types s !! i = Some d →
                   ∃ d', db_proposal_types s1 !! i = Some d' ∧
                         ProposalType.pass_id d' = ProposalType.pass_id d) as Hkeep1.
    { intros i d Hd. rewrite Ht1.
      edestruct (upsert_lookup (λ d : ProposalType.t, ProposalType.pass_id d = pretty (pt_ID t)))
        as (d' & Hd' & Hcase & _); [exact Hd|].
      exists d'. split; [exact Hd'|]. by destruct Hcase as [->|[-> _]]. }
    exists facility', s'. simpl. rewrite bind_run, Hrun.
    split; [exact Hloop|]. split; [congruence|]. split; [congruence|]. split; [|split].
    + intros t' [->|Ht']%elem_of_cons; [|by apply Hall].
      edestruct (upsert_find_one
                   (λ d : ProposalType.t, ProposalType.pass_id d = pretty (pt_ID t)))
        as (d & Hfind & _); [| |rewrite <- Ht1 in Hfind].
      { intros d0. exact id. }
      { by rewrite Hnew. }
      apply list_find_Some in Hfind as (Hd & HP & _).
      destruct (Hkeep _ _ Hd) as (d' & Hd' & Hid).
      eexists _, d'. split; [exact Hd' | congruence].
    + intros i d Hd. destruct (Hkeep1 i d Hd) as (d1 & Hd1 & Hid1).
      destruct (Hkeep i d1 Hd1) as (d' & Hd' & Hid'). exists d'. split; [done | congruence].
    + rewrite last_cons. destruct (last l); [exact Hlast | by eauto].
Qed.

Lemma proposal_type_loop_stores_every_type_witness :
  let env := Fixtures.env_with (Ok RawNull) Fixtures.lookup_ok in
  ∃ s', synchronize_proposal_types env [Fixtures.type_resolvable; Fixtures.type_resolvable] None
          Fixtures.empty_state
        = (Ok (Some (Facility.mk "NSLS-II" "nsls2")), s') ∧
        ∃ i d, db_proposal_types s' !! i = Some d ∧ ProposalType.pass_id d = "300005".
Proof.
  cbv zeta.
  destruct (proposal_type_loop_stores_every_type
              (Fixtures.env_with (Ok RawNull) Fixtures.lookup_ok)
              [Fixtures.type_resolvable; Fixtures.type_resolvable] None Fixtures.empty_state)
    as (facility' & s' & Hrun & _ & _ & Hall & _ & (f & Hf & ->)).
  - intros t Ht. exists (Facility.mk "NSLS-II" "nsls2").
    apply elem_of_cons in Ht as [->|Ht]; [reflexivity|].
    apply elem_of_cons in Ht as [->|Ht]; [reflexivity | by apply elem_of_nil in Ht].
  - exists s'. injection Hf as <-. split; [exact Hrun|].
    apply (Hall Fixtures.type_resolvable). by left.
Defined.

(** ** Invariants of the engine, from its seven writes

    The engine writes the store in seven places: the three upserts, and the
    [update] and [save] of the two membership loops.  A preorder on states
    that relates every state to the one each write leaves is kept by every
    step of the engine. *)

Section engine_relation.
Context (R : relation State) `{!PreOrder R}.
Hypothesis store_eq_R : ∀ s s', store_eq s s' → R s s'.

Hypothesis cycle_upsert_R : ∀ s (new : Cycle.t) k t,
  Cycle.name new = k → Cycle.proposals new = [] →
  R s (put_cycles (Beanie.upsert (λ d, Cycle.name d = k) (Set_cycle new t) new (db_cycles s)) s).2.
Hypothesis cycle_update_R : ∀ s i v,
  R s (put_cycles (Beanie.update i (AddToSet_cycle_proposals v) (db_cycles s)) s).2.
Hypothesis cycle_save_R : ∀ s i d t,
  db_cycles s !! i = Some d →
  R s (put_cycles (Beanie.save i (cycle_touch t d) (db_cycles s)) s).2.
Hypothesis type_upsert_R : ∀ s (new : ProposalType.t) p fid t,
  ProposalType.pass_id new = pretty (pt_ID p) →
  R s (put_proposal_types
         (Beanie.upsert (λ d, ProposalType.pass_id d = pretty (pt_ID p))
            (Set_proposal_type p fid t) new (db_proposal_types s)) s).2.
Hypothesis proposal_upsert_R : ∀ s (new : Proposal.t) k title ds tid ty ins safs us t,
  Proposal.cycles new = [] →
  R s (put_proposals
         (Beanie.upsert (λ d, Proposal.proposal_id d = k)
            (Set_proposal title ds tid ty ins safs us t) new (db_proposals s)) s).2.
Hypothesis proposal_update_R : ∀ s i v,
  R s (put_proposals (Beanie.update i (AddToSet_proposal_cycles v) (db_proposals s)) s).2.
Hypothesis proposal_save_R : ∀ s i d t,
  db_proposals s !! i = Some d →
  R s (put_proposals (Beanie.save i (proposal_touch t d) (db_proposals s)) s).2.

Lemma after_put_proposals {A} (c : list Proposal.t) (k : M A) (s : State) :
  R s (put_proposals c s).2 → preserves R k → R s ((put_proposals c ≫= λ _, k) s).2.
Proof using PreOrder0. intros Hput Hk. rewrite bind_run. simpl. by apply preserves_after. Qed.

Lemma after_put_proposal_types {A} (c : list ProposalType.t) (k : M A) (s : State) :
  R s (put_proposal_types c s).2 → preserves R k →
  R s ((put_proposal_types c ≫= λ _, k) s).2.
Proof using PreOrder0. intros Hput Hk. rewrite bind_run. simpl. by apply preserves_after. Qed.

Lemma relation_add_allocated_proposals (h : handle Cycle.t) (l : list PassAllocation) :
  preserves R (add_allocated_proposals h l).
Proof using PreOrder0 store_eq_R cycle_update_R cycle_save_R.
  revert h. induction l as [|a l IH]; intros h s; simpl; [done|].
  unfold cycle_update. rewrite !bind_run. simpl.
  destruct (Beanie.update _ _ _ !! _) as [d|] eqn:Hd; simpl; [|apply cycle_update_R].
  unfold cycle_save. run_monad. apply (preserves_after R); [|apply IH].
  pose (s1 := (put_cycles (Beanie.update (doc_id h)
                             (AddToSet_cycle_proposals (pretty (alloc_Proposal_ID a)))
                             (db_cycles s)) s).2).
  trans s1; [apply cycle_update_R|].
  trans (now s1).2; [by apply preserves_now|].
  apply (cycle_save_R (now s1).2 (doc_id h) d (clock s)). exact Hd.
Qed.

Lemma relation_synchronize_cycle (env : Env) (pc : PassCycle) :
  preserves R (synchronize_cycle env pc).
Proof using PreOrder0 store_eq_R cycle_upsert_R cycle_update_R cycle_save_R.
  unfold synchronize_cycle. do 4 preserves_step; [preserves_tac..|].
  apply preserves_with_state. intros s. rewrite bind_run. simpl.
  apply preserves_after; [apply _ | by apply cycle_upsert_R |].
  preserves_tac. apply relation_add_allocated_proposals.
Qed.

Lemma relation_synchronize_cycles (env : Env) (l : list PassCycle) (fac : option Facility.t) :
  preserves R (synchronize_cycles env l fac).
Proof using PreOrder0 store_eq_R cycle_upsert_R cycle_update_R cycle_save_R.
  revert fac. induction l as [|c l IH]; intros fac; simpl; preserves_tac;
    [apply relation_synchronize_cycle | apply IH].
Qed.

Lemma relation_synchronize_proposal_types (env : Env) (l : list PassProposalType)
    (fac : option Facility.t) :
  preserves R (synchronize_proposal_types env l fac).
Proof using PreOrder0 store_eq_R type_upsert_R.
  revert fac. induction l as [|c l IH]; intros fac; simpl; preserves_tac; [|apply IH].
  unfold synchronize_proposal_type. do 3 preserves_step; [preserves_tac..|].
  apply preserves_with_state. intros s.
  apply after_put_proposal_types; [by apply type_upsert_R | preserves_tac].
Qed.

Lemma relation_synchronize_proposal (env : Env) (proposal_id : pyval) :
  preserves R (synchronize_proposal_from_pass env proposal_id).
Proof using PreOrder0 store_eq_R proposal_upsert_R.
  unfold synchronize_proposal_from_pass.
  preserves_step; [by apply preserves_reconcile_proposal|].
  unfold upsert_proposal. do 2 preserves_step; [preserves_tac..|].
  apply preserves_with_state. intros s.
  apply after_put_proposals; [by apply proposal_upsert_R | preserves_tac].
Qed.

Lemma relation_link_proposal (cycle_name : string) (proposal_id : pyval) :
  preserves R (link_proposal cycle_name proposal_id).
Proof using PreOrder0 store_eq_R proposal_update_R proposal_save_R.
  unfold link_proposal. preserves_step; [|preserves_tac].
  preserves_step; [preserves_tac|].
  intros s. unfold proposal_by_id, proposal_update. rewrite !bind_run. simpl.
  destruct (Beanie.find_one _ _) as [[i d]|]; simpl; [|done].
  rewrite !bind_run. simpl.
  destruct (Beanie.update _ _ _ !! _) as [d'|] eqn:Hd; simpl; [|apply proposal_update_R].
  pose (s1 := (put_proposals (Beanie.update i (AddToSet_proposal_cycles cycle_name)
                                (db_proposals s)) s).2).
  trans s1; [apply proposal_update_R|].
  trans (now s1).2; [by apply preserves_now|].
  apply (proposal_save_R (now s1).2 i d' (clock s)). exact Hd.
Qed.

Lemma relation_update_proposals_with_cycle (env : Env) (cycle_name : string) :
  preserves R (update_proposals_with_cycle env cycle_name).
Proof using PreOrder0 store_eq_R proposal_update_R proposal_save_R.
  unfold update_proposals_with_cycle. apply preserves_with_state. intros s.
  apply (preserves_after R); [done|]. preserves_tac. apply relation_link_proposal.
Qed.

Lemma relation_run_step (env : Env) (st : step) : preserves R (run_step env st).
Proof using All.
  destruct st; simpl.
  - unfold worker_synchronize_cycles_from_pass. preserves_tac;
      first [ by apply preserves_get_cycles | apply relation_synchronize_cycles ].
  - unfold worker_synchronize_proposal_types_from_pass. preserves_tac;
      first [ by apply preserves_get_proposal_types | apply relation_synchronize_proposal_types ].
  - unfold worker_synchronize_proposal_from_pass. preserves_tac.
    apply relation_synchronize_proposal.
  - unfold worker_synchronize_proposals_for_cycle_from_pass,
      pass_service.get_commissioning_proposals_by_year.
    do 2 preserves_step; [preserves_tac..|].
    apply preserves_with_state. intros s. apply (preserves_after R); [done|].
    preserves_tac;
      first [ apply relation_synchronize_proposal | apply relation_update_proposals_with_cycle ].
  - apply relation_update_proposals_with_cycle.
  - preserves_tac. apply relation_synchronize_cycles.
  - preserves_tac. apply relation_synchronize_proposal_types.
  - apply relation_add_allocated_proposals.
Qed.

Lemma relation_run_steps (steps : list (Env * step)) (s : State) : R s (run_steps steps s).
Proof using All.
  revert s. induction steps as [|[env st] steps IH]; intros s; simpl; [done|].
  etrans; [apply relation_run_step | apply IH].
Qed.
End engine_relation.

Global Instance keeps_preorder (I : State → Prop) : PreOrder (keeps I).
Proof.
  split.
  - intros s Hs. exact Hs.
  - intros s1 s2 s3 H12 H23 Hs. apply H23, H12, Hs.
Qed.

(** ** Keys stay unique *)

Section keys.
Context {D K : Type} `{EqDecision K} (key : D → K).

Lemma keys_alter (f : D → D) (i : nat) (c : list D) :
  (∀ d, key (f d) = key d) → key <$> alter f i c = key <$> c.
Proof.
  intros Hf. rewrite (list_fmap_alter key f id); [by apply list_alter_id|].
  apply Forall_forall. intros d _. apply Hf.
Qed.

Lemma keys_save (i : nat) (x d : D) (c : list D) :
  c !! i = Some d → key x = key d → key <$> Beanie.save i x c = key <$> c.
Proof.
  intros Hd Hx. unfold Beanie.save.
  rewrite bool_decide_eq_true_2 by (by eapply lookup_lt_Some).
  rewrite list_fmap_insert. apply list_insert_id. by rewrite list_lookup_fmap, Hd, Hx.
Qed.

Lemma keys_upsert (k : K) (f : D → D) (new : D) (c : list D) :
  (∀ d, key (f d) = key d) → key new = k →
  NoDup (key <$> c) → NoDup (key <$> Beanie.upsert (λ d, key d = k) f new c).
Proof.
  intros Hf Hnew Hc. unfold Beanie.upsert.
  destruct (Beanie.find_one _ c) as [[j x]|] eqn:Hfind.
  - by rewrite keys_alter.
  - rewrite fmap_app. apply NoDup_app. split; [done|]. split; [|apply NoDup_singleton].
    intros y Hy Hin. apply list_elem_of_singleton in Hin as ->.
    apply list_elem_of_fmap in Hy as (d & Hd & Hin).
    apply list_find_None in Hfind. apply (proj1 (Forall_forall _ _) Hfind d Hin). congruence.
Qed.
End keys.

Lemma store_eq_unique_keys (s s' : State) : store_eq s s' → keeps unique_keys s s'.
Proof. intros (Hc & _ & Ht) Hu. unfold unique_keys. by rewrite Hc, Ht. Qed.

(** X15. Cycle names and proposal-type ids stay unique: if no two stored
    cycles share a name and no two stored proposal types share an id, this
    is still so after any history of engine steps. *)
Theorem cycle_names_and_type_ids_stay_unique (steps : list (Env * step)) (s : State) :
  unique_keys s → unique_keys (run_steps steps s).
Proof.
  apply (relation_run_steps (keeps unique_keys) store_eq_unique_keys).
  - intros s0 new k t Hk _ [Hc Ht]. split; [|exact Ht]. simpl.
    by apply keys_upsert.
  - intros s0 i v [Hc Ht]. split; [|exact Ht]. simpl.
    unfold Beanie.update. by rewrite keys_alter.
  - intros s0 i d t Hd [Hc Ht]. split; [|exact Ht]. simpl.
    by rewrite (keys_save Cycle.name i _ d).
  - intros s0 new p fid t Hk [Hc Ht]. split; [exact Hc|]. simpl.
    by apply keys_upsert.
  - intros s0 new k title ds tid ty ins safs us t _ Hu. exact Hu.
  - intros s0 i v Hu. exact Hu.
  - intros s0 i d t _ Hu. exact Hu.
Qed.

Lemma cycle_names_and_type_ids_stay_unique_witness :
  let env := Fixtures.env_with (Ok RawNull) Fixtures.lookup_ok in
  unique_keys
    (run_steps [ (env, CyclesLoop [Fixtures.cycle_2024_1]);
                 (env, ProposalTypesLoop [Fixtures.type_resolvable; Fixtures.type_resolvable]);
                 (env, CyclesLoop [Fixtures.cycle_2024_1]) ]
       Fixtures.empty_state).
Proof.
  cbv zeta. apply cycle_names_and_type_ids_stay_unique.
  split; apply NoDup_nil_2.
Defined.

(** ** Membership sets have no duplicates *)

Lemma NoDup_AddToSet `{EqDecision V} (v : V) (l : list V) :
  NoDup l → NoDup (Beanie.AddToSet v l).
Proof.
  intros Hl. unfold Beanie.AddToSet. case_bool_decide as Hin; [done|].
  apply NoDup_app. split; [done|]. split; [|apply NoDup_singleton].
  intros x Hx Hx'. apply list_elem_of_singleton in Hx' as ->. done.
Qed.

Lemma Forall_upsert {D} (Q : D → Prop) (P : D → Prop) `{∀ d, Decision (P d)}
    (f : D → D) (new : D) (c : list D) :
  (∀ d, Q d → Q (f d)) → Q new → Forall Q c → Forall Q (Beanie.upsert P f new c).
Proof.
  intros Hf Hnew Hc. unfold Beanie.upsert. destruct (Beanie.find_one P c) as [[j x]|].
  - apply Forall_alter; [done|]. intros d _. apply Hf.
  - apply Forall_app. split; [done|]. by repeat constructor.
Qed.

Lemma Forall_save {D} (Q : D → Prop) (i : nat) (x : D) (c : list D) :
  Q x → Forall Q c → Forall Q (Beanie.save i x c).
Proof.
  intros Hx Hc. unfold Beanie.save. case_bool_decide.
  - by apply Forall_insert.
  - apply Forall_app. split; [done|]. by repeat constructor.
Qed.

Lemma store_eq_sets_without_duplicates (s s' : State) :
  store_eq s s' → keeps sets_without_duplicates s s'.
Proof. intros (Hc & Hp & _) Hu. unfold sets_without_duplicates. by rewrite Hc, Hp. Qed.

(** X16. [Cycle.proposals] and [Proposal.cycles] are sets: if no stored
    cycle lists a proposal twice and no stored proposal lists a cycle twice,
    this is still so after any history of engine steps. *)
Theorem membership_sets_stay_duplicate_free (steps : list (Env * step)) (s : State) :
  sets_without_duplicates s → sets_without_duplicates (run_steps steps s).
Proof.
  apply (relation_run_steps (keeps sets_without_duplicates) store_eq_sets_without_duplicates).
  - intros s0 new k t _ Hempty [Hc Hp]. split; [|exact Hp]. simpl.
    apply Forall_upsert; [by intros d | | done]. rewrite Hempty. apply NoDup_nil_2.
  - intros s0 i v [Hc Hp]. split; [|exact Hp]. simpl.
    apply Forall_alter; [done|]. intros d _ Hd. simpl. by apply NoDup_AddToSet.
  - intros s0 i d t Hd [Hc Hp]. split; [|exact Hp]. simpl.
    apply Forall_save; [|done]. simpl. by eapply (proj1 (Forall_lookup _ _) Hc).
  - intros s0 new p fid t _ Hu. exact Hu.
  - intros s0 new k title ds tid ty ins safs us t Hempty [Hc Hp]. split; [exact Hc|]. simpl.
    apply Forall_upsert; [by intros d | | done]. rewrite Hempty. apply NoDup_nil_2.
  - intros s0 i v [Hc Hp]. split; [exact Hc|]. simpl.
    apply Forall_alter; [done|]. intros d _ Hd. simpl. by apply NoDup_AddToSet.
  - intros s0 i d t Hd [Hc Hp]. split; [exact Hc|]. simpl.
    apply Forall_save; [|done]. simpl. by eapply (proj1 (Forall_lookup _ _) Hp).
Qed.

Lemma membership_sets_stay_duplicate_free_witness :
  let p := Fixtures.proposal42 [Fixtures.ada] (Some Fixtures.ada) in
  let env := Fixtures.env_with (Ok (RawProposal p)) Fixtures.lookup_ok in
  sets_without_duplicates
    (run_steps [ (env, SynchronizeProposal (PInt 42));
                 (env, UpdateProposalsWithCycle "2024-1");
                 (env, UpdateProposalsWithCycle "2024-1");
                 (env, AllocationLoop (Handle 0 Fixtures.stored_cycle)
                         [ {| alloc_Proposal_ID := 42 |} ]) ]
       {| db_cycles := [Fixtures.stored_cycle]; db_proposals := [];
          db_proposal_types := []; clock := 0; logs := [] |}).
Proof.
  cbv zeta. apply membership_sets_stay_duplicate_free.
  split; [|apply Forall_nil_2].
  apply Forall_cons_2; [|apply Forall_nil_2].
  apply (bool_decide_unpack _). vm_compute. exact I.
Defined.

(** ** The frame of the linker *)

Global Instance same_reconciled_fields_preorder : PreOrder same_reconciled_fields.
Proof.
  split.
  - intros d. by repeat split.
  - intros d1 d2 d3 (?&?&?&?&?&?&?&?) (?&?&?&?&?&?&?&?). repeat split; congruence.
Qed.

Global Instance linker_frame_preorder : PreOrder linker_frame.
Proof.
  split.
  - intros s. by repeat split.
  - intros s1 s2 s3 (?&?&?&?) (?&?&?&?). repeat split; [congruence..|by etrans].
Qed.

(** X17. Whatever its outcome, linking a cycle leaves the cycles and the
    proposal types of the store untouched, adds and removes no proposal, and
    changes no proposal's id, title, data session, type, instruments, safety
    forms or users: only [cycles] and [last_updated] can differ. *)
Theorem linker_touches_only_cycles_and_last_updated (env : Env) (cycle_name : string)
    (s : State) :
  linker_frame s (update_proposals_with_cycle env cycle_name s).2.
Proof.
  apply (relation_update_proposals_with_cycle linker_frame).
  - intros s0 s' (Hc & Hp & Ht). unfold linker_frame. rewrite Hc, Hp, Ht. by repeat split.
  - intros s0 i v. repeat split; simpl.
    + unfold Beanie.update. by rewrite length_alter.
    + apply coll_le_alter; [apply _|]. intros d. by repeat split.
  - intros s0 i d t Hd. repeat split; simpl.
    + unfold Beanie.save. rewrite bool_decide_eq_true_2 by (by eapply lookup_lt_Some).
      by rewrite length_insert.
    + apply coll_le_save; [apply _|]. intros d0 Hd0. rewrite Hd in Hd0. injection Hd0 as <-.
      by repeat split.
Qed.

(** ** The linker and the ids it is given *)

Lemma for_each_app {A} (l1 l2 : list A) (body : A → M unit) (s : State) :
  for_each (l1 ++ l2) body s
  = match for_each l1 body s with
    | (Ok _, s1) => for_each l2 body s1
    | (Err e, s1) => (Err e, s1)
    end.
Proof.
  revert s. induction l1 as [|x l1 IH]; intros s; simpl; [done|].
  rewrite !bind_run. destruct (body x s) as [[[]|e] s1]; [apply IH | done].
Qed.

(** [int()] only ever raises a [ValueError]. *)
Lemma py_int_error_class (v : pyval) (e : exn) : py_int v = Err e → exn_cls e = ValueErrorC.
Proof.
  destruct v as [z|str]; simpl; [discriminate|].
  destruct (PyInt.parse str); [discriminate|]. by intros [= <-].
Qed.

(** An id that [int()] rejects: the [ValueError] is not a [LookupError], so
    it leaves the round, and nothing has been written or logged. *)
Lemma link_proposal_rejected (cycle_name : string) (proposal_id : pyval) (e : exn) (s : State) :
  py_int proposal_id = Err e → link_proposal cycle_name proposal_id s = (Err e, s).
Proof.
  intros Hint. unfold link_proposal, try_except.
  erewrite bind_err; [|unfold lift; by rewrite Hint].
  simpl. by rewrite (py_int_error_class _ _ Hint).
Qed.

(** X18. An id that [int()] rejects stops the linking: the [ValueError]
    leaves [update_proposals_with_cycle].  The ids before it have been
    processed, and the state is the one they left; the ids after it are not
    looked at. *)
Theorem linking_stops_at_an_id_that_int_rejects (env : Env) (cycle_name : string) (s : State)
    (before : list pyval) (proposal_id : pyval) (after : list pyval) (e : exn) :
  fetch_proposals_for_cycle env s cycle_name = Ok (before ++ proposal_id :: after) →
  (∀ id, id ∈ before → ∃ n, py_int id = Ok n) →
  py_int proposal_id = Err e →
  ∃ s0 s', update_proposals_with_cycle env cycle_name s = (Err e, s') ∧
           exn_cls e = ValueErrorC ∧
           store_eq s s0 ∧
           for_each before (link_proposal cycle_name) s0 = (Ok tt, s').
Proof.
  intros Hfetch Hbefore Hint. unfold update_proposals_with_cycle.
  rewrite bind_run. simpl.
  erewrite bind_ok; [|unfold lift; by rewrite Hfetch].
  erewrite bind_ok; [|reflexivity].
  match goal with |- context [for_each _ _ ?s0] =>
    destruct (for_each_link_proposal cycle_name before s0 Hbefore) as (s' & Hrun & _);
    exists s0, s'
  end.
  rewrite for_each_app, Hrun. simpl. rewrite bind_run, (link_proposal_rejected _ _ e) by done.
  split; [done|]. split; [by eapply py_int_error_class|]. split; [by repeat split | done].
Qed.

Lemma linking_stops_at_an_id_that_int_rejects_witness :
  let p := Fixtures.proposal42 [Fixtures.ada] (Some Fixtures.ada) in
  let env :=
    {| base_url := "https://pass"; api_key := "KEY";
       _call_async_webservice := λ _, Ok RawNull;
       beamline_by_pass_id := λ _, Ok None;
       facility_by_pass_id := λ _, Ok None;
       cycle_year := λ _, Ok 2024;
       get_username_by_id := Fixtures.lookup_ok;
       generate_data_session_for_proposal := λ v, "pass-" +:+ py_str v;
       fetch_proposals_for_cycle := λ _ _, Ok [PStr "43"; PStr "4.2"; PStr "42"];
       get_proposals_allocated_by_cycle := λ _, Ok [] |} in
  ∃ e s', update_proposals_with_cycle env "2024-1" Fixtures.empty_state = (Err e, s') ∧
          exn_cls e = ValueErrorC.
Proof.
  cbv zeta.
  edestruct (linking_stops_at_an_id_that_int_rejects
               {| base_url := "https://pass"; api_key := "KEY";
                  _call_async_webservice := λ _, Ok RawNull;
                  beamline_by_pass_id := λ _, Ok None;
                  facility_by_pass_id := λ _, Ok None;
                  cycle_year := λ _, Ok 2024;
                  get_username_by_id := Fixtures.lookup_ok;
                  generate_data_session_for_proposal := λ v, "pass-" +:+ py_str v;
                  fetch_proposals_for_cycle := λ _ _, Ok [PStr "43"; PStr "4.2"; PStr "42"];
                  get_proposals_allocated_by_cycle := λ _, Ok [] |}
               "2024-1" Fixtures.empty_state [PStr "43"] (PStr "4.2") [PStr "42"])
    as (s0 & s' & Hrun & Hcls & _).
  - reflexivity.
  - intros id Hin. apply elem_of_cons in Hin as [-> | Hin]; [by exists 43|].
    by apply elem_of_nil in Hin.
  - reflexivity.
  - eexists _, s'. split; [exact Hrun | exact Hcls].
Defined.

(** ** Linking a second time *)

Global Instance same_but_last_updated_trans : Transitive same_but_last_updated.
Proof.
  intros d1 d2 d3 (?&?&?&?&?&?&?&?&?) (?&?&?&?&?&?&?&?&?). repeat split; congruence.
Qed.

(** A loop that returned normally was given ids that [int()] accepts. *)
Lemma for_each_link_proposal_parses (cycle_name : string) (ids : list pyval) (s s' : State) :
  for_each ids (link_proposal cycle_name) s = (Ok tt, s') →
  ∀ id, id ∈ ids → ∃ n, py_int id = Ok n.
Proof.
  revert s. induction ids as [|id0 ids IH]; intros s Hrun id Hin.
  - by apply elem_of_nil in Hin.
  - simpl in Hrun. rewrite bind_run in Hrun.
    destruct (py_int id0) as [n0|e] eqn:Hint.
    + destruct (link_proposal cycle_name id0 s) as [[[]|e] s1]; [|discriminate].
      apply elem_of_cons in Hin as [-> | Hin]; [by exists n0 | by eapply IH].
    + by rewrite (link_proposal_rejected _ _ e) in Hrun.
Qed.

(** One round of the loop for a proposal that is missing or already in the
    cycle: only [last_updated] changes. *)
Lemma link_proposal_again (cycle_name : string) (proposal_id : pyval) (n : Z) (s : State) :
  py_int proposal_id = Ok n →
  match local_proposal n s with
  | Some (_, d) => cycle_name ∈ Proposal.cycles d
  | None => True
  end →
  ∃ s', link_proposal cycle_name proposal_id s = (Ok tt, s') ∧
        db_cycles s' = db_cycles s ∧ db_proposal_types s' = db_proposal_types s ∧
        Forall2 same_but_last_updated (db_proposals s) (db_proposals s').
Proof.
  intros Hint Hin. unfold link_proposal, try_except.
  erewrite bind_ok; [|unfold lift; by rewrite Hint].
  rewrite bind_run, proposal_by_id_run.
  destruct (local_proposal n s) as [[i d]|] eqn:Hfind.
  - apply list_find_Some in Hfind as (Hd & _).
    assert (i < length (alter (AddToSet_proposal_cycles cycle_name) i (db_proposals s)))%nat
      as Hi by (rewrite length_alter; by eapply lookup_lt_Some).
    unfold proposal_update. rewrite !bind_run. simpl.
    unfold Beanie.update. rewrite list_lookup_alter_eq, Hd. simpl.
    unfold Beanie.save. rewrite bool_decide_eq_true_2 by done.
    eexists. split; [reflexivity|]. simpl. split; [done|]. split; [done|].
    apply Forall2_same_length_lookup_2.
    { by rewrite length_insert, length_alter. }
    intros j x y Hx Hy. destruct (decide (i = j)) as [<-|Hne].
    + rewrite list_lookup_insert_eq in Hy by done.
      rewrite Hd in Hx. injection Hx as <-. injection Hy as <-.
      repeat split; simpl. unfold Beanie.AddToSet. by rewrite bool_decide_eq_true_2.
    + rewrite list_lookup_insert_ne, list_lookup_alter_ne in Hy by done.
      rewrite Hx in Hy. by injection Hy as <-.
  - simpl. eexists. split; [reflexivity|]. simpl. split; [done|]. split; [done|].
    by apply Forall_Forall2_diag, Forall_true.
Qed.

(** Documents that differ at most in [last_updated] are found under the
    same ids, with the same cycles. *)
Lemma same_but_last_updated_local_proposal (s s' : State) (n : Z) :
  Forall2 same_but_last_updated (db_proposals s) (db_proposals s') →
  match local_proposal n s' with
  | Some (i, d') => ∃ d, local_proposal n s = Some (i, d) ∧
                         Proposal.cycles d' = Proposal.cycles d
  | None => True
  end.
Proof.
  intros Hall.
  assert (relinked s {| db_cycles := db_cycles s'; db_proposals := db_proposals s';
                        db_proposal_types := db_proposal_types s'; clock := clock s';
                        logs := logs s |}) as Hrel.
  { split; [symmetry; by eapply Forall2_length|]. split; [|done]. intros i d Hd.
    destruct (Forall2_lookup_l _ _ _ _ _ Hall Hd) as (d' & Hd' & Hsame).
    exists d'. split; [done|]. destruct Hsame as (?&?&?&?&?&?&?&?&Hc). split; [done|].
    by rewrite Hc. }
  pose proof (relinked_local_proposal _ _ n Hrel) as Hfind.
  unfold local_proposal in *. simpl in Hfind.
  destruct (Beanie.find_one _ (db_proposals s)) as [[i d]|] eqn:Hs.
  - destruct Hfind as (d' & Hf' & _). rewrite Hf'. exists d. split; [done|].
    apply list_find_Some in Hs as (Hd & _).
    destruct (Forall2_lookup_l _ _ _ _ _ Hall Hd) as (d2 & Hd2 & Hsame).
    apply list_find_Some in Hf' as (Hd' & _).
    rewrite Hd2 in Hd'. injection Hd' as <-. by destruct Hsame as (?&?&?&?&?&?&?&?&?).
  - by rewrite Hfind.
Qed.

Lemma for_each_link_proposal_again (cycle_name : string) (ids : list pyval) (s : State) :
  (∀ id, id ∈ ids → ∃ n, py_int id = Ok n) →
  (∀ id n, id ∈ ids → py_int id = Ok n →
     match local_proposal n s with
     | Some (_, d) => cycle_name ∈ Proposal.cycles d
     | None => True
     end) →
  ∃ s', for_each ids (link_proposal cycle_name) s = (Ok tt, s') ∧
        db_cycles s' = db_cycles s ∧ db_proposal_types s' = db_proposal_types s ∧
        Forall2 same_but_last_updated (db_proposals s) (db_proposals s').
Proof.
  revert s. induction ids as [|id0 ids IH]; intros s Hints Hlinked; simpl.
  - exists s. repeat (split; [done|]). by apply Forall_Forall2_diag, Forall_true.
  - destruct (Hints id0) as [n0 Hn0]; [by left|].
    destruct (link_proposal_again cycle_name id0 n0 s Hn0) as (s1 & Hrun1 & Hc1 & Ht1 & Hall1).
    { apply (Hlinked id0); [by left | done]. }
    destruct (IH s1) as (s' & Hrun & Hc & Ht & Hall).
    { intros id Hin. apply Hints. by right. }
    { intros id n Hin Hn.
      pose proof (same_but_last_updated_local_proposal s s1 n Hall1) as Hsame.
      destruct (local_proposal n s1) as [[i d1]|]; [|done].
      destruct Hsame as (d & Hfind & ->).
      specialize (Hlinked id n (list_elem_of_further _ _ _ Hin) Hn). by rewrite Hfind in Hlinked. }
    exists s'. rewrite bind_run, Hrun1.
    split; [exact Hrun|]. split; [congruence|]. split; [congruence|]. by etrans.
Qed.

(** X20. Linking a cycle a second time changes nothing but
    [last_updated]: when the first linking returned normally and the ids of
    the cycle are the same, the second linking returns normally too and
    leaves every proposal as it was up to [last_updated]. *)
Theorem second_linking_changes_only_last_updated (env : Env) (cycle_name : string)
    (s s1 : State) :
  update_proposals_with_cycle env cycle_name s = (Ok tt, s1) →
  fetch_proposals_for_cycle env s1 cycle_name = fetch_proposals_for_cycle env s cycle_name →
  ∃ s2, update_proposals_with_cycle env cycle_name s1 = (Ok tt, s2) ∧
        db_cycles s2 = db_cycles s1 ∧ db_proposal_types s2 = db_proposal_types s1 ∧
        Forall2 same_but_last_updated (db_proposals s1) (db_proposals s2).
Proof.
  intros Hrun Hsame. unfold update_proposals_with_cycle in *.
  rewrite bind_run in Hrun. simpl in Hrun.
  destruct (fetch_proposals_for_cycle env s cycle_name) as [ids|e] eqn:Hfetch;
    [|discriminate].
  erewrite bind_ok in Hrun; [|reflexivity].
  erewrite bind_ok in Hrun; [|reflexivity].
  pose proof (for_each_link_proposal_parses _ _ _ _ Hrun) as Hints.
  match type of Hrun with for_each _ _ ?s0 = _ =>
    destruct (for_each_link_proposal cycle_name ids s0 Hints) as (s1' & Hrun' & Hrel & Hall);
    pose proof (λ n, relinked_local_proposal s0 s1 n) as Hpos
  end.
  rewrite Hrun in Hrun'. injection Hrun' as <-.
  rewrite bind_run. simpl. rewrite Hsame.
  erewrite bind_ok; [|reflexivity].
  erewrite bind_ok; [|reflexivity].
  match goal with |- context [for_each ids _ ?s1'] =>
    destruct (for_each_link_proposal_again cycle_name ids s1' Hints)
      as (s2 & Hrun2 & Hc & Ht & Hall2)
  end.
  { intros id n Hin Hn. specialize (Hall id n Hin Hn). specialize (Hpos n Hrel).
    unfold local_proposal in *. simpl in *.
    destruct (Beanie.find_one _ (db_proposals s)) as [[i d]|].
    - destruct Hpos as (d' & Hfind & _). rewrite Hfind.
      destruct Hall as (d'' & Hd'' & Hin'').
      apply list_find_Some in Hfind as (Hd' & _). congruence.
    - by rewrite Hpos. }
  exists s2. by repeat split.
Qed.

Lemma second_linking_changes_only_last_updated_witness :
  let p := Fixtures.proposal42 [Fixtures.ada] (Some Fixtures.ada) in
  let env := Fixtures.env_with (Ok (RawProposal p)) Fixtures.lookup_ok in
  let s := (synchronize_proposal_from_pass env (PInt 42) Fixtures.empty_state).2 in
  let s1 := (update_proposals_with_cycle env "2024-1" s).2 in
  ∃ s2, update_proposals_with_cycle env "2024-1" s1 = (Ok tt, s2) ∧
        db_cycles s2 = db_cycles s1 ∧ db_proposal_types s2 = db_proposal_types s1 ∧
        Forall2 same_but_last_updated (db_proposals s1) (db_proposals s2).
Proof.
  cbv zeta.
  apply (second_linking_changes_only_last_updated
           (Fixtures.env_with
              (Ok (RawProposal (Fixtures.proposal42 [Fixtures.ada] (Some Fixtures.ada))))
              Fixtures.lookup_ok)
           "2024-1"
           (synchronize_proposal_from_pass
              (Fixtures.env_with
                 (Ok (RawProposal (Fixtures.proposal42 [Fixtures.ada] (Some Fixtures.ada))))
                 Fixtures.lookup_ok)
              (PInt 42) Fixtures.empty_state).2).
  - vm_compute. reflexivity.
  - reflexivity.
Defined.

(** ** The worker for one cycle *)

Global Instance same_membership_preorder : PreOrder same_membership.
Proof.
  split.
  - by intros d.
  - intros d1 d2 d3 [? ?] [? ?]. split; congruence.
Qed.

Global Instance membership_untouched_preorder : PreOrder membership_untouched.
Proof.
  split.
  - intros s. split; [done | reflexivity].
  - intros s1 s2 s3 [Hc1 Hp1] [Hc2 Hp2]. split; [congruence | by etrans].
Qed.

Lemma store_eq_membership_untouched (s s' : State) :
  store_eq s s' → membership_untouched s s'.
Proof. intros (Hc & Hp & _). split; [done|]. rewrite Hp. reflexivity. Qed.

(** A loop whose body fails on one of the elements fails. *)
Lemma for_each_fails {A} (l : list A) (body : A → M unit) (x : A) :
  x ∈ l → (∀ s, ∃ e s', body x s = (Err e, s')) →
  ∀ s, ∃ e s', for_each l body s = (Err e, s').
Proof.
  intros Hin Hfail. induction l as [|y l IH]; intros s.
  - by apply elem_of_nil in Hin.
  - simpl. rewrite bind_run. destruct (body y s) as [[[]|e] s1] eqn:Hy; [|by eauto].
    apply elem_of_cons in Hin as [-> | Hin]; [|by apply IH].
    destruct (Hfail s) as (e & s' & He). congruence.
Qed.

Lemma synchronize_proposal_needs_the_record (env : Env) (proposal_id : pyval) (s : State) :
  (∀ p, _call_async_webservice env (proposal_url env proposal_id) ≠ Ok (RawProposal p)) →
  ∃ e s', synchronize_proposal_from_pass env proposal_id s = (Err e, s').
Proof.
  intros Hno. unfold synchronize_proposal_from_pass. rewrite bind_run.
  destruct (reconcile_proposal env proposal_id s) as [[r|e] s1] eqn:Hrec; [|by eauto].
  apply reconcile_proposal_ok_inv in Hrec as (Hremote & _). by destruct (Hno _ Hremote).
Qed.

(** X21. When one of the proposals of the cycle has no well-formed record
    at the remote system, the worker for the cycle fails, and it fails
    before linking anything: no cycle document has changed and every
    proposal still has the cycles it had, also those reconciled before the
    failure. *)
Theorem cycle_worker_links_nothing_when_a_record_is_missing (env : Env) (cycle : string)
    (ids : list pyval) (proposal_id : pyval) (s : State) :
  (∀ st, fetch_proposals_for_cycle env st cycle = Ok ids) →
  proposal_id ∈ ids →
  (∀ p, _call_async_webservice env (proposal_url env proposal_id) ≠ Ok (RawProposal p)) →
  ∃ e s', worker_synchronize_proposals_for_cycle_from_pass env cycle s = (Err e, s') ∧
          membership_untouched s s'.
Proof.
  intros Hfetch Hin Hno.
  assert (preserves membership_untouched
            (for_each ids
               (λ proposal_id,
                  logger INFO ("Synchronizing proposal " +:+ py_str proposal_id +:+ ".");;
                  synchronize_proposal_from_pass env proposal_id))) as Hloop.
  { apply preserves_for_each; [apply _|]. intros id.
    apply preserves_bind; [apply _ | |intros _].
    - apply preserves_logger. apply store_eq_membership_untouched.
    - apply (relation_synchronize_proposal membership_untouched).
      + apply store_eq_membership_untouched.
      + intros s0 new k title ds tid ty ins safs us t Hnew. split; [done|]. simpl.
        apply coll_le_upsert; [apply _|]. intros d. by split. }
  unfold worker_synchronize_proposals_for_cycle_from_pass.
  erewrite bind_ok; [|reflexivity].
  destruct (cycle_year env cycle) as [year|e] eqn:Hyear.
  2:{ erewrite bind_err; [|reflexivity].
      eexists _, _. split; [done|]. apply store_eq_membership_untouched. by repeat split. }
  erewrite bind_ok; [|reflexivity].
  erewrite bind_ok; [|reflexivity].
  erewrite bind_ok; [|unfold lift; by rewrite Hfetch].
  erewrite bind_ok; [|reflexivity].
  match goal with |- context [(for_each ids ?body ≫= _) ?s0] =>
    destruct (for_each_fails ids body proposal_id Hin) with (s := s0) as (e & s' & Hrun);
    [|specialize (Hloop s0)]
  end.
  { intros st. erewrite bind_ok; [|reflexivity].
    by apply synchronize_proposal_needs_the_record. }
  erewrite bind_err; [|exact Hrun].
  exists e, s'. split; [done|]. rewrite Hrun in Hloop. simpl in Hloop.
  etrans; [|exact Hloop]. apply store_eq_membership_untouched. by repeat split.
Qed.

Lemma cycle_worker_links_nothing_when_a_record_is_missing_witness :
  ∃ e s', worker_synchronize_proposals_for_cycle_from_pass
            (Fixtures.env_with (Ok RawNull) Fixtures.lookup_ok) "2024-1"
            Fixtures.empty_state = (Err e, s') ∧
          membership_untouched Fixtures.empty_state s'.
Proof.
  apply (cycle_worker_links_nothing_when_a_record_is_missing
           (Fixtures.env_with (Ok RawNull) Fixtures.lookup_ok) "2024-1"
           [PStr "43"; PStr "42"] (PStr "43") Fixtures.empty_state).
  - intros st. reflexivity.
  - by left.
  - intros p. vm_compute. discriminate.
Defined.

(** X22. When the worker for a cycle returns normally, every id of the
    cycle is one that [int()] accepts, and at the end each of them either
    has a local proposal that carries the cycle, or has none and a warning
    in the log. *)
Theorem cycle_worker_links_every_listed_proposal (env : Env) (cycle : string)
    (ids : list pyval) (s s' : State) :
  (∀ st, fetch_proposals_for_cycle env st cycle = Ok ids) →
  worker_synchronize_proposals_for_cycle_from_pass env cycle s = (Ok tt, s') →
  ∀ id, id ∈ ids →
    ∃ n, py_int id = Ok n ∧
         match local_proposal n s' with
         | Some (_, d) => cycle ∈ Proposal.cycles d
         | None => missing_proposal_warning n ∈ logs s'
         end.
Proof.
  intros Hfetch Hrun id Hin. unfold worker_synchronize_proposals_for_cycle_from_pass in Hrun.
  apply bind_ok_inv in Hrun as (t0 & s1 & _ & Hrun).
  apply bind_ok_inv in Hrun as (year & s2 & _ & Hrun).
  apply bind_ok_inv in Hrun as (st & s3 & _ & Hrun).
  apply bind_ok_inv in Hrun as (ids0 & s4 & _ & Hrun).
  apply bind_ok_inv in Hrun as ([] & s5 & _ & Hrun).
  apply bind_ok_inv in Hrun as ([] & s6 & _ & Hrun).
  apply bind_ok_inv in Hrun as (response & s7 & _ & Hrun).
  apply bind_ok_inv in Hrun as ([] & s8 & _ & Hrun).
  apply bind_ok_inv in Hrun as (commissioning & s9 & _ & Hrun).
  apply bind_ok_inv in Hrun as ([] & s10 & _ & Hrun).
  apply bind_ok_inv in Hrun as ([] & s11 & Hlink & Hrun).
  run_monad_in Hrun. injection Hrun as <-.
  unfold update_proposals_with_cycle in Hlink.
  rewrite bind_run in Hlink. simpl in Hlink. rewrite Hfetch in Hlink.
  erewrite bind_ok in Hlink; [|reflexivity].
  erewrite bind_ok in Hlink; [|reflexivity].
  pose proof (for_each_link_proposal_parses _ _ _ _ Hlink) as Hints.
  destruct (Hints id Hin) as [n Hn]. exists n. split; [done|].
  match type of Hlink with for_each _ _ ?s0 = _ =>
    destruct (for_each_link_proposal cycle ids s0 Hints) as (s1' & Hrun' & Hrel & Hall);
    pose proof (relinked_local_proposal s0 s11 n) as Hpos
  end.
  rewrite Hlink in Hrun'. injection Hrun' as <-.
  specialize (Hall id n Hin Hn). specialize (Hpos Hrel).
  unfold local_proposal in *. simpl in *.
  destruct (Beanie.find_one _ (db_proposals s10)) as [[i d]|].
  - destruct Hpos as (d' & Hfind & _). rewrite Hfind.
    destruct Hall as (d'' & Hd'' & Hin'').
    apply list_find_Some in Hfind as (Hd' & _). congruence.
  - rewrite Hpos. apply elem_of_app. by left.
Qed.

Lemma cycle_worker_links_every_listed_proposal_witness :
  ∃ n, py_int (PStr "42") = Ok n ∧
       match local_proposal n
               (worker_synchronize_proposals_for_cycle_from_pass
                  Fixtures.env_one_proposal "2024-1" Fixtures.empty_state).2 with
       | Some (_, d) => "2024-1" ∈ Proposal.cycles d
       | None => missing_proposal_warning n
                   ∈ logs (worker_synchronize_proposals_for_cycle_from_pass
                             Fixtures.env_one_proposal "2024-1" Fixtures.empty_state).2
       end.
Proof.
  apply (cycle_worker_links_every_listed_proposal
           Fixtures.env_one_proposal "2024-1" [PStr "42"] Fixtures.empty_state).
  - intros st. reflexivity.
  - vm_compute. reflexivity.
  - by left.
Defined.


(** ** The instruments of a reconciled proposal *)

(** When the loop over the resources returns, every lookup was answered. *)
Lemma resolve_beamlines_ok_inv (env : Env) (resources : list PassResource) (acc : list string)
    (s s' : State) (names : list string) :
  resolve_beamlines env resources acc s = (Ok names, s') →
  names = acc ++ resolved_names env resources.
Proof.
  revert acc s. induction resources as [|r l IH]; intros acc s; simpl.
  - intros [= <- _]. by rewrite app_nil_r.
  - rewrite bind_run. unfold lift, resolved_names. simpl.
    destruct (beamline_by_pass_id env (ID r)) as [[b|]|e]; simpl; [| |discriminate].
    + intros ->%IH. by rewrite <- app_assoc.
    + by intros ->%IH.
Qed.

(** X23. A completed reconciliation stores as the instruments of the
    proposal the names of the beamlines that the resources of the remote
    record resolve to, in order: a resource without a local beamline is left
    out.  It stores no safety form, since it only completes when PASS lists
    none for the proposal. *)
Theorem completed_reconciliation_stores_resolved_beamlines (env : Env) (proposal_id : pyval)
    (s s' : State) (p : PassProposal) :
  _call_async_webservice env (proposal_url env proposal_id) = Ok (RawProposal p) →
  synchronize_proposal_from_pass env proposal_id s = (Ok tt, s') →
  ∃ d, db_proposals s' !! proposal_index proposal_id s = Some d ∧
       Proposal.instruments d = resolved_names env (Resources p) ∧
       (∀ name, name ∈ Proposal.instruments d ↔
                ∃ r b, r ∈ Resources p ∧ beamline_by_pass_id env (ID r) = Ok (Some b) ∧
                       Beamline.name b = name) ∧
       Proposal.safs d = [] ∧
       _call_async_webservice env (saf_url env proposal_id) = Ok (RawSafs []).
Proof.
  intros Hremote Hrun. unfold synchronize_proposal_from_pass in Hrun.
  apply bind_ok_inv in Hrun as (r & s1 & Hrec & Hup).
  pose proof (preserves_reconcile_proposal store_eq (λ _ _ H, H) env proposal_id s) as Hs1.
  rewrite Hrec in Hs1. destruct Hs1 as (_ & Hprop & _). simpl in Hprop.
  apply reconcile_proposal_ok_inv in Hrec as (Hremote' & (Hsafs & Hnone) & (sa & sb & Hbl) & _).
  rewrite Hremote in Hremote'. injection Hremote' as Heq.
  apply resolve_beamlines_ok_inv in Hbl. simpl in Hbl. rewrite <- Heq in Hbl.
  destruct (upsert_proposal_run env proposal_id r s1)
    as (s2 & Hup' & _ & _ & d & Hd & _ & Hsl & Hins).
  rewrite Hup in Hup'. injection Hup' as <-.
  exists d. unfold proposal_index in *. rewrite <- Hprop.
  split; [exact Hd|]. split; [congruence|].
  split; [|split; [congruence | exact Hsafs]].
  intros name. rewrite Hins, Hbl. apply elem_of_resolved_names.
Qed.

Lemma completed_reconciliation_stores_resolved_beamlines_witness :
  let p := Fixtures.proposal42 [Fixtures.bob] (Some Fixtures.ada) in
  let env := Fixtures.env_with (Ok (RawProposal p)) Fixtures.lookup_ok in
  let s' := (synchronize_proposal_from_pass env (PInt 42) Fixtures.empty_state).2 in
  resolved_names env (Resources p) = ["CHX"] ∧
  ∃ d, db_proposals s' !! proposal_index (PInt 42) Fixtures.empty_state = Some d ∧
       Proposal.instruments d = resolved_names env (Resources p) ∧
       (∀ name, name ∈ Proposal.instruments d ↔
                ∃ r b, r ∈ Resources p ∧ beamline_by_pass_id env (ID r) = Ok (Some b) ∧
                       Beamline.name b = name) ∧
       Proposal.safs d = [] ∧
       _call_async_webservice env (saf_url env (PInt 42)) = Ok (RawSafs []).
Proof.
  cbv zeta. split; [reflexivity|].
  apply (completed_reconciliation_stores_resolved_beamlines
           (Fixtures.env_with
              (Ok (RawProposal (Fixtures.proposal42 [Fixtures.bob] (Some Fixtures.ada))))
              Fixtures.lookup_ok)
           (PInt 42) Fixtures.empty_state _
           (Fixtures.proposal42 [Fixtures.bob] (Some Fixtures.ada))).
  - vm_compute. reflexivity.
  - vm_compute. reflexivity.
Defined.
